(** * Web archiving pipeline: reference rewriter, crawler, archive orchestrator

    A shallow embedding of the backend of the web archiving tool
    (url-utils.ts, url-rewriter.ts, validation.ts, file-service.ts,
    crawler-service.ts, archive-service.ts and the handler of
    [POST /api/archives]) together with the properties its design document
    states about it and further properties read off the code.

    Conventions.
    - JavaScript strings are [string]s, read as byte strings; the string
      primitives of module [Js] act on ASCII the way their JavaScript
      counterparts do.
    - A JavaScript exception is the [Throw] side of [Exc], with the
      message of the error; [try ... catch] is [try_catch].  A method that
      changes the object it belongs to takes the state and returns it.
    - The platform the code runs on is an interface.  The WHATWG URL
      parser is the class [UrlParser]; every statement holds for any
      instance, and the closed examples run with [SimpleUrl.parser].  The
      file system is a tree of directories together with a schedule of
      faults ([Storage]); the network, the text scanners and the uuid
      generator are the oracles of [World], [fetch] and [CrawlOutcome].
    - Asynchronous code is taken in program order: a background run is a
      transition of its own ([finishArchiving]), and so is the timer that
      retires a progress entry ([retire]).  The downloads of one run, which
      the source starts together, are taken in the order of the array:
      each of them touches only its own asset object, and what is proved
      about one download does not depend on the others.  A definition of
      a whole async method is the method run without interruption; where
      calls that overlap matter ([createArchive], the crawl loop), the
      parts of the method between its [await]s are given as well, and
      lemmas say that the method is its parts in sequence.
    - The storage tree is keyed by archive id, which stands for the
      directory [path.join(baseStoragePath, id)]: this is the directory
      entry [id] when the id is a plain name ([plainName]). *)

From Stdlib Require Import String Ascii List Arith Lia Bool DecimalString Sorted.
From Stdlib Require Import QArith Qround.
From stdpp Require Import gmap strings list.

Local Open Scope list_scope.

(** ** Exceptions *)

Inductive Exc (A : Type) : Type :=
| Ok (a : A)
| Throw (message : string).
Arguments Ok {A} a.
Arguments Throw {A} message.

Definition try_catch {A} (body : Exc A) (handler : string -> A) : A :=
  match body with
  | Ok a => a
  | Throw m => handler m
  end.

Definition exc_bind {A B} (c : Exc A) (k : A -> Exc B) : Exc B :=
  match c with
  | Ok a => k a
  | Throw m => Throw m
  end.

Definition of_option {A} (o : option A) (message : string) : Exc A :=
  match o with
  | Some a => Ok a
  | None => Throw message
  end.

(** ** JavaScript string primitives *)

Module Js.

Definition startsWith (s p : string) : bool := String.prefix p s.

Definition endsWith (s p : string) : bool :=
  String.prefix (String.rev p) (String.rev s).

Fixpoint includes (s sub : string) : bool :=
  String.prefix sub s ||
  match s with
  | EmptyString => false
  | String _ r => includes r sub
  end.

Definition lower_ascii (c : ascii) : ascii :=
  let n := nat_of_ascii c in
  if (65 <=? n) && (n <=? 90) then ascii_of_nat (n + 32) else c.

Fixpoint toLowerCase (s : string) : string :=
  match s with
  | EmptyString => EmptyString
  | String c r => String (lower_ascii c) (toLowerCase r)
  end.

Definition is_ws (c : ascii) : bool :=
  let n := nat_of_ascii c in
  ((9 <=? n) && (n <=? 13)) || (n =? 32).

Fixpoint trimStart (s : string) : string :=
  match s with
  | EmptyString => EmptyString
  | String c r => if is_ws c then trimStart r else s
  end.

Fixpoint trimEnd (s : string) : string :=
  match s with
  | EmptyString => EmptyString
  | String c r =>
      match trimEnd r with
      | EmptyString => if is_ws c then EmptyString else String c EmptyString
      | r' => String c r'
      end
  end.

Definition trim (s : string) : string := trimEnd (trimStart s).

(** [s.slice(0, n)] *)
Definition take (n : nat) (s : string) : string := String.substring 0 n s.

(** [s.slice(n)] *)
Fixpoint drop (n : nat) (s : string) : string :=
  match n, s with
  | O, _ => s
  | S _, EmptyString => EmptyString
  | S k, String _ r => drop k r
  end.

(** [s.split(sep)] for a one-character separator. *)
Fixpoint split_go (sep : ascii) (cur : string) (s : string) : list string :=
  match s with
  | EmptyString => [String.rev cur]
  | String c r =>
      if Ascii.eqb c sep then String.rev cur :: split_go sep EmptyString r
      else split_go sep (String c cur) r
  end.
Definition split (sep : ascii) (s : string) : list string :=
  split_go sep EmptyString s.

(** [parts.join(sep)] *)
Fixpoint join (sep : string) (parts : list string) : string :=
  match parts with
  | [] => EmptyString
  | [p] => p
  | p :: rest => p +:+ sep +:+ join sep rest
  end.

(** JavaScript truthiness of a string. *)
Definition truthy (s : string) : bool := negb (String.eqb s EmptyString).

(** [a || b] on strings. *)
Definition or_else (a b : string) : string := if truthy a then a else b.

(** Index of the last occurrence of a character. *)
Fixpoint lastIndexOf_go (c : ascii) (s : string) (i : nat) (acc : option nat)
  : option nat :=
  match s with
  | EmptyString => acc
  | String d r =>
      lastIndexOf_go c r (S i) (if Ascii.eqb d c then Some i else acc)
  end.
Definition lastIndexOf (c : ascii) (s : string) : option nat :=
  lastIndexOf_go c s 0 None.

(** Numbers.  A JavaScript number that is finite is a rational; the
    numbers that are only ever counts, sizes or times are kept as [nat].
    [x < y], and [n < x] for the length [n] of an array. *)
Definition num_lt (x y : Q) : bool := negb (Qle_bool y x).

Definition lt_length (n : nat) (x : Q) : bool :=
  num_lt (inject_Z (Z.of_nat n)) x.

End Js.

(** ** Node's [path] module (POSIX flavour) *)

Module NodePath.

(** Strip trailing slashes. *)
Fixpoint stripTrailingSlashes (s : string) : string :=
  match s with
  | EmptyString => EmptyString
  | String c r =>
      match stripTrailingSlashes r with
      | EmptyString => if Ascii.eqb c "/" then EmptyString else String c EmptyString
      | r' => String c r'
      end
  end.

(** [path.basename(p)]: the last non-empty portion of [p]. *)
Definition basename (p : string) : string :=
  List.last (Js.split "/" (stripTrailingSlashes p)) EmptyString.

(** [path.extname(p)]: from the last dot of the basename, unless that dot
    is the first character of the basename or the basename is [".."]. *)
Definition extname (p : string) : string :=
  let b := basename p in
  match Js.lastIndexOf "." b with
  | None => EmptyString
  | Some 0 => EmptyString
  | Some i => if String.eqb b ".." then EmptyString else Js.drop i b
  end.

(** [path.basename(p, ext)] for a path without directory part, as the
    sources call it: the suffix is removed unless it is the whole name. *)
Definition basename_ext (p ext : string) : string :=
  let b := basename p in
  if negb (Js.truthy ext) then b
  else if String.length p <? String.length ext then b
  else if String.eqb ext p then EmptyString
  else if Js.endsWith b ext && negb (String.eqb b ext)
       then Js.take (String.length b - String.length ext) b
       else b.

(** [normalizeString]: resolve [.] and [..] segments, drop empty ones. *)
Fixpoint normalizeSegments (allowAboveRoot : bool) (segs : list string)
  (stack : list string) : list string :=
  match segs with
  | [] => List.rev stack
  | seg :: rest =>
      if String.eqb seg EmptyString || String.eqb seg "." then
        normalizeSegments allowAboveRoot rest stack
      else if String.eqb seg ".." then
        match stack with
        | top :: below =>
            if String.eqb top ".." then
              normalizeSegments allowAboveRoot rest (".." :: stack)
            else normalizeSegments allowAboveRoot rest below
        | [] =>
            if allowAboveRoot then
              normalizeSegments allowAboveRoot rest [".."]
            else normalizeSegments allowAboveRoot rest []
        end
      else normalizeSegments allowAboveRoot rest (seg :: stack)
  end.

(** [path.normalize(p)] *)
Definition normalize (p : string) : string :=
  if negb (Js.truthy p) then "."
  else
    let isAbsolute := Js.startsWith p "/" in
    let trailingSeparator := Js.endsWith p "/" in
    let body :=
      Js.join "/" (normalizeSegments (negb isAbsolute) (Js.split "/" p) []) in
    if negb (Js.truthy body) then
      if isAbsolute then "/" else if trailingSeparator then "./" else "."
    else
      let body' := if trailingSeparator then body +:+ "/" else body in
      if isAbsolute then "/" +:+ body' else body'.

(** [path.join(...parts)] *)
Definition join (parts : list string) : string :=
  let nonEmpty := List.filter Js.truthy parts in
  match nonEmpty with
  | [] => "."
  | _ => normalize (Js.join "/" nonEmpty)
  end.

End NodePath.

(** ** [Buffer.from(s).toString('base64')] *)

Module Base64.

Definition alphabet : string :=
  "ABCDEFGHIJKLMNOPQRSTUVWXYZabcdefghijklmnopqrstuvwxyz0123456789+/".

Definition digit (n : nat) : ascii :=
  match String.get n alphabet with
  | Some c => c
  | None => "="%char
  end.

Fixpoint encode_bytes (fuel : nat) (bs : list nat) : string :=
  match fuel with
  | O => EmptyString
  | S fuel' =>
      match bs with
      | [] => EmptyString
      | [a] =>
          String (digit (a / 4))
            (String (digit ((a mod 4) * 16)) "==")
      | [a; b] =>
          String (digit (a / 4))
            (String (digit ((a mod 4) * 16 + b / 16))
               (String (digit ((b mod 16) * 4)) "="))
      | a :: b :: c :: rest =>
          String (digit (a / 4))
            (String (digit ((a mod 4) * 16 + b / 16))
               (String (digit ((b mod 16) * 4 + c / 64))
                  (String (digit (c mod 64)) (encode_bytes fuel' rest))))
      end
  end.

Definition encode (s : string) : string :=
  let bs := List.map nat_of_ascii (list_ascii_of_string s) in
  encode_bytes (S (List.length bs)) bs.

End Base64.

(** ** The WHATWG [URL] class *)

(** The components of a parsed URL that the sources read.  [authority] is
    the text between the scheme and the path (["//host"], with user
    information and port when present; empty for URLs without one), so
    that the serialisation [href] is the concatenation of the fields. *)
Record URL : Type := mkURL {
  protocol : string;
  authority : string;
  hostname : string;
  pathname : string;
  search : string;
  hash : string
}.

Definition href (u : URL) : string :=
  protocol u +:+ authority u +:+ pathname u +:+ search u +:+ hash u.

(** [url.hash = ''] *)
Definition clear_hash (u : URL) : URL :=
  mkURL (protocol u) (authority u) (hostname u) (pathname u) (search u) "".

(** The parser is an interface of the platform: [new_URL s] is
    [new URL(s)] and [new_URL_base s base] is [new URL(s, base)]; [None]
    stands for the [TypeError] the constructor throws. *)
Class UrlParser : Type := {
  new_URL : string -> option URL;
  new_URL_base : string -> string -> option URL
}.

(** A reference parser for URLs of the shape
    [scheme://host/path?query#fragment], written with unreserved
    characters, without port, user information, dot segments or
    characters that need escaping, and for references relative to such a
    base.  On these inputs it returns what the WHATWG parser returns; it is
    the instance the closed examples run with. *)
Module SimpleUrl.

Fixpoint span_until (stop : ascii -> bool) (s : string) : string * string :=
  match s with
  | EmptyString => (EmptyString, EmptyString)
  | String c r =>
      if stop c then (EmptyString, s)
      else let '(a, b) := span_until stop r in (String c a, b)
  end.

Definition is_colon (c : ascii) : bool := Ascii.eqb c ":".
Definition is_path_end (c : ascii) : bool := Ascii.eqb c "?" || Ascii.eqb c "#".
Definition is_auth_end (c : ascii) : bool :=
  Ascii.eqb c "/" || Ascii.eqb c "?" || Ascii.eqb c "#".
Definition is_hash (c : ascii) : bool := Ascii.eqb c "#".

Definition is_alpha (c : ascii) : bool :=
  let n := nat_of_ascii (Js.lower_ascii c) in (97 <=? n) && (n <=? 122).

Fixpoint all_alpha (s : string) : bool :=
  match s with
  | EmptyString => true
  | String c r => is_alpha c && all_alpha r
  end.

Definition special_scheme (p : string) : bool :=
  String.eqb p "http:" || String.eqb p "https:" || String.eqb p "ftp:"
  || String.eqb p "ws:" || String.eqb p "wss:".

(** Path, query and fragment of the text that follows the authority. *)
Definition split_tail (special : bool) (tail : string)
  : string * string * string :=
  let '(path, rest) := span_until is_path_end tail in
  let '(query, frag) := span_until is_hash rest in
  let path' := if special && negb (Js.truthy path) then "/" else path in
  let query' := if String.eqb query "?" then "" else query in
  let frag' := if String.eqb frag "#" then "" else frag in
  (path', query', frag').

Definition parse (s : string) : option URL :=
  let '(scheme, rest) := span_until is_colon s in
  if negb (Js.truthy scheme) || negb (all_alpha scheme) then None
  else
    match rest with
    | String ":" after =>
        let proto := Js.toLowerCase scheme +:+ ":" in
        if Js.startsWith after "//" then
          let '(auth, tail) := span_until is_auth_end (Js.drop 2 after) in
          if negb (Js.truthy auth) then None
          else
            let '(path, query, frag) :=
              split_tail (special_scheme proto) tail in
            Some (mkURL proto ("//" +:+ Js.toLowerCase auth)
                    (Js.toLowerCase auth) path query frag)
        else if special_scheme proto then None
        else
          let '(path, query, frag) := split_tail false after in
          Some (mkURL proto "" "" path query frag)
    | _ => None
    end.

(** The directory part of a path, up to and including its last slash. *)
Definition dir_of (path : string) : string :=
  match Js.lastIndexOf "/" path with
  | Some i => Js.take (S i) path
  | None => "/"
  end.

Definition parse_relative (s base : string) : option URL :=
  match parse s with
  | Some u => Some u
  | None =>
      match parse base with
      | None => None
      | Some b =>
          if negb (Js.truthy (authority b)) then None
          else if negb (Js.truthy s) then Some (clear_hash b)
          else if Js.startsWith s "//" then parse (protocol b +:+ s)
          else if Js.startsWith s "/" then
            parse (protocol b +:+ authority b +:+ s)
          else if Js.startsWith s "?" then
            parse (protocol b +:+ authority b +:+ pathname b +:+ s)
          else if Js.startsWith s "#" then
            parse (protocol b +:+ authority b +:+ pathname b +:+ search b +:+ s)
          else
            parse (protocol b +:+ authority b +:+ dir_of (pathname b) +:+ s)
      end
  end.

Definition parser : UrlParser :=
  {| new_URL := parse; new_URL_base := parse_relative |}.

End SimpleUrl.

(** ** Data model (types/index.ts) *)

Inductive ArchiveStatus : Type := IN_PROGRESS | COMPLETED | FAILED | PARTIAL.

Inductive AssetType : Type := HTML | CSS | JAVASCRIPT | IMAGE | FONT | OTHER.

Inductive ErrorType : Type :=
| NETWORK_ERROR | CONTENT_ERROR | STORAGE_ERROR
| VALIDATION_ERROR | TIMEOUT_ERROR | PERMISSION_ERROR.

Global Instance ArchiveStatus_eq_dec : EqDecision ArchiveStatus.
Proof. solve_decision. Defined.
Global Instance AssetType_eq_dec : EqDecision AssetType.
Proof. solve_decision. Defined.
Global Instance ErrorType_eq_dec : EqDecision ErrorType.
Proof. solve_decision. Defined.

Record Asset : Type := mkAsset {
  originalUrl : string;
  localPath : string;
  assetType : AssetType;
  asset_size : nat;
  contentType : string
}.

Record ArchivedPage : Type := mkPage {
  page_url : string;
  page_path : string;
  title : string;
  page_timestamp : nat;
  assets : list Asset;
  links : list string;
  htmlContent : option string
}.

Record ArchiveError : Type := mkError {
  err_timestamp : nat;
  err_type : ErrorType;
  err_message : string;
  err_url : option string;
  recoverable : bool
}.

Record Metadata : Type := mkMetadata {
  pageCount : nat;
  assetCount : nat;
  totalSize : nat;
  crawlDuration : nat
}.

Record Archive : Type := mkArchive {
  id : string;
  url : string;
  domain : string;
  timestamp : nat;
  status : ArchiveStatus;
  version : nat;
  metadata : Metadata;
  pages : list ArchivedPage;
  errors : list ArchiveError
}.

(** [maxPages] is the number the crawl loop compares the page count
    with; it need not be whole (the API accepts 1.5). *)
Record CrawlerOptions : Type := mkOptions {
  maxDepth : nat;
  maxPages : Q;
  timeout : nat;
  respectRobots : bool
}.

Record CrawlResult : Type := mkCrawlResult {
  cr_pages : list ArchivedPage;
  cr_errors : list ArchiveError;
  cr_totalSize : nat;
  cr_duration : nat
}.

(** ** url-utils.ts *)

Section UrlUtils.
Context {parser : UrlParser}.

Definition isValidUrl (urlString : string) : bool :=
  match new_URL urlString with
  | Some u => String.eqb (protocol u) "http:" || String.eqb (protocol u) "https:"
  | None => false
  end.

Definition extractDomain (urlString : string) : option string :=
  match new_URL urlString with
  | Some u => Some (hostname u)
  | None => None
  end.

(** Both branches of the source return [url.toString()] after the
    fragment has been cleared. *)
Definition normalizeUrl (urlString : string) : option string :=
  match new_URL urlString with
  | Some u =>
      let u' := clear_hash u in
      if String.eqb (pathname u') "/" && negb (Js.truthy (search u'))
      then Some (href u')
      else Some (href u')
  | None => None
  end.

Definition resolveUrl (relativeUrl baseUrl : string) : option string :=
  match new_URL_base relativeUrl baseUrl with
  | Some u => Some (href u)
  | None => None
  end.

End UrlUtils.

(** ** url-rewriter.ts *)

Record UrlRewriteOptions : Type := mkRewriteOptions {
  archiveId : string;
  baseUrl : string;
  archiveBasePath : option string
}.

Record AssetPathMapping : Type := mkMapping {
  m_originalUrl : string;
  m_localPath : string;
  m_assetType : AssetType
}.

(** The rewriter object: its options, with [archiveBasePath] defaulted by
    the constructor, and the map from original URL to mapping. *)
Record UrlRewriter : Type := mkRewriter {
  rw_archiveId : string;
  rw_baseUrl : string;
  rw_archiveBasePath : string;
  assetMappings : gmap string AssetPathMapping
}.

Definition createUrlRewriter (options : UrlRewriteOptions) : UrlRewriter :=
  mkRewriter (archiveId options) (baseUrl options)
    (default "/api/archives" (archiveBasePath options)) ∅.

Definition addAssetMapping (rw : UrlRewriter) (mapping : AssetPathMapping)
  : UrlRewriter :=
  mkRewriter (rw_archiveId rw) (rw_baseUrl rw) (rw_archiveBasePath rw)
    (<[m_originalUrl mapping := mapping]> (assetMappings rw)).

Definition addAssetMappings (rw : UrlRewriter) (mappings : list AssetPathMapping)
  : UrlRewriter :=
  List.fold_left addAssetMapping mappings rw.

Definition mem_string (x : string) (l : list string) : bool :=
  List.existsb (String.eqb x) l.

Definition imageExtensions : list string :=
  [".jpg"; ".jpeg"; ".png"; ".gif"; ".svg"; ".webp"; ".bmp"; ".ico"].
Definition fontExtensions : list string :=
  [".woff"; ".woff2"; ".ttf"; ".otf"; ".eot"].

Module Rewriter.
Section Methods.
Context {parser : UrlParser}.
Variable rw : UrlRewriter.

(** [`${archiveBasePath}/${archiveId}/content/${p}`] *)
Definition contentUrl (p : string) : string :=
rw_archiveBasePath rw +:+ "/" +:+ rw_archiveId rw +:+ "/content/" +:+ p.

Definition resolveUrl (url : string) : string :=
try_catch
  (if Js.startsWith url "http://" || Js.startsWith url "https://"
   then Ok url
   else exc_bind (of_option (new_URL_base url (rw_baseUrl rw)) "Invalid URL")
          (fun u => Ok (href u)))
  (fun _ => url).

Definition isSameDomain (url : string) : bool :=
try_catch
  (exc_bind (of_option (new_URL url) "Invalid URL") (fun urlObj =>
   exc_bind (of_option (new_URL (rw_baseUrl rw)) "Invalid URL") (fun baseUrlObj =>
   Ok (String.eqb (hostname urlObj) (hostname baseUrlObj)))))
  (fun _ => false).

Definition detectAssetType (fileName pathname : string) : AssetType :=
let ext := Js.toLowerCase (NodePath.extname fileName) in
if String.eqb ext ".css" then CSS
else if mem_string ext [".js"; ".mjs"; ".jsx"] then JAVASCRIPT
else if mem_string ext imageExtensions then IMAGE
else if mem_string ext fontExtensions then FONT
else if mem_string ext [".html"; ".htm"] then HTML
else OTHER.

Definition getAssetSubDirectory (assetType : AssetType) : string :=
match assetType with
| CSS => "css"
| JAVASCRIPT => "js"
| IMAGE => "images"
| FONT => "fonts"
| HTML => "pages"
| OTHER => "other"
end.

Definition queryHash (query : string) : string :=
Js.take 8 (Base64.encode query).

Definition generateAssetPath (url : string) : string :=
try_catch
  (exc_bind (of_option (new_URL url) "Invalid URL") (fun urlObj =>
     let path := pathname urlObj in
     let fileName := Js.or_else (NodePath.basename path) "index" in
     let assetType := detectAssetType fileName (pathname urlObj) in
     let subDir := getAssetSubDirectory assetType in
     let finalFileName :=
       if Js.truthy (search urlObj) then
         let ext := NodePath.extname fileName in
         let name := NodePath.basename_ext fileName ext in
         name +:+ "_" +:+ queryHash (search urlObj) +:+ ext
       else fileName in
     Ok (NodePath.join ["assets"; subDir; finalFileName])))
  (fun _ => "assets/other/unknown").

Definition generatePagePath (url : string) : string :=
try_catch
  (exc_bind (of_option (new_URL url) "Invalid URL") (fun urlObj =>
     let path := pathname urlObj in
     let path := if Js.startsWith path "/" then Js.drop 1 path else path in
     if String.eqb path "" || String.eqb path "/" then Ok "index.html"
     else if Js.endsWith path "/" then
       Ok (NodePath.join [path; "index.html"])
     else if negb (Js.truthy (NodePath.extname path)) then
       Ok (NodePath.join [path; "index.html"])
     else Ok path))
  (fun _ => "index.html").

Definition isSpecialUrl (url : string) : bool :=
let trimmedUrl := Js.toLowerCase (Js.trim url) in
Js.startsWith trimmedUrl "data:"
|| Js.startsWith trimmedUrl "blob:"
|| Js.startsWith trimmedUrl "javascript:"
|| Js.startsWith trimmedUrl "mailto:"
|| Js.startsWith trimmedUrl "tel:"
|| Js.startsWith trimmedUrl "#"
|| String.eqb trimmedUrl "".

(** The body of the [try] block of [rewriteUrl]. *)
Definition rewriteUrl_try (url : string) (isPageLink : bool) : Exc string :=
let resolvedUrl := resolveUrl url in
match assetMappings rw !! resolvedUrl with
| Some mapping => Ok (contentUrl (m_localPath mapping))
| None =>
    if isPageLink && isSameDomain resolvedUrl then
      Ok (contentUrl ("pages/" +:+ generatePagePath resolvedUrl))
    else if isSameDomain resolvedUrl then
      Ok (contentUrl (generateAssetPath resolvedUrl))
    else Ok url
end.

Definition rewriteUrl (url : string) (isPageLink : bool) : string :=
if negb (Js.truthy url) || String.eqb (Js.trim url) "" then url
else if isSpecialUrl url then url
else try_catch (rewriteUrl_try url isPageLink) (fun _ => url).

End Methods.
End Rewriter.

(** ** file-service.ts: naming of stored assets *)

Module FileNaming.
Section Methods.
Context {parser : UrlParser}.

(** [saveAsset] always passes an asset type, so the branch for a
    missing type, which is the one of [OTHER], is not a case of its
    own. *)
Definition getCorrectExtension (assetType : AssetType) (fileName : string)
: string :=
match assetType with
| CSS => ".css"
| JAVASCRIPT => ".js"
| IMAGE =>
    let ext := Js.toLowerCase (NodePath.extname fileName) in
    if Js.truthy fileName && mem_string ext imageExtensions then ext
    else ".png"
| FONT =>
    let ext := Js.toLowerCase (NodePath.extname fileName) in
    if Js.truthy fileName && mem_string ext fontExtensions then ext
    else ".woff"
| HTML => ".html"
| OTHER =>
    if Js.truthy fileName then Js.or_else (NodePath.extname fileName) ".bin"
    else ".bin"
end.

(** [new URL(url)] is not guarded here: an unparsable URL throws. *)
Definition generateAssetFileName (url : string) (assetType : AssetType)
: Exc string :=
exc_bind (of_option (new_URL url) "Invalid URL") (fun urlObj =>
  let path := pathname urlObj in
  let fileName := Js.or_else (NodePath.basename path) "index" in
  let correctExtension := getCorrectExtension assetType fileName in
  if Js.truthy (search urlObj) then
    let queryHash := Js.take 8 (Base64.encode (search urlObj)) in
    let name := NodePath.basename_ext fileName (NodePath.extname fileName) in
    Ok (name +:+ "_" +:+ queryHash +:+ correctExtension)
  else if String.eqb (Js.toLowerCase (NodePath.extname fileName)) correctExtension
  then Ok fileName
  else
    let name := NodePath.basename_ext fileName (NodePath.extname fileName) in
    Ok (name +:+ correctExtension)).

Definition getAssetSubDirectory (assetType : AssetType) : string :=
match assetType with
| CSS => "css"
| JAVASCRIPT => "js"
| IMAGE => "images"
| FONT => "fonts"
| _ => "other"
end.

(** The relative path [saveAsset] writes to and returns. *)
Definition assetRelativePath (originalUrl : string) (assetType : AssetType)
: Exc string :=
exc_bind (generateAssetFileName originalUrl assetType) (fun fileName =>
  Ok (NodePath.join ["assets"; getAssetSubDirectory assetType; fileName])).

End Methods.
End FileNaming.

(** ** crawler-service.ts *)

(** [String(n)] for a non-negative integer. *)
Definition string_of_nat (n : nat) : string :=
  NilZero.string_of_uint (Nat.to_uint n).

(** What an HTTP request made through axios can end in. *)
Inductive AxiosFailure : Type :=
| HttpError (status : nat) (statusText : string)
| Aborted
| NetworkFailure (message : string)
| OtherFailure (message : string).

(** What the HTML query capability (cheerio) finds in a fetched page: the
    text of the title elements and of the first heading, and the attribute
    values the selectors of the crawler match, in document order. *)
Record Dom : Type := mkDom {
  dom_html : string;
  dom_title : string;
  dom_h1 : string;
  dom_img_src : list string;
  dom_stylesheet_href : list string;
  dom_script_src : list string;
  dom_font_href : list string;
  dom_a_href : list string
}.

Inductive FetchResult : Type :=
| FetchFailed (failure : AxiosFailure)
| Fetched (dom : Dom).

Module Crawler.
Section Methods.
Context {parser : UrlParser}.

(** The network: the answer to the [n]-th request of the run, for the
  requested URL. *)
Variable fetch : nat -> string -> FetchResult.
(** The clock read by [new Date()] and [Date.now()]. *)
Variable now : nat.

Record State : Type := mkState {
visitedUrls : gset string;
crawledPages : list ArchivedPage;
c_errors : list ArchiveError;
urlQueue : list string;
currentDomain : string;
(** Ghost field: the URLs requested so far, oldest first. *)
requested : list string
}.

Definition initialize : State := mkState ∅ [] [] [] "" [].

Definition addError (st : State) (type : ErrorType) (message : string)
(url : option string) : State :=
mkState (visitedUrls st) (crawledPages st)
  (c_errors st ++
     [mkError now type message url
        (negb (bool_decide (type = VALIDATION_ERROR)))])
  (urlQueue st) (currentDomain st) (requested st).

Definition shouldSkipUrl (url : string) : bool :=
let l := Js.toLowerCase url in
List.existsb (Js.endsWith l)
  [".pdf"; ".doc"; ".docx"; ".xls"; ".xlsx"; ".ppt"; ".pptx"; ".zip";
   ".rar"; ".tar"; ".gz";
   ".mp3"; ".mp4"; ".avi"; ".mov"; ".wmv"; ".flv"; ".wav"; ".ogg";
   ".exe"; ".dmg"; ".pkg"; ".deb"; ".rpm"]
|| List.existsb (Js.includes l)
  ["/download/"; "/api/"; "/admin/"; "/wp-admin/"; "/login"; "/logout";
   "/register"; "/signup"; "/cart"; "/checkout"; "mailto:"; "tel:";
   "javascript:"]
|| Js.includes url "#".

(** The comparator of the priority sort, as a sort key: URLs without a
  query first, then shorter paths.  [new URL] cannot fail here, every
  candidate has passed [isValidUrl]. *)
Definition sortKey (u : string) : nat * nat :=
match new_URL u with
| Some o =>
    (if 0 <? String.length (search o) then 1 else 0,
     String.length (pathname o))
| None => (0, 0)
end.

Definition key_le (a b : nat * nat) : bool :=
(fst a <? fst b) || ((fst a =? fst b) && (snd a <=? snd b)).

(** [Array.prototype.sort] is stable. *)
Fixpoint insert_by_key (x : string) (l : list string) : list string :=
match l with
| [] => [x]
| y :: r =>
    if key_le (sortKey y) (sortKey x) then y :: insert_by_key x r
    else x :: l
end.

Definition sort_by_key (l : list string) : list string :=
List.fold_left (fun acc x => insert_by_key x acc) l [].

(** The loop of [extractValidUrls], with its local [seenUrls] set. *)
Fixpoint collectValidUrls (st : State) (ls : list string)
(seenUrls : gset string) (validUrls : list string) : list string :=
match ls with
| [] => validUrls
| link :: rest =>
    match normalizeUrl link with
    | None => collectValidUrls st rest seenUrls validUrls
    | Some normalizedLink =>
        if negb (Js.truthy normalizedLink) then
          collectValidUrls st rest seenUrls validUrls
        else if bool_decide (normalizedLink ∈ seenUrls) then
          collectValidUrls st rest seenUrls validUrls
        else
          let seenUrls := {[normalizedLink]} ∪ seenUrls in
          if bool_decide (normalizedLink ∈ visitedUrls st) then
            collectValidUrls st rest seenUrls validUrls
          else if negb (isValidUrl normalizedLink) then
            collectValidUrls st rest seenUrls validUrls
          else if negb (bool_decide
                          (extractDomain normalizedLink = Some (currentDomain st)))
          then collectValidUrls st rest seenUrls validUrls
          else if shouldSkipUrl normalizedLink then
            collectValidUrls st rest seenUrls validUrls
          else
            collectValidUrls st rest seenUrls (validUrls ++ [normalizedLink])
    end
end.

Definition extractValidUrls (st : State) (ls : list string)
(options : CrawlerOptions) : list string :=
List.firstn 30 (sort_by_key (collectValidUrls st ls ∅ [])).

(** The crawler's own page naming. *)
Definition generatePagePath (url : string) : string :=
try_catch
  (exc_bind (of_option (new_URL url) "Invalid URL") (fun urlObj =>
     let path := pathname urlObj in
     if String.eqb path "/" || String.eqb path "" then Ok "index.html"
     else if Js.includes path "." && negb (Js.endsWith path "/") then
       Ok (if Js.startsWith path "/" then Js.drop 1 path else path)
     else
       let path :=
         if Js.endsWith path "/" then path +:+ "index.html"
         else path +:+ "/index.html" in
       Ok (if Js.startsWith path "/" then Js.drop 1 path else path)))
  (fun _ => "page_" +:+ string_of_nat now +:+ ".html").

Definition getFileExtension (url defaultExt : string) : string :=
try_catch
  (exc_bind (of_option (new_URL url) "Invalid URL") (fun o =>
     let ext := List.last (Js.split "." (pathname o)) "" in
     Ok (if Js.truthy ext && (String.length ext <=? 4) then ext
         else defaultExt)))
  (fun _ => defaultExt).

Definition typeMap : list (string * string) :=
[("jpg", "image/jpeg"); ("jpeg", "image/jpeg"); ("png", "image/png");
 ("gif", "image/gif"); ("svg", "image/svg+xml"); ("webp", "image/webp");
 ("css", "text/css"); ("js", "application/javascript");
 ("html", "text/html"); ("htm", "text/html"); ("woff", "font/woff");
 ("woff2", "font/woff2"); ("ttf", "font/ttf"); ("otf", "font/otf")].

Definition getContentType (url defaultType : string) : string :=
let ext := Js.toLowerCase (getFileExtension url "") in
match List.find (fun kv => String.eqb (fst kv) ext) typeMap with
| Some kv => snd kv
| None => defaultType
end.

(** One of the four asset loops of [crawlPageWithHttp]; the counter
  [assetCount] of the source always equals the number of assets
  collected so far. *)
Definition collectAssets (pageUrl : string) (type : AssetType)
(mkContentType : string -> string) (srcs : list string)
(acc : list Asset) : list Asset :=
List.fold_left
  (fun acc src =>
     if Js.truthy src && (List.length acc <? 100) then
       match resolveUrl src pageUrl with
       | Some resolvedUrl =>
           if Js.truthy resolvedUrl && isValidUrl resolvedUrl then
             acc ++ [mkAsset resolvedUrl "" type 0 (mkContentType resolvedUrl)]
           else acc
       | None => acc
       end
     else acc)
  srcs acc.

Definition collectLinks (pageUrl : string) (hrefs : list string) : list string :=
List.fold_left
  (fun acc h =>
     if Js.truthy h then
       match resolveUrl h pageUrl with
       | Some resolvedUrl =>
           if Js.truthy resolvedUrl && isValidUrl resolvedUrl
           then acc ++ [resolvedUrl] else acc
       | None => acc
       end
     else acc)
  hrefs [].

Definition pageOfDom (url : string) (d : Dom) : ArchivedPage :=
let title :=
  Js.or_else (Js.trim (dom_title d))
    (Js.or_else (Js.trim (dom_h1 d)) "Untitled Page") in
let assets := collectAssets url IMAGE (fun r => getContentType r "image/jpeg")
                (dom_img_src d) [] in
let assets := collectAssets url CSS (fun _ => "text/css")
                (dom_stylesheet_href d) assets in
let assets := collectAssets url JAVASCRIPT (fun _ => "application/javascript")
                (dom_script_src d) assets in
let assets := collectAssets url FONT (fun r => getContentType r "font/woff")
                (dom_font_href d) assets in
mkPage url (generatePagePath url) title now assets
  (collectLinks url (dom_a_href d)) (Some (dom_html d)).

(** [crawlPageWithHttp]: the request is appended to the ghost trace. *)
Definition crawlPageWithHttp (st : State) (url : string) (timeout : nat)
: option ArchivedPage * State :=
let st' := mkState (visitedUrls st) (crawledPages st) (c_errors st)
             (urlQueue st) (currentDomain st) (requested st ++ [url]) in
match fetch (List.length (requested st)) url with
| Fetched d => (Some (pageOfDom url d), st')
| FetchFailed (HttpError status statusText) =>
    (None, addError st' NETWORK_ERROR
             ("HTTP " +:+ string_of_nat status +:+ ": " +:+ statusText) (Some url))
| FetchFailed Aborted =>
    (None, addError st' TIMEOUT_ERROR
             ("Request timeout after " +:+ string_of_nat timeout +:+ "ms") (Some url))
| FetchFailed (NetworkFailure m) =>
    (None, addError st' NETWORK_ERROR ("Network error: " +:+ m) (Some url))
| FetchFailed (OtherFailure m) =>
    (None, addError st' NETWORK_ERROR ("Crawl error: " +:+ m) (Some url))
end.

Definition mem_queue (x : string) (q : list string) : bool :=
bool_decide (x ∈ q).

(** One iteration of the [while] loop; [None] when the loop condition
  is false. *)
Definition loopStep (options : CrawlerOptions) (st : State) : option State :=
match urlQueue st with
| [] => None
| currentUrl :: queue' =>
    if negb (Js.lt_length (List.length (crawledPages st)) (maxPages options))
    then None
    else
      let st := mkState (visitedUrls st) (crawledPages st) (c_errors st)
                  queue' (currentDomain st) (requested st) in
      if bool_decide (currentUrl ∈ visitedUrls st) then Some st
      else
        let st := mkState ({[currentUrl]} ∪ visitedUrls st) (crawledPages st)
                    (c_errors st) (urlQueue st) (currentDomain st)
                    (requested st) in
        match crawlPageWithHttp st currentUrl (timeout options) with
        | (Some page, st) =>
            let st := mkState (visitedUrls st) (crawledPages st ++ [page])
                        (c_errors st) (urlQueue st) (currentDomain st)
                        (requested st) in
            if Js.lt_length (List.length (crawledPages st)) (maxPages options)
            then
              let newUrls := extractValidUrls st (links page) options in
              let uniqueNewUrls :=
                List.filter
                  (fun newUrl =>
                     negb (bool_decide (newUrl ∈ visitedUrls st))
                     && negb (mem_queue newUrl (urlQueue st)))
                  newUrls in
              Some (mkState (visitedUrls st) (crawledPages st) (c_errors st)
                      (urlQueue st ++ uniqueNewUrls) (currentDomain st)
                      (requested st))
            else Some st
        | (None, st) => Some st
        end
end.

(** The [while] loop; [None] when the fuel does not suffice. *)
Fixpoint crawlLoop (fuel : nat) (options : CrawlerOptions) (st : State)
: option State :=
match loopStep options st with
| None => Some st
| Some st' =>
    match fuel with
    | O => None
    | S fuel' => crawlLoop fuel' options st'
    end
end.

(** The page count at which the loop condition turns false: [maxPages]
  rounded up to a whole number, and 0 when it is negative. *)
Definition pageLimit (options : CrawlerOptions) : nat :=
Z.to_nat (Qceiling (maxPages options)).

(** Every iteration either consumes a queue entry without adding any, or
  records a page and adds at most 30 entries. *)
Definition loopMeasure (options : CrawlerOptions) (st : State) : nat :=
31 * (pageLimit options - List.length (crawledPages st))
+ List.length (urlQueue st).

Definition sumSizes (ps : list ArchivedPage) : nat :=
List.fold_left
  (fun sum page =>
     sum + List.fold_left (fun assetSum asset => assetSum + asset_size asset)
             (assets page) 0)
  ps 0.

(** [crawlSite]: the result, or the exception it rethrows, together with
  the URLs it requested.  The outer [None] is a loop that ran out of
  fuel.  This is a run that has the crawler object to itself, from
  [initialize()] to the result; the parts of a run between its [await]s
  are given further down. *)
Definition crawlSite (url : string) (options : CrawlerOptions)
: option (Exc CrawlResult * list string) :=
let st := initialize in
match normalizeUrl url with
| None => Some (Throw ("Invalid URL: " +:+ url), requested st)
| Some normalizedUrl =>
    if negb (Js.truthy normalizedUrl) then
      Some (Throw ("Invalid URL: " +:+ url), requested st)
    else
    match extractDomain normalizedUrl with
    | Some domain =>
        if Js.truthy domain then
          let st := mkState (visitedUrls st) (crawledPages st) (c_errors st)
                      (urlQueue st ++ [normalizedUrl]) domain (requested st) in
          match crawlLoop (loopMeasure options st) options st with
          | Some st =>
              Some (Ok (mkCrawlResult (crawledPages st) (c_errors st)
                          (sumSizes (crawledPages st)) (now - now)),
                    requested st)
          | None => None
          end
        else Some (Throw ("Invalid domain for URL: " +:+ url), requested st)
    | None => Some (Throw ("Invalid domain for URL: " +:+ url), requested st)
    end
end.

(** The public method [isValidUrl(url, domain)].  Neither helper throws,
  so the [catch] of the source is never entered. *)
Definition isValidUrl (url domain : string) : bool :=
if negb (isValidUrl url) then false
else bool_decide (extractDomain url = Some domain).

(** [crawlSite] is an async method, and its fields belong to the one
  crawler object that every run of the archive service uses: at each
  [await] of a run, other runs act on the same fields.  The parts of
  [crawlSite] between its [await]s follow, each acting on the crawler as
  it is when the part runs.  [initialize] is the crawler after
  [initialize()], whoever calls it. *)

(** From the return of [initialize()] to the loop. *)
Definition crawlSite_enter (st : State) (url : string) : Exc State :=
match normalizeUrl url with
| None => Throw ("Invalid URL: " +:+ url)
| Some normalizedUrl =>
    if negb (Js.truthy normalizedUrl) then Throw ("Invalid URL: " +:+ url)
    else
    match extractDomain normalizedUrl with
    | Some domain =>
        if Js.truthy domain then
          Ok (mkState (visitedUrls st) (crawledPages st) (c_errors st)
                (urlQueue st ++ [normalizedUrl]) domain (requested st))
        else Throw ("Invalid domain for URL: " +:+ url)
    | None => Throw ("Invalid domain for URL: " +:+ url)
    end
end.

(** How an iteration of the loop begins: the loop condition is false, or
  the dequeued URL is skipped, or it is requested. *)
Inductive Iteration : Type :=
| LoopEnds
| Skips (st : State)
| Requests (st : State) (currentUrl : string).

(** An iteration up to the [await] of the request. *)
Definition loopStep_begin (options : CrawlerOptions) (st : State) : Iteration :=
match urlQueue st with
| [] => LoopEnds
| currentUrl :: queue' =>
    if negb (Js.lt_length (List.length (crawledPages st)) (maxPages options))
    then LoopEnds
    else
      let st := mkState (visitedUrls st) (crawledPages st) (c_errors st)
                  queue' (currentDomain st) (requested st) in
      if bool_decide (currentUrl ∈ visitedUrls st) then Skips st
      else
        Requests
          (mkState ({[currentUrl]} ∪ visitedUrls st) (crawledPages st)
             (c_errors st) (urlQueue st) (currentDomain st) (requested st))
          currentUrl
end.

(** [crawlPageWithHttp] from the response on. *)
Definition crawlPage_response (st : State) (url : string) (timeout : nat)
(response : FetchResult) : option ArchivedPage * State :=
match response with
| Fetched d => (Some (pageOfDom url d), st)
| FetchFailed (HttpError status statusText) =>
    (None, addError st NETWORK_ERROR
             ("HTTP " +:+ string_of_nat status +:+ ": " +:+ statusText) (Some url))
| FetchFailed Aborted =>
    (None, addError st TIMEOUT_ERROR
             ("Request timeout after " +:+ string_of_nat timeout +:+ "ms") (Some url))
| FetchFailed (NetworkFailure m) =>
    (None, addError st NETWORK_ERROR ("Network error: " +:+ m) (Some url))
| FetchFailed (OtherFailure m) =>
    (None, addError st NETWORK_ERROR ("Crawl error: " +:+ m) (Some url))
end.

(** The iteration from the response on. *)
Definition loopStep_resume (options : CrawlerOptions) (st : State)
(currentUrl : string) (response : FetchResult) : State :=
match crawlPage_response st currentUrl (timeout options) response with
| (Some page, st) =>
    let st := mkState (visitedUrls st) (crawledPages st ++ [page])
                (c_errors st) (urlQueue st) (currentDomain st)
                (requested st) in
    if Js.lt_length (List.length (crawledPages st)) (maxPages options)
    then
      let newUrls := extractValidUrls st (links page) options in
      let uniqueNewUrls :=
        List.filter
          (fun newUrl =>
             negb (bool_decide (newUrl ∈ visitedUrls st))
             && negb (mem_queue newUrl (urlQueue st)))
          newUrls in
      mkState (visitedUrls st) (crawledPages st) (c_errors st)
        (urlQueue st ++ uniqueNewUrls) (currentDomain st) (requested st)
    else st
| (None, st) => st
end.

End Methods.
End Crawler.

(** ** The page path rule in the words of the design document

    "root ([/] with no query) -> [index.html]; path ending in [/] ->
    [{path}index.html]; path with no extension -> [{path}/index.html];
    otherwise the path verbatim (leading slash stripped)", the extension
    being that of the last segment of the path. *)
Definition specPagePath (path : string) : string :=
  if String.eqb path "/" then "index.html"
  else if Js.endsWith path "/" then Js.drop 1 (path +:+ "index.html")
  else if negb (Js.truthy (NodePath.extname (NodePath.basename path)))
       then Js.drop 1 (path +:+ "/index.html")
  else Js.drop 1 path.

(** The asset types the crawler assigns, by the tag a reference is found
    in. *)
Definition crawlerAssetType (t : AssetType) : bool :=
  match t with
  | IMAGE | CSS | JAVASCRIPT | FONT => true
  | _ => false
  end.

(** ** file-service.ts: the storage backend *)

(** One archive directory: its [manifest.json] ([None] when missing or
    unreadable) and the files below it, by relative path. *)
Record ArchiveDir : Type := mkDir {
  manifest : option Archive;
  files : gmap string string
}.

(** The storage tree below [baseStoragePath], one directory per archive
    id.  [faults] is the environment's schedule of file-system failures:
    each file-system call consumes its head, [Some message] makes the call
    fail with that message; an empty schedule means every call succeeds. *)
Record Storage : Type := mkStorage {
  dirs : gmap string ArchiveDir;
  faults : list (option string)
}.

Module FileService.
Section Methods.
Context {parser : UrlParser}.

Definition fs_call (st : Storage) : option string * Storage :=
match faults st with
| [] => (None, st)
| f :: rest => (f, mkStorage (dirs st) rest)
end.

Definition dir_or_new (st : Storage) (archiveId : string) : ArchiveDir :=
default (mkDir None ∅) (dirs st !! archiveId).

Definition write_file (st : Storage) (archiveId path content : string)
: Storage :=
let d := dir_or_new st archiveId in
mkStorage (<[archiveId := mkDir (manifest d) (<[path := content]> (files d))]> (dirs st))
  (faults st).

(** The [fs.mkdir] calls that follow the first one in
  [initializeArchiveStorage], one file-system call for each of [paths].
  They create directories below the archive directory, which the storage
  tree does not list by themselves; the first call that fails ends the
  sequence. *)
Fixpoint mkdirBelow (st : Storage) (paths : list string)
: option string * Storage :=
match paths with
| [] => (None, st)
| _ :: paths' =>
    let '(f, st) := fs_call st in
    match f with
    | Some message => (Some message, st)
    | None => mkdirBelow st paths'
    end
end.

(** The directories below the archive directory: [pages], [assets] and
  the five kinds of assets. *)
Definition subDirectories : list string :=
NodePath.join ["pages"] :: NodePath.join ["assets"]
:: List.map (fun subPath => NodePath.join ["assets"; subPath])
     ["css"; "js"; "images"; "fonts"; "other"].

(** Eight [fs.mkdir] calls in one [try]: the archive directory first,
  then the directories below it.  When a later call fails, the archive
  directory made by the first one stays. *)
Definition initializeArchiveStorage (st : Storage) (archiveId : string)
: Exc unit * Storage :=
let '(f, st) := fs_call st in
match f with
| Some message =>
    (Throw ("Failed to initialize archive storage: " +:+ message), st)
| None =>
    let st :=
      mkStorage (<[archiveId := dir_or_new st archiveId]> (dirs st)) (faults st) in
    let '(f, st) := mkdirBelow st subDirectories in
    match f with
    | Some message =>
        (Throw ("Failed to initialize archive storage: " +:+ message), st)
    | None => (Ok tt, st)
    end
end.

(** The path returned is given relative to the archive directory; the
  source returns it below the storage path, and its caller ignores
  it. *)
Definition saveHtml (st : Storage) (content pagePath archiveId : string)
: Exc string * Storage :=
let fullPath := NodePath.join ["pages"; pagePath] in
let '(f, st) := fs_call st in
match f with
| Some message => (Throw ("Failed to save HTML content: " +:+ message), st)
| None => (Ok fullPath, write_file st archiveId fullPath content)
end.

Definition saveAsset (st : Storage) (originalUrl content archiveId : string)
(assetType : AssetType) : Exc string * Storage :=
match FileNaming.assetRelativePath originalUrl assetType with
| Throw m => (Throw m, st)
| Ok relativePath =>
    let '(f, st) := fs_call st in
    match f with
    | Some message => (Throw ("Failed to save asset: " +:+ message), st)
    | None => (Ok relativePath, write_file st archiveId relativePath content)
    end
end.

Definition getAsset (st : Storage) (assetPath archiveId : string)
: Exc string * Storage :=
let '(f, st) := fs_call st in
match f with
| Some message => (Throw ("Failed to retrieve asset: " +:+ message), st)
| None =>
    match dirs st !! archiveId with
    | Some d =>
        (of_option (files d !! NodePath.join [assetPath])
           "Failed to retrieve asset: ENOENT", st)
    | None => (Throw "Failed to retrieve asset: ENOENT", st)
    end
end.

(** [writeFile] does not create the directory of the manifest. *)
Definition saveArchiveMetadata (st : Storage) (archive : Archive)
: Exc unit * Storage :=
let '(f, st) := fs_call st in
match f with
| Some message =>
    (Throw ("Failed to save archive metadata: " +:+ message), st)
| None =>
    match dirs st !! id archive with
    | Some d =>
        (Ok tt,
         mkStorage (<[id archive := mkDir (Some archive) (files d)]> (dirs st))
           (faults st))
    | None => (Throw "Failed to save archive metadata: ENOENT", st)
    end
end.

Definition loadArchiveMetadata (st : Storage) (archiveId : string)
: Exc Archive * Storage :=
let '(f, st) := fs_call st in
match f with
| Some message =>
    (Throw ("Failed to load archive metadata: " +:+ message), st)
| None =>
    match dirs st !! archiveId with
    | Some d =>
        (of_option (manifest d) "Failed to load archive metadata: ENOENT", st)
    | None => (Throw "Failed to load archive metadata: ENOENT", st)
    end
end.

Definition listArchives (st : Storage) : Exc (list string) * Storage :=
let '(f, st) := fs_call st in
match f with
| Some message => (Throw ("Failed to list archives: " +:+ message), st)
| None => (Ok (List.map fst (map_to_list (dirs st))), st)
end.

Definition deleteArchive (st : Storage) (archiveId : string)
: Exc unit * Storage :=
let '(f, st) := fs_call st in
match f with
| Some message => (Throw ("Failed to delete archive: " +:+ message), st)
| None => (Ok tt, mkStorage (delete archiveId (dirs st)) (faults st))
end.

Definition archiveExists (st : Storage) (archiveId : string) : bool * Storage :=
let '(f, st) := fs_call st in
match f with
| Some _ => (false, st)
| None => (bool_decide (is_Some (dirs st !! archiveId)), st)
end.

End Methods.
End FileService.

(** ** validation.ts: [createArchive] *)

(** The caller always passes an identifier drawn from [uuidv4()], which is
    never empty, so the fallback [generateArchiveId()] is not reached. *)

Definition validation_createArchive {parser : UrlParser}
  (urlString : string) (archiveId : string) (now : nat) : Exc Archive :=
  if negb (isValidUrl urlString) then Throw "Invalid URL provided"
  else
    match extractDomain urlString with
    | Some domain =>
        if Js.truthy domain then
          Ok (mkArchive archiveId urlString domain now IN_PROGRESS 1
                (mkMetadata 0 0 0 0) [] [])
        else Throw "Could not extract domain from URL"
    | None => Throw "Could not extract domain from URL"
    end.

(** ** archive-service.ts *)

(** [archive.version = v] *)
Definition set_version (archive : Archive) (v : nat) : Archive :=
  mkArchive (id archive) (url archive) (domain archive) (timestamp archive)
    (status archive) v (metadata archive) (pages archive) (errors archive).

Record PartialCrawlerOptions : Type := mkPartialOptions {
  o_maxDepth : option nat;
  o_maxPages : option Q;
  o_timeout : option nat;
  o_respectRobots : option bool
}.

(** [{ ...base, ...over }] *)
Definition mergeOptions (base : CrawlerOptions) (over : PartialCrawlerOptions)
  : CrawlerOptions :=
  mkOptions (default (maxDepth base) (o_maxDepth over))
    (default (maxPages base) (o_maxPages over))
    (default (timeout base) (o_timeout over))
    (default (respectRobots base) (o_respectRobots over)).

Definition defaultOptions : CrawlerOptions :=
  mkOptions 3 1000 (15 * 1000) true.

Record ArchiveServiceOptions : Type := mkServiceOptions {
  so_defaultCrawlerOptions : PartialCrawlerOptions;
  so_maxConcurrentArchives : option nat
}.

Record ArchiveProgress : Type := mkProgress {
  p_archiveId : string;
  p_url : string;
  p_status : ArchiveStatus;
  pagesDiscovered : nat;
  pagesCrawled : nat;
  assetsDownloaded : nat;
  p_totalSize : nat;
  p_errors : list ArchiveError;
  startTime : nat;
  currentUrl : option string
}.

(** The service object with the storage it owns.  [background] lists the
    archiving runs that were launched and have not run yet, [timers] the
    archive ids whose retirement from [activeArchives] is scheduled;
    [uuids] counts the identifiers drawn and [clock] is the current
    time. *)
Record Service : Type := mkService {
  storage : Storage;
  activeArchives : gmap string ArchiveProgress;
  maxConcurrentArchives : nat;
  defaultCrawlerOptions : CrawlerOptions;
  background : list (Archive * PartialCrawlerOptions);
  timers : list string;
  uuids : nat;
  clock : nat
}.

Inductive DownloadResult : Type :=
| DownloadFailed (failure : AxiosFailure)
| Downloaded (content : string).

(** The environment of the orchestrator. *)
Record World : Type := mkWorld {
  (** [uuidv4()], by number of the draw *)
  uuid : nat -> string;
  (** the response to the download of the [n]-th asset of a run *)
  download : nat -> string -> DownloadResult;
  (** the text scanners of [rewriteCssUrls] and [rewriteHtmlUrls], which
      apply the URL rewriting function to the references they find *)
  cssScan : (string -> string) -> string -> string;
  htmlScan : (string -> bool -> string) -> string -> string
}.

(** What the race between the crawl and the ten-minute deadline ends in:
    the last progress report the crawler made, and the crawl result or
    the exception that escaped. *)
Record CrawlOutcome : Type := mkOutcome {
  lastReport : option (nat * nat * string);
  outcome : Exc CrawlResult
}.

Definition deadlineMessage : string :=
  "Archive process timed out after 10 minutes".

Definition placeholder (originalUrl : string) : string :=
  "/* Failed to load asset: " +:+ originalUrl +:+ " */".

Fixpoint insertBy {A} (le : A -> A -> bool) (x : A) (l : list A) : list A :=
  match l with
  | [] => [x]
  | y :: r => if le y x then y :: insertBy le x r else x :: l
  end.

(** [Array.prototype.sort] with a comparator, which is stable. *)
Definition sortBy {A} (le : A -> A -> bool) (l : list A) : list A :=
  List.fold_left (fun acc x => insertBy le x acc) l [].

(** [Math.max(...l)] on a non-empty list of versions. *)
Definition maxOf (l : list nat) : nat := List.fold_right Nat.max 0 l.

(** Give the assets of a flat list back to the pages they came from: the
    asset objects of [allAssets] are the ones the pages hold. *)
Fixpoint regroup (ps : list ArchivedPage) (flat : list Asset)
  : list ArchivedPage :=
  match ps with
  | [] => []
  | p :: rest =>
      let n := List.length (assets p) in
      mkPage (page_url p) (page_path p) (title p) (page_timestamp p)
        (List.firstn n flat) (links p) (htmlContent p)
      :: regroup rest (List.skipn n flat)
  end.

Module ArchiveService.
Section Methods.
Context {parser : UrlParser}.
Variable w : World.

Definition newService (options : ArchiveServiceOptions) (st : Storage)
: Service :=
mkService st ∅
  (match so_maxConcurrentArchives options with
   | Some 0 | None => 3
   | Some n => n
   end)
  (mergeOptions defaultOptions
     (so_defaultCrawlerOptions options))
  [] [] 0 0.

Definition set_storage (s : Service) (st : Storage) : Service :=
mkService st (activeArchives s) (maxConcurrentArchives s)
  (defaultCrawlerOptions s) (background s) (timers s) (uuids s) (clock s).

Definition set_active (s : Service) (m : gmap string ArchiveProgress)
: Service :=
mkService (storage s) m (maxConcurrentArchives s)
  (defaultCrawlerOptions s) (background s) (timers s) (uuids s) (clock s).

(** The loop of [getArchives], skipping the manifests that fail to
  load. *)
Fixpoint loadAll (st : Storage) (archiveIds : list string)
(archives : list Archive) : list Archive * Storage :=
match archiveIds with
| [] => (archives, st)
| archiveId :: rest =>
    match FileService.loadArchiveMetadata st archiveId with
    | (Ok archive, st) => loadAll st rest (archives ++ [archive])
    | (Throw _, st) => loadAll st rest archives
    end
end.

Definition getArchives (st : Storage) : Exc (list Archive) * Storage :=
match FileService.listArchives st with
| (Ok archiveIds, st) =>
    let '(archives, st) := loadAll st archiveIds [] in
    (Ok (sortBy (fun a b => timestamp b <=? timestamp a) archives), st)
| (Throw message, st) =>
    (Throw ("Failed to list archives: " +:+ message), st)
end.

Definition sameNormalizedUrl (normalizedUrl : string) (archive : Archive)
: bool :=
bool_decide (normalizeUrl (url archive) = Some normalizedUrl).

Definition getArchiveVersions (st : Storage) (urlString : string)
: Exc (list Archive) * Storage :=
match normalizeUrl urlString with
| None =>
    (Throw ("Failed to get archive versions: Invalid URL: " +:+ urlString), st)
| Some normalizedUrl =>
    if negb (Js.truthy normalizedUrl) then
      (Throw ("Failed to get archive versions: Invalid URL: " +:+ urlString), st)
    else
    match getArchives st with
    | (Ok allArchives, st) =>
        let urlVersions :=
          List.filter (sameNormalizedUrl normalizedUrl) allArchives in
        (Ok (sortBy (fun a b => version b <=? version a) urlVersions), st)
    | (Throw message, st) =>
        (Throw ("Failed to get archive versions: " +:+ message), st)
    end
end.

Definition getLatestVersionNumber (st : Storage) (urlString : string)
: nat * Storage :=
match getArchiveVersions st urlString with
| (Ok versions, st) =>
    (if 0 <? List.length versions then maxOf (List.map version versions)
     else 0, st)
| (Throw _, st) => (0, st)
end.

Definition limitMessage (s : Service) : string :=
"Maximum concurrent archives limit reached ("
+:+ string_of_nat (maxConcurrentArchives s)
+:+ "). Please wait for existing archives to complete.".

Definition inProgressFor (normalizedUrl : string) (p : ArchiveProgress) : bool :=
String.eqb (p_url p) normalizedUrl
&& bool_decide (p_status p = IN_PROGRESS).

Definition createArchive (s : Service) (urlString : string)
(options : PartialCrawlerOptions) : Exc Archive * Service :=
match normalizeUrl urlString with
| None => (Throw ("Invalid URL: " +:+ urlString), s)
| Some normalizedUrl =>
    if negb (Js.truthy normalizedUrl) then
      (Throw ("Invalid URL: " +:+ urlString), s)
    else
    match extractDomain normalizedUrl with
    | None => (Throw ("Cannot extract domain from URL: " +:+ urlString), s)
    | Some domain =>
        if negb (Js.truthy domain) then
          (Throw ("Cannot extract domain from URL: " +:+ urlString), s)
        else if maxConcurrentArchives s <=? size (activeArchives s) then
          (Throw (limitMessage s), s)
        else if List.existsb (inProgressFor normalizedUrl)
                  (List.map snd (map_to_list (activeArchives s))) then
          (Throw ("Archive for " +:+ normalizedUrl +:+ " is already in progress"), s)
        else
          let '(latestVersion, st) :=
            getLatestVersionNumber (storage s) normalizedUrl in
          let s := set_storage s st in
          let nextVersion := latestVersion + 1 in
          let archiveId := uuid w (uuids s) in
          let s := mkService (storage s) (activeArchives s)
                     (maxConcurrentArchives s) (defaultCrawlerOptions s)
                     (background s) (timers s) (S (uuids s)) (clock s) in
          match validation_createArchive normalizedUrl archiveId (clock s) with
          | Throw m => (Throw m, s)
          | Ok archive =>
              let archive := set_version archive nextVersion in
              let progress :=
                mkProgress archiveId normalizedUrl IN_PROGRESS 0 0 0 0 []
                  (clock s) None in
              let s := set_active s (<[archiveId := progress]> (activeArchives s)) in
              match FileService.initializeArchiveStorage (storage s) archiveId with
              | (Throw message, st) =>
                  (Throw ("Failed to create archive: " +:+ message),
                   set_active (set_storage s st)
                     (delete archiveId (activeArchives s)))
              | (Ok _, st) =>
                  match FileService.saveArchiveMetadata st archive with
                  | (Throw message, st) =>
                      (Throw ("Failed to create archive: " +:+ message),
                       set_active (set_storage s st)
                         (delete archiveId (activeArchives s)))
                  | (Ok _, st) =>
                      (Ok archive,
                       mkService st (activeArchives s)
                         (maxConcurrentArchives s) (defaultCrawlerOptions s)
                         (background s ++ [(archive, options)]) (timers s)
                         (uuids s) (clock s))
                  end
              end
          end
    end
end.

Definition getArchive (s : Service) (archiveId : string)
: Exc Archive * Service :=
match FileService.loadArchiveMetadata (storage s) archiveId with
| (Ok a, st) => (Ok a, set_storage s st)
| (Throw message, st) =>
    (Throw ("Archive not found: " +:+ message), set_storage s st)
end.

Definition deleteMessage (archiveId : string) : string :=
"Cannot delete archive " +:+ archiveId +:+ ": archiving in progress".

Definition deleteArchive (s : Service) (archiveId : string)
: Exc unit * Service :=
if bool_decide (is_Some (activeArchives s !! archiveId)) then
  (Throw (deleteMessage archiveId), s)
else
  match FileService.deleteArchive (storage s) archiveId with
  | (Ok _, st) => (Ok tt, set_storage s st)
  | (Throw message, st) =>
      (Throw ("Failed to delete archive: " +:+ message), set_storage s st)
  end.

Definition getArchiveProgress (s : Service) (archiveId : string)
: option ArchiveProgress :=
activeArchives s !! archiveId.

(** The callback of the [setTimeout] that [performArchiving] schedules:
  one minute after the run, the entry leaves the registry. *)
Definition retire (s : Service) (archiveId : string) : Service :=
if mem_string archiveId (timers s) then
  mkService (storage s) (delete archiveId (activeArchives s))
    (maxConcurrentArchives s) (defaultCrawlerOptions s) (background s)
    (List.filter (fun t => negb (String.eqb t archiveId)) (timers s))
    (uuids s) (clock s)
else s.

(** *** The background run *)

Definition mappingsOf (l : list Asset) : list AssetPathMapping :=
List.map (fun asset =>
            mkMapping (originalUrl asset) (localPath asset) (assetType asset)) l.

Definition rewriteHtmlUrls (htmlText : string) (page : ArchivedPage)
(archiveId : string) : string :=
let rewriter :=
  addAssetMappings
    (createUrlRewriter (mkRewriteOptions archiveId (page_url page) None))
    (mappingsOf (assets page)) in
htmlScan w (Rewriter.rewriteUrl rewriter) htmlText.

Definition rewriteCssUrls (cssContent cssUrl archiveId : string)
(allAssets : list Asset) : string :=
let rewriter :=
  addAssetMappings
    (createUrlRewriter (mkRewriteOptions archiveId cssUrl None))
    (mappingsOf allAssets) in
cssScan w (fun u => Rewriter.rewriteUrl rewriter u false) cssContent.

Definition downloadAssetContent (idx : nat) (assetUrl : string) : Exc string :=
match download w idx assetUrl with
| Downloaded content => Ok content
| DownloadFailed Aborted => Throw ("Download timeout for " +:+ assetUrl)
| DownloadFailed (HttpError status statusText) =>
    Throw ("HTTP " +:+ string_of_nat status +:+ ": " +:+ statusText
           +:+ " for " +:+ assetUrl)
| DownloadFailed (NetworkFailure m) | DownloadFailed (OtherFailure m) =>
    Throw ("Network error downloading " +:+ assetUrl +:+ ": " +:+ m)
end.

Definition set_local (asset : Asset) (path : string) (sz : nat) : Asset :=
mkAsset (originalUrl asset) path (assetType asset) sz (contentType asset).

Definition push_error (p : ArchiveProgress) (e : ArchiveError)
: ArchiveProgress :=
mkProgress (p_archiveId p) (p_url p) (p_status p) (pagesDiscovered p)
  (pagesCrawled p) (assetsDownloaded p) (p_totalSize p)
  (p_errors p ++ [e]) (startTime p) (currentUrl p).

Definition downloadError (now : nat) (assetUrl message : string) : ArchiveError :=
mkError now STORAGE_ERROR
  ("Failed to download asset " +:+ assetUrl +:+ ": " +:+ message)
  (Some assetUrl) true.

(** The body of the [try] block of one download: the content is
  fetched, rewritten when it is a stylesheet, and saved. *)
Definition tryDownload (archiveId : string) (allAssets : list Asset)
(idx : nat) (asset : Asset) (st : Storage)
: Exc (string * nat) * Storage :=
match downloadAssetContent idx (originalUrl asset) with
| Throw m => (Throw m, st)
| Ok assetContent =>
    let assetContent :=
      if bool_decide (assetType asset = CSS)
         && (0 <? String.length assetContent)
      then rewriteCssUrls assetContent (originalUrl asset) archiveId allAssets
      else assetContent in
    match FileService.saveAsset st (originalUrl asset) assetContent
            archiveId (assetType asset) with
    | (Ok path, st) => (Ok (path, String.length assetContent), st)
    | (Throw m, st) => (Throw m, st)
    end
end.

(** One element of [downloadPromises].  [allAssets] is the array of
  asset objects as it is when this download runs. *)
Definition downloadAsset (now : nat) (archiveId : string)
(allAssets : list Asset) (idx : nat) (asset : Asset)
(st : Storage) (progress : ArchiveProgress)
: Asset * Storage * ArchiveProgress :=
match tryDownload archiveId allAssets idx asset st with
| (Ok (path, sz), st) =>
    (set_local asset path sz, st,
     mkProgress (p_archiveId progress) (p_url progress) (p_status progress)
       (pagesDiscovered progress) (pagesCrawled progress)
       (S (assetsDownloaded progress)) (p_totalSize progress + sz)
       (p_errors progress) (startTime progress) (currentUrl progress))
| (Throw message, st) =>
    let progress :=
      push_error progress (downloadError now (originalUrl asset) message) in
    let fallbackContent := placeholder (originalUrl asset) in
    match FileService.saveAsset st (originalUrl asset) fallbackContent
            archiveId (assetType asset) with
    | (Ok path, st) =>
        (set_local asset path (String.length fallbackContent), st, progress)
    | (Throw _, st) => (asset, st, progress)
    end
end.

(** [downloadAssets], the downloads taken in the order of the array:
  [finished] are the assets already handled, [todo] the others. *)
Fixpoint downloadAssets_go (now : nat) (archiveId : string)
(finished todo : list Asset) (st : Storage) (progress : ArchiveProgress)
: list Asset * Storage * ArchiveProgress :=
match todo with
| [] => (finished, st, progress)
| asset :: rest =>
    let '(asset', st, progress) :=
      downloadAsset now archiveId (finished ++ todo)
        (List.length finished) asset st progress in
    downloadAssets_go now archiveId (finished ++ [asset']) rest st progress
end.

Definition downloadAssets (now : nat) (archiveId : string)
(allAssets : list Asset) (st : Storage) (progress : ArchiveProgress)
: list Asset * Storage * ArchiveProgress :=
downloadAssets_go now archiveId [] allAssets st progress.

Definition fallbackPage (page : ArchivedPage) : string :=
"<!DOCTYPE html><html><head><title>" +:+ title page
+:+ "</title></head><body><h1>Page: " +:+ page_url page
+:+ "</h1><p>Content not available</p></body></html>".

Definition processPage (st : Storage) (page : ArchivedPage)
(archiveId : string) : Exc ArchivedPage * Storage :=
let htmlText :=
  match htmlContent page with
  | Some h => if Js.truthy h then h else fallbackPage page
  | None => fallbackPage page
  end in
let rewrittenHtml := rewriteHtmlUrls htmlText page archiveId in
match FileService.saveHtml st rewrittenHtml (page_path page) archiveId with
| (Ok _, st) =>
    (Ok (mkPage (page_url page) (page_path page) (title page)
           (page_timestamp page) (assets page) (links page) None), st)
| (Throw m, st) => (Throw m, st)
end.

Definition pageError (now : nat) (page : ArchivedPage) (message : string)
: ArchiveError :=
mkError now STORAGE_ERROR
  ("Failed to process page " +:+ page_url page +:+ ": " +:+ message)
  (Some (page_url page)) false.

Fixpoint processPages (now : nat) (archiveId : string)
(ps processedPages : list ArchivedPage) (st : Storage)
(progress : ArchiveProgress)
: list ArchivedPage * Storage * ArchiveProgress :=
match ps with
| [] => (processedPages, st, progress)
| page :: rest =>
    match processPage st page archiveId with
    | (Ok processedPage, st) =>
        processPages now archiveId rest (processedPages ++ [processedPage]) st
          (mkProgress (p_archiveId progress) (p_url progress)
             (p_status progress) (pagesDiscovered progress)
             (S (pagesCrawled progress)) (assetsDownloaded progress)
             (p_totalSize progress) (p_errors progress)
             (startTime progress) (currentUrl progress))
    | (Throw message, st) =>
        processPages now archiveId rest processedPages st
          (push_error progress (pageError now page message))
    end
end.

Definition set_status (p : ArchiveProgress) (st : ArchiveStatus)
: ArchiveProgress :=
mkProgress (p_archiveId p) (p_url p) st (pagesDiscovered p)
  (pagesCrawled p) (assetsDownloaded p) (p_totalSize p)
  (p_errors p) (startTime p) (currentUrl p).

Definition finalStatus (errs : list ArchiveError) : ArchiveStatus :=
if 0 <? List.length errs then PARTIAL else COMPLETED.

(** The [try] block of [performArchiving] from the point where the race
  is decided.  An exception leaves with the progress object as it was
  mutated so far. *)
Definition archivingBody (now : nat) (archive : Archive)
(crawl : Exc CrawlResult) (st : Storage) (progress : ArchiveProgress)
: Exc unit * Storage * ArchiveProgress :=
match crawl with
| Throw m => (Throw m, st, progress)
| Ok crawlResult =>
    let progress :=
      mkProgress (p_archiveId progress) (p_url progress) (p_status progress)
        (List.length (cr_pages crawlResult)) (pagesCrawled progress)
        (assetsDownloaded progress) (p_totalSize progress)
        (p_errors progress ++ cr_errors crawlResult)
        (startTime progress) (currentUrl progress) in
    let allAssets := List.concat (List.map assets (cr_pages crawlResult)) in
    let '(allAssets', st, progress) :=
      downloadAssets now (id archive) allAssets st progress in
    let '(processedPages, st, progress) :=
      processPages now (id archive) (regroup (cr_pages crawlResult) allAssets')
        [] st progress in
    let finalArchive :=
      mkArchive (id archive) (url archive) (domain archive)
        (timestamp archive) (finalStatus (p_errors progress))
        (version archive)
        (mkMetadata (List.length processedPages) (List.length allAssets')
           (p_totalSize progress) (cr_duration crawlResult))
        processedPages (p_errors progress) in
    match FileService.saveArchiveMetadata st finalArchive with
    | (Ok _, st) => (Ok tt, st, set_status progress (status finalArchive))
    | (Throw m, st) => (Throw m, st, progress)
    end
end.

Definition isTimeout (message : string) : bool :=
Js.includes message "timeout" || Js.includes message "timed out".

Definition failureError (now : nat) (message : string) : ArchiveError :=
mkError now
  (if isTimeout message then TIMEOUT_ERROR else NETWORK_ERROR)
  (if isTimeout message
   then "Archive partially completed due to timeout: " +:+ message
   else "Archive failed: " +:+ message)
  None false.

(** The [catch] block of [performArchiving]; a failure to save the
  manifest is only logged. *)
Definition archivingFailed (now : nat) (archive : Archive) (message : string)
(st : Storage) (progress : ArchiveProgress) : Storage * ArchiveProgress :=
let progress :=
  set_status progress (if isTimeout message then PARTIAL else FAILED) in
let progress := push_error progress (failureError now message) in
let finalArchive :=
  mkArchive (id archive) (url archive) (domain archive)
    (timestamp archive) (p_status progress) (version archive)
    (mkMetadata (pagesCrawled progress) (assetsDownloaded progress)
       (p_totalSize progress) (now - startTime progress))
    (pages archive) (p_errors progress) in
match FileService.saveArchiveMetadata st finalArchive with
| (_, st) => (st, progress)
end.

Definition report (progress : ArchiveProgress)
(r : option (nat * nat * string)) : ArchiveProgress :=
match r with
| Some (pagesFound, crawled, current) =>
    mkProgress (p_archiveId progress) (p_url progress) (p_status progress)
      pagesFound crawled (assetsDownloaded progress) (p_totalSize progress)
      (p_errors progress) (startTime progress) (Some current)
| None => progress
end.

(** [performArchiving] once the crawl has ended in [oc].  Without a
  progress entry the method throws before its [try]; otherwise the
  progress object is updated, the manifest written, and the retirement
  of the entry scheduled. *)
Definition finishArchiving (s : Service) (archive : Archive)
(oc : CrawlOutcome) : Service :=
match activeArchives s !! id archive with
| None => s
| Some progress =>
    let progress := report progress (lastReport oc) in
    let '(st, progress) :=
      match archivingBody (clock s) archive (outcome oc) (storage s) progress with
      | (Ok _, st, progress) => (st, progress)
      | (Throw message, st, progress) =>
          archivingFailed (clock s) archive message st progress
      end in
    mkService st (<[id archive := progress]> (activeArchives s))
      (maxConcurrentArchives s) (defaultCrawlerOptions s)
      (List.filter (fun t => negb (String.eqb (id (fst t)) (id archive)))
         (background s))
      (timers s ++ [id archive]) (uuids s) (clock s)
end.

(** The crawler service is a dependency of the orchestrator: [crawl] is
  its [crawlSite] raced against the deadline. *)
Definition performArchiving (crawl : string -> CrawlerOptions -> CrawlOutcome)
(s : Service) (archive : Archive) (options : PartialCrawlerOptions)
: Service :=
finishArchiving s archive
  (crawl (url archive) (mergeOptions (defaultCrawlerOptions s) options)).

(** The race of [performArchiving] with the crawler of this repository:
  either the deadline fires first, or [crawlSite] settles.  [None]
  is a crawl loop out of fuel. *)
Definition raceCrawl (fetch : nat -> string -> FetchResult) (now : nat)
(deadlineFirst : bool) (startUrl : string) (options : CrawlerOptions)
: option CrawlOutcome :=
if deadlineFirst then Some (mkOutcome None (Throw deadlineMessage))
else
  match Crawler.crawlSite fetch now startUrl options with
  | Some (r, _) => Some (mkOutcome None r)
  | None => None
  end.

(** *** Listings *)

(** The grouping loop of [getArchivesByUrl]: the object used as a map
  from normalized URL to the archives of that URL, in the order of the
  listing. *)
Definition groupByUrl (allArchives : list Archive)
: gmap string (list Archive) :=
List.fold_left
  (fun groupedArchives archive =>
     match normalizeUrl (url archive) with
     | Some normalizedUrl =>
         if negb (Js.truthy normalizedUrl) then groupedArchives
         else
           <[normalizedUrl :=
               default [] (groupedArchives !! normalizedUrl) ++ [archive]]>
             groupedArchives
     | None => groupedArchives
     end)
  allArchives ∅.

Definition getArchivesByUrl (st : Storage)
: Exc (gmap string (list Archive)) * Storage :=
match getArchives st with
| (Ok allArchives, st) =>
    (Ok (sortBy (fun a b => version b <=? version a) <$> groupByUrl allArchives),
     st)
| (Throw message, st) =>
    (Throw ("Failed to group archives by URL: " +:+ message), st)
end.

Definition getActiveArchives (s : Service) : list ArchiveProgress :=
List.map snd (map_to_list (activeArchives s)).

Definition archiveExists (s : Service) (archiveId : string) : bool * Service :=
let '(b, st) := FileService.archiveExists (storage s) archiveId in
(b, set_storage s st).

(** [createArchive] is an async function: at each [await] control goes
    back to the event loop, and other calls run before it resumes.  Its
    first [await] is the call of [getLatestVersionNumber].  What comes
    before it are the checks, which read the registry and change nothing;
    what comes after it draws the identifier and registers the progress
    entry, without reading the registry again.  The two parts, with the
    version number passed from one to the other: *)

Definition createArchive_checks (s : Service) (urlString : string)
: Exc string :=
match normalizeUrl urlString with
| None => Throw ("Invalid URL: " +:+ urlString)
| Some normalizedUrl =>
    if negb (Js.truthy normalizedUrl) then
      Throw ("Invalid URL: " +:+ urlString)
    else
    match extractDomain normalizedUrl with
    | None => Throw ("Cannot extract domain from URL: " +:+ urlString)
    | Some domain =>
        if negb (Js.truthy domain) then
          Throw ("Cannot extract domain from URL: " +:+ urlString)
        else if maxConcurrentArchives s <=? size (activeArchives s) then
          Throw (limitMessage s)
        else if List.existsb (inProgressFor normalizedUrl)
                  (List.map snd (map_to_list (activeArchives s))) then
          Throw ("Archive for " +:+ normalizedUrl +:+ " is already in progress")
        else Ok normalizedUrl
    end
end.

Definition createArchive_register (s : Service) (normalizedUrl : string)
(latestVersion : nat) (options : PartialCrawlerOptions)
: Exc Archive * Service :=
let nextVersion := latestVersion + 1 in
let archiveId := uuid w (uuids s) in
let s := mkService (storage s) (activeArchives s)
           (maxConcurrentArchives s) (defaultCrawlerOptions s)
           (background s) (timers s) (S (uuids s)) (clock s) in
match validation_createArchive normalizedUrl archiveId (clock s) with
| Throw m => (Throw m, s)
| Ok archive =>
    let archive := set_version archive nextVersion in
    let progress :=
      mkProgress archiveId normalizedUrl IN_PROGRESS 0 0 0 0 []
        (clock s) None in
    let s := set_active s (<[archiveId := progress]> (activeArchives s)) in
    match FileService.initializeArchiveStorage (storage s) archiveId with
    | (Throw message, st) =>
        (Throw ("Failed to create archive: " +:+ message),
         set_active (set_storage s st)
           (delete archiveId (activeArchives s)))
    | (Ok _, st) =>
        match FileService.saveArchiveMetadata st archive with
        | (Throw message, st) =>
            (Throw ("Failed to create archive: " +:+ message),
             set_active (set_storage s st)
               (delete archiveId (activeArchives s)))
        | (Ok _, st) =>
            (Ok archive,
             mkService st (activeArchives s)
               (maxConcurrentArchives s) (defaultCrawlerOptions s)
               (background s ++ [(archive, options)]) (timers s)
               (uuids s) (clock s))
        end
    end
end.

End Methods.
End ArchiveService.


(** ** Notions the properties are stated with *)

(** An archive id that names one entry of the storage directory: not
    empty, not [.] or [..], and without a path separator (a slash, or
    the backslash, character 92).  For such an id
    [path.join(baseStoragePath, id)] is the entry [id], which is how the
    storage tree is keyed, and different ids are different entries; the
    identifiers the service draws are of this kind. *)
Definition plainName (archiveId : string) : bool :=
  Js.truthy archiveId
  && negb (String.eqb archiveId ".") && negb (String.eqb archiveId "..")
  && negb (Js.includes archiveId "/")
  && negb (Js.includes archiveId (String (ascii_of_nat 92) EmptyString)).

(** The number of archives whose progress entry says [IN_PROGRESS]. *)
Definition inProgressCount (s : Service) : nat :=
  size (filter (fun kv => p_status kv.2 = IN_PROGRESS) (activeArchives s)).

(** The archives whose manifest can be loaded from storage. *)
Definition storedArchives (st : Storage) : list Archive :=
  omap (fun kv => manifest kv.2) (map_to_list (dirs st)).

(** The versions stored for a normalized URL. *)
Definition storedVersions {parser : UrlParser} (st : Storage)
  (normalizedUrl : string) : list nat :=
  List.map version
    (List.filter (ArchiveService.sameNormalizedUrl normalizedUrl)
       (storedArchives st)).

Definition terminal (st : ArchiveStatus) : bool :=
  match st with
  | IN_PROGRESS => false
  | _ => true
  end.

(** ** A small site and an environment for the closed examples *)

Definition example_rewriter : UrlRewriter :=
  addAssetMapping
    (createUrlRewriter (mkRewriteOptions "a1" "https://example.com" None))
    (mkMapping "https://example.com/style.css" "assets/css/custom.css" CSS).

(** A site of two pages that link to each other; the home page refers to
    a logo and a stylesheet. *)
Definition example_site (n : nat) (u : string) : FetchResult :=
  if String.eqb u "https://example.com/" then
    Fetched (mkDom "<html>home</html>" "Home" "" ["/logo.png"] ["/style.css"]
               [] [] ["/about"; "/"; "https://other.com/x"])
  else if String.eqb u "https://example.com/about" then
    Fetched (mkDom "<html>about</html>" "About" "" [] ["/style.css"] [] []
               ["/"; "/about"])
  else FetchFailed (HttpError 404 "Not Found").

(** Identifiers [id0], [id1], ...; the logo cannot be downloaded; the
    scanners leave the text as it is. *)
Definition example_world : World :=
  mkWorld (fun n => "id" +:+ string_of_nat n)
    (fun _ u =>
       if String.eqb u "https://example.com/logo.png"
       then DownloadFailed (NetworkFailure "ECONNRESET")
       else Downloaded "body{}")
    (fun _ css => css) (fun _ html => html).

Definition no_options : PartialCrawlerOptions :=
  mkPartialOptions None None None None.

Definition example_service : Service :=
  ArchiveService.newService
    (mkServiceOptions (mkPartialOptions None (Some 10%Q) None None) None)
    (mkStorage ∅ []).

(** The crawler of the repository on the example site, the deadline not
    reached. *)
Definition example_crawl (startUrl : string) (options : CrawlerOptions)
  : CrawlOutcome :=
  default (mkOutcome None (Throw "crawl loop out of fuel"))
    (@ArchiveService.raceCrawl SimpleUrl.parser example_site 0 false startUrl options).

(** Create an archive of the example site and let its background run
    finish; the entry stays in the registry until its timer fires. *)
Definition archive_once (s : Service) : option Archive * Service :=
  match @ArchiveService.createArchive SimpleUrl.parser example_world s
          "https://example.com" no_options with
  | (Ok a, s) =>
      (Some a,
       @ArchiveService.performArchiving SimpleUrl.parser example_world
         example_crawl s a no_options)
  | (Throw _, s) => (None, s)
  end.

Definition archive_and_retire (s : Service) : option Archive * Service :=
  match archive_once s with
  | (Some a, s) => (Some a, ArchiveService.retire s (id a))
  | r => r
  end.

(** Two archives in progress under a cap of two. *)
Definition full_service : Service :=
  mkService (mkStorage ∅ [])
    (<["id0" := mkProgress "id0" "https://example1.com/" IN_PROGRESS 0 0 0 0 [] 0 None]>
       (<["id1" := mkProgress "id1" "https://example2.com/" IN_PROGRESS 0 0 0 0 [] 0 None]> ∅))
    2 defaultOptions [] [] 2 0.

(** The example service right after [createArchive], the background run
    not started yet. *)
Definition created_service : Exc Archive * Service :=
  @ArchiveService.createArchive SimpleUrl.parser example_world example_service
    "https://example.com" no_options.

Definition created_archive : Archive :=
  mkArchive "id0" "https://example.com/" "example.com" 0 IN_PROGRESS 1
    (mkMetadata 0 0 0 0) [] [].

(** The example site archived twice, each run finished and retired: the
    storage holds versions 1 ([id0]) and 2 ([id1]). *)
Definition archived_once : Service := snd (archive_and_retire example_service).
Definition archived_twice : Service := snd (archive_and_retire archived_once).

(** A file is present, under a relative path, in the directory of an
    archive. *)
Definition stored (st : Storage) (archiveId path : string) : Prop :=
  exists d, dirs st !! archiveId = Some d /\ is_Some (files d !! path).

(** The storage [st'] was reached from [st] by successful writes below the
    directory of an archive: the schedule of faults is still empty, the
    directory is still there and so is every file of it. *)
Definition extends (archiveId : string) (st st' : Storage) : Prop :=
  faults st' = []
  /\ (is_Some (dirs st !! archiveId) -> is_Some (dirs st' !! archiveId))
  /\ forall path, stored st archiveId path -> stored st' archiveId path.

(** A page as it is recorded in the manifest, without its markup. *)
Definition withoutHtml (page : ArchivedPage) : ArchivedPage :=
  mkPage (page_url page) (page_path page) (title page) (page_timestamp page)
    (assets page) (links page) None.

(** The message [downloadAssetContent] throws for a failed request. *)
Definition downloadFailureMessage (assetUrl : string) (failure : AxiosFailure)
  : string :=
  match failure with
  | Aborted => "Download timeout for " +:+ assetUrl
  | HttpError status statusText =>
      "HTTP " +:+ string_of_nat status +:+ ": " +:+ statusText
      +:+ " for " +:+ assetUrl
  | NetworkFailure m | OtherFailure m =>
      "Network error downloading " +:+ assetUrl +:+ ": " +:+ m
  end.

(** What the crawler returns for the example site. *)
Definition example_result : CrawlResult :=
  match outcome (example_crawl "https://example.com/"
                   (mergeOptions (defaultCrawlerOptions example_service)
                      no_options)) with
  | Ok r => r
  | Throw _ => mkCrawlResult [] [] 0 0
  end.

Definition logo_asset : Asset :=
  mkAsset "https://example.com/logo.png" "" IMAGE 0 "image/png".

(** ** url-utils.ts: domains *)

Section UrlUtilsDomains.
Context {parser : UrlParser}.

Definition isSameDomain (url1 url2 : string) : bool :=
  match extractDomain url1, extractDomain url2 with
  | Some domain1, Some domain2 =>
      if negb (Js.truthy domain1) || negb (Js.truthy domain2) then false
      else String.eqb domain1 domain2
  | _, _ => false
  end.

Definition isValidUrlForDomain (targetUrl baseDomain : string) : bool :=
  if negb (isValidUrl targetUrl) then false
  else bool_decide (extractDomain targetUrl = Some baseDomain).

End UrlUtilsDomains.

(** ** validation.ts: the validators

    The validators take [any]; here they are applied to values of the
    declared types, for which the [typeof], [instanceof], [Array.isArray]
    and enum-membership tests succeed and a number is never negative.  The
    remaining tests are the ones below, in the order of the source. *)

Section Validators.
Context {parser : UrlParser}.

Definition validateAsset (asset : Asset) : list string :=
  (if negb (Js.truthy (originalUrl asset))
   then ["Asset originalUrl must be a non-empty string"]
   else if negb (isValidUrl (originalUrl asset))
        then ["Asset originalUrl must be a valid HTTP/HTTPS URL"]
        else [])
  ++ (if negb (Js.truthy (localPath asset))
      then ["Asset localPath must be a non-empty string"] else [])
  ++ (if negb (Js.truthy (contentType asset))
      then ["Asset contentType must be a non-empty string"] else []).

Definition validateArchivedPage (page : ArchivedPage) : list string :=
  (if negb (Js.truthy (page_url page))
   then ["ArchivedPage URL must be a non-empty string"]
   else if negb (isValidUrl (page_url page))
        then ["ArchivedPage URL must be a valid HTTP/HTTPS URL"]
        else [])
  ++ (if negb (Js.truthy (page_path page))
      then ["ArchivedPage path must be a non-empty string"] else [])
  ++ (if negb (Js.truthy (title page))
      then ["ArchivedPage title must be a non-empty string"] else [])
  ++ List.concat
       (imap (fun index asset =>
                List.map (fun error =>
                            "Asset " +:+ string_of_nat index +:+ ": " +:+ error)
                  (validateAsset asset))
          (assets page))
  ++ List.concat
       (imap (fun index link =>
                if negb (isValidUrl link)
                then ["Link " +:+ string_of_nat index +:+ ": must be a valid URL"]
                else [])
          (links page)).

Definition validateArchive (archive : Archive) : list string :=
  (if negb (Js.truthy (id archive))
   then ["Archive ID must be a non-empty string"] else [])
  ++ (if negb (Js.truthy (url archive))
      then ["Archive URL must be a non-empty string"]
      else if negb (isValidUrl (url archive))
           then ["Archive URL must be a valid HTTP/HTTPS URL"]
           else [])
  ++ (if negb (Js.truthy (domain archive))
      then ["Archive domain must be a non-empty string"]
      else if Js.truthy (url archive)
              && negb (bool_decide
                         (extractDomain (url archive) = Some (domain archive)))
           then ["Archive domain must match the URL domain"]
           else [])
  ++ (if version archive <? 1
      then ["Archive version must be a positive number"] else [])
  ++ List.concat
       (imap (fun index page =>
                List.map (fun error =>
                            "Page " +:+ string_of_nat index +:+ ": " +:+ error)
                  (validateArchivedPage page))
          (pages archive)).

End Validators.

(** ** The orchestrator as a transition system

    The calls that change the service: a client creates or deletes an
    archive, a background run finishes, a retirement timer fires.  Each
    step is one call run to its end: the steps of two calls are not
    interleaved at their [await]s. *)

Inductive serviceStep {parser : UrlParser} (w : World) : Service -> Service -> Prop :=
| step_create (s : Service) (urlString : string) (options : PartialCrawlerOptions) :
    serviceStep w s (snd (ArchiveService.createArchive w s urlString options))
| step_finish (s : Service) (archive : Archive) (oc : CrawlOutcome) :
    serviceStep w s (ArchiveService.finishArchiving w s archive oc)
| step_retire (s : Service) (archiveId : string) :
    serviceStep w s (ArchiveService.retire s archiveId)
| step_delete (s : Service) (archiveId : string) :
    serviceStep w s (snd (ArchiveService.deleteArchive s archiveId)).

(** The states a service constructed with [options] can be in when its
    calls do not overlap. *)
Inductive reachable {parser : UrlParser} (w : World)
  (options : ArchiveServiceOptions) (st : Storage) : Service -> Prop :=
| reach_new : reachable w options st (ArchiveService.newService options st)
| reach_step (s s' : Service) :
    reachable w options st s -> serviceStep w s s' -> reachable w options st s'.

(** ** Notions for the crawler *)

(** The order the comparator of [extractValidUrls] puts URLs in: those
    without a query string first, then by the length of the path. *)
Definition before {parser : UrlParser} (a b : string) : Prop :=
  Crawler.key_le (Crawler.sortKey a) (Crawler.sortKey b) = true.

(** ** routes/archives.ts: [POST /api/archives]

    The request body as the handler reads it: [url] and [options], each
    possibly absent.  The fields are taken at their declared types (a
    string, numbers, a boolean), so the [typeof] tests of the handler
    succeed.  [maxPages], which the crawl loop compares the page count
    with, is any finite number; [maxDepth] and [timeout], which the code
    only passes on, are taken whole. *)

Record RawOptions : Type := mkRawOptions {
  raw_maxDepth : option nat;
  raw_maxPages : option Q;
  raw_timeout : option nat;
  raw_respectRobots : option bool
}.

Record PostBody : Type := mkPostBody {
  body_url : option string;
  body_options : option RawOptions
}.

(** The status of the response, the [code] of an error response (empty on
    success) and the archive of a success response. *)
Record Response : Type := mkResponse {
  res_status : nat;
  res_code : string;
  res_data : option Archive
}.

Module Router.
Section Handlers.
Context {parser : UrlParser}.
Variable w : World.

(** The characters the sanitizer removes: the angle brackets and the
  two quote characters. *)
Definition forbidden (c : ascii) : bool :=
let n := nat_of_ascii c in
(n =? 60) || (n =? 62) || (n =? 39) || (n =? 34).

Fixpoint removeForbidden (s : string) : string :=
match s with
| EmptyString => EmptyString
| String c r =>
    if forbidden c then removeForbidden r else String c (removeForbidden r)
end.

Definition sanitizeUrl (url : string) : string :=
removeForbidden (Js.trim url).

Definition isValidUrl (url : string) : bool :=
match new_URL url with
| Some urlObj =>
    mem_string (protocol urlObj) ["http:"; "https:"]
| None => false
end.

(** The validation of [options]: the code of the first violation, or
  the options to pass on, which hold the fields that were given. *)
Definition validateOptions (options : RawOptions)
: string + PartialCrawlerOptions :=
if match raw_maxDepth options with
   | Some maxDepth => (maxDepth <? 1) || (10 <? maxDepth)
   | None => false
   end
then inl "INVALID_MAX_DEPTH"
else if match raw_maxPages options with
        | Some maxPages => Js.num_lt maxPages 1 || Js.num_lt 1000 maxPages
        | None => false
        end
then inl "INVALID_MAX_PAGES"
else if match raw_timeout options with
        | Some timeout => (timeout <? 1000) || (120 * 1000 <? timeout)
        | None => false
        end
then inl "INVALID_TIMEOUT"
else inr (mkPartialOptions (raw_maxDepth options) (raw_maxPages options)
            (raw_timeout options) (raw_respectRobots options)).

(** The [catch] block of the handler. *)
Definition createFailed (message : string) : Response :=
if Js.includes message "Invalid URL" then mkResponse 400 "INVALID_URL" None
else if Js.includes message "Maximum concurrent archives"
     then mkResponse 429 "TOO_MANY_CONCURRENT_ARCHIVES" None
else if Js.includes message "already in progress"
     then mkResponse 409 "ARCHIVE_IN_PROGRESS" None
else mkResponse 500 "INTERNAL_ERROR" None.

Definition postArchive (s : Service) (body : PostBody) : Response * Service :=
match body_url body with
| None => (mkResponse 400 "MISSING_URL" None, s)
| Some url =>
    if negb (Js.truthy url) then (mkResponse 400 "MISSING_URL" None, s)
    else
      let sanitizedUrl := sanitizeUrl url in
      if negb (isValidUrl sanitizedUrl)
      then (mkResponse 400 "INVALID_URL_FORMAT" None, s)
      else
        let checked :=
          match body_options body with
          | Some options => validateOptions options
          | None => inr (mkPartialOptions None None None None)
          end in
        match checked with
        | inl code => (mkResponse 400 code None, s)
        | inr crawlerOptions =>
            match ArchiveService.createArchive w s sanitizedUrl crawlerOptions with
            | (Ok archive, s) => (mkResponse 201 "" (Some archive), s)
            | (Throw message, s) => (createFailed message, s)
            end
        end
end.

End Handlers.
End Router.

(** * Checks of the platform models on the cases of the test suites *)

Example startsWith_ex : Js.startsWith "https://a" "https://" = true.
Proof. reflexivity. Qed.
Example trim_ex : Js.trim "  a b  " = "a b".
Proof. reflexivity. Qed.
Example basename_ex1 : NodePath.basename "/styles/main.css" = "main.css".
Proof. reflexivity. Qed.
Example basename_ex2 : NodePath.basename "/" = "".
Proof. reflexivity. Qed.
Example extname_ex1 : NodePath.extname "v1.2/docs" = "".
Proof. reflexivity. Qed.
Example extname_ex2 : NodePath.extname ".well-known" = "".
Proof. reflexivity. Qed.
Example extname_ex3 : NodePath.extname "a.tar.gz" = ".gz".
Proof. reflexivity. Qed.
Example join_ex1 : NodePath.join ["assets"; "css"; "main.css"] = "assets/css/main.css".
Proof. reflexivity. Qed.
Example join_ex2 : NodePath.join ["about/"; "index.html"] = "about/index.html".
Proof. reflexivity. Qed.
Example base64_ex : Base64.encode "?v=123" = "P3Y9MTIz".
Proof. reflexivity. Qed.
Example base64_ex2 : Base64.encode "?v=1" = "P3Y9MQ==".
Proof. reflexivity. Qed.
Example parse_ex1 :
  SimpleUrl.parse "https://example.com/styles/main.css?v=1#top"
  = Some (mkURL "https:" "//example.com" "example.com" "/styles/main.css" "?v=1" "#top").
Proof. reflexivity. Qed.
Example parse_ex2 :
  option_map href (SimpleUrl.parse "https://example.com") = Some "https://example.com/".
Proof. reflexivity. Qed.
Example parse_ex3 : SimpleUrl.parse "not-a-url" = None.
Proof. reflexivity. Qed.
Example parse_ex4 :
  option_map href (SimpleUrl.parse_relative "/images/logo.png" "https://example.com/a/b")
  = Some "https://example.com/images/logo.png".
Proof. reflexivity. Qed.
Example parse_ex5 :
  option_map href (SimpleUrl.parse_relative "not-a-valid-url" "https://example.com")
  = Some "https://example.com/not-a-valid-url".
Proof. reflexivity. Qed.
Example parse_ex6 :
  option_map hostname (SimpleUrl.parse "mailto:test@example.com") = Some "".
Proof. reflexivity. Qed.

Section RewriterExamples.
Local Existing Instance SimpleUrl.parser.
Let rw := createUrlRewriter (mkRewriteOptions "a1" "https://example.com" None).

Example rewrite_ex1 :
  Rewriter.rewriteUrl rw "https://example.com/images/logo.png" false
  = "/api/archives/a1/content/assets/images/logo.png".
Proof. vm_compute. reflexivity. Qed.
Example rewrite_ex2 :
  Rewriter.rewriteUrl rw "https://example.com/about" true
  = "/api/archives/a1/content/pages/about/index.html".
Proof. vm_compute. reflexivity. Qed.
Example rewrite_ex3 :
  Rewriter.rewriteUrl rw "https://external.com/image.jpg" false
  = "https://external.com/image.jpg".
Proof. vm_compute. reflexivity. Qed.
Example rewrite_ex4 :
  Rewriter.generateAssetPath "https://example.com/image.jpg?v=123"
  = "assets/images/image_P3Y9MTIz.jpg".
Proof. vm_compute. reflexivity. Qed.
Example rewrite_ex5 :
  Rewriter.generateAssetPath "https://example.com/api/data" = "assets/other/data".
Proof. vm_compute. reflexivity. Qed.
Example rewrite_ex6 :
  Rewriter.rewriteUrl
    (addAssetMapping rw (mkMapping "https://example.com/style.css" "assets/css/custom.css" CSS))
    "/style.css" true
  = "/api/archives/a1/content/assets/css/custom.css".
Proof. vm_compute. reflexivity. Qed.
Example naming_ex1 :
  FileNaming.assetRelativePath "https://example.com/image.jpg?v=123" IMAGE
  = Ok "assets/images/image_P3Y9MTIz.jpg".
Proof. vm_compute. reflexivity. Qed.
Example naming_ex2 :
  FileNaming.assetRelativePath "https://example.com/logo" IMAGE
  = Ok "assets/images/logo.png".
Proof. vm_compute. reflexivity. Qed.
End RewriterExamples.

(** * Properties of the reference rewriter *)

Section StringFacts.

Lemma prefix_split (p s : string) :
  String.prefix p s = true -> exists r, s = p +:+ r.
Proof.
  revert s. induction p as [|c p IH]; intros s H.
  - exists s. reflexivity.
  - destruct s as [|d s]; [discriminate|].
    cbn in H. destruct (ascii_dec c d) as [->|]; [|discriminate].
    destruct (IH s H) as [r ->]. exists r. reflexivity.
Qed.

Lemma trim_head (c : ascii) (r : string) :
  Js.is_ws c = false -> exists r', Js.trim (String c r) = String c r'.
Proof.
  intros Hc. unfold Js.trim. cbn [Js.trimStart]. rewrite Hc.
  cbn [Js.trimEnd]. destruct (Js.trimEnd r) as [|d r'].
  - rewrite Hc. eauto.
  - eauto.
Qed.

Lemma eqb_string_refl (s : string) : String.eqb s s = true.
Proof. apply String.eqb_refl. Qed.

Lemma mem_string_In (x : string) (l : list string) :
  mem_string x l = true -> In x l.
Proof.
  unfold mem_string. intros H. apply List.existsb_exists in H.
  destruct H as (y & Hy & He). apply String.eqb_eq in He. subst. exact Hy.
Qed.

End StringFacts.

Section RewriterFacts.
Context {parser : UrlParser}.
Variable rw : UrlRewriter.

(** A reference spelt as an absolute http or https URL is neither empty
    nor special, and resolves to itself. *)
Lemma http_url_rewritable (u : string) :
  Js.startsWith u "http://" = true \/ Js.startsWith u "https://" = true ->
  Js.truthy u = true
  /\ String.eqb (Js.trim u) "" = false
  /\ Rewriter.isSpecialUrl u = false
  /\ Rewriter.resolveUrl rw u = u.
Proof.
  intros H.
  assert (Hh : exists r, u = String "h" r).
  { destruct H as [H|H]; apply prefix_split in H as [r ->]; eexists; reflexivity. }
  destruct Hh as [r Hr].
  assert (Hres : Rewriter.resolveUrl rw u = u).
  { unfold Rewriter.resolveUrl.
    destruct H as [H|H]; rewrite H; rewrite ?orb_true_r; reflexivity. }
  subst u.
  destruct (trim_head "h" r eq_refl) as [r' Ht].
  repeat split.
  - rewrite Ht. reflexivity.
  - unfold Rewriter.isSpecialUrl. rewrite Ht. reflexivity.
  - exact Hres.
Qed.

(** A reference that is not special is neither empty nor blank. *)
Lemma not_special_not_blank (u : string) :
  Rewriter.isSpecialUrl u = false ->
  Js.truthy u = true /\ String.eqb (Js.trim u) "" = false.
Proof.
  unfold Rewriter.isSpecialUrl. intros H.
  repeat (apply orb_false_iff in H; destruct H as [H ?]).
  assert (Ht : Js.trim u <> "").
  { intros He. rewrite He in *. discriminate. }
  split.
  - destruct u; [exfalso; apply Ht; reflexivity|reflexivity].
  - apply String.eqb_neq. exact Ht.
Qed.

(** Rule 3 of the rewrite decision: once the reference is neither empty
    nor special, a mapping registered for its resolved URL decides the
    result, whatever the mode. *)
Lemma rewriteUrl_mapped (u : string) (m : AssetPathMapping) (isPageLink : bool) :
  Js.truthy u = true ->
  String.eqb (Js.trim u) "" = false ->
  Rewriter.isSpecialUrl u = false ->
  assetMappings rw !! Rewriter.resolveUrl rw u = Some m ->
  Rewriter.rewriteUrl rw u isPageLink = Rewriter.contentUrl rw (m_localPath m).
Proof.
  intros Ht He Hs Hm. unfold Rewriter.rewriteUrl, Rewriter.rewriteUrl_try.
  rewrite Ht, He, Hs, Hm. reflexivity.
Qed.

(** The body of the [try] block of [rewriteUrl] never throws. *)
Lemma rewriteUrl_try_ok (u : string) (isPageLink : bool) :
  exists s, Rewriter.rewriteUrl_try rw u isPageLink = Ok s.
Proof.
  unfold Rewriter.rewriteUrl_try.
  destruct (assetMappings rw !! Rewriter.resolveUrl rw u); [eauto|].
  destruct (isPageLink && Rewriter.isSameDomain rw (Rewriter.resolveUrl rw u));
    [eauto|].
  destruct (Rewriter.isSameDomain rw (Rewriter.resolveUrl rw u)); eauto.
Qed.

Lemma isSameDomain_unparsable (u : string) :
  new_URL u = None -> Rewriter.isSameDomain rw u = false.
Proof. intros H. unfold Rewriter.isSameDomain. rewrite H. reflexivity. Qed.

End RewriterFacts.

(** C7. For every reference that is subject to rewriting (neither empty
    nor of a special scheme) and whose resolved URL has a registered asset
    mapping, [rewriteUrl] returns
    [{archiveBasePath}/{archiveId}/content/{mapping.localPath}], in
    page-link mode and in asset mode alike.  The mapping is consulted
    before the domain of the URL is looked at, so the statement holds for
    same-domain URLs in particular; for a reference written as an absolute
    http or https URL the resolved URL is the reference itself
    ([http_url_rewritable]). *)
Theorem rewriteUrl_registered_mapping {parser : UrlParser}
  (rw : UrlRewriter) (u : string) (m : AssetPathMapping) (isPageLink : bool) :
  Rewriter.isSpecialUrl u = false ->
  assetMappings rw !! Rewriter.resolveUrl rw u = Some m ->
  Rewriter.rewriteUrl rw u isPageLink
  = rw_archiveBasePath rw +:+ "/" +:+ rw_archiveId rw +:+ "/content/"
    +:+ m_localPath m.
Proof.
  intros Hs Hm.
  destruct (not_special_not_blank u Hs) as [Ht He].
  rewrite (rewriteUrl_mapped rw u m isPageLink Ht He Hs Hm). reflexivity.
Qed.

Lemma rewriteUrl_registered_mapping_witness :
  assetMappings example_rewriter !! "https://example.com/style.css"
  = Some (mkMapping "https://example.com/style.css" "assets/css/custom.css" CSS)
  /\ @Rewriter.rewriteUrl SimpleUrl.parser example_rewriter
       "https://example.com/style.css" true
     = "/api/archives/a1/content/assets/css/custom.css"
  /\ @Rewriter.rewriteUrl SimpleUrl.parser example_rewriter
       "https://example.com/style.css" false
     = "/api/archives/a1/content/assets/css/custom.css"
  /\ @Rewriter.rewriteUrl SimpleUrl.parser example_rewriter "/style.css" true
     = "/api/archives/a1/content/assets/css/custom.css"
  /\ @Rewriter.rewriteUrl SimpleUrl.parser example_rewriter "style.css" false
     = "/api/archives/a1/content/assets/css/custom.css".
Proof.
  pose proof (@rewriteUrl_registered_mapping SimpleUrl.parser example_rewriter) as H.
  split; [vm_compute; reflexivity|].
  split; [|split; [|split]];
    apply (H _ (mkMapping "https://example.com/style.css" "assets/css/custom.css" CSS));
    vm_compute; reflexivity.
Defined.

(** C10. [rewriteUrl] returns a string for every input: the body of its
    [try] block never throws; empty, blank and special-scheme inputs are
    returned verbatim; a reference that cannot be resolved against the
    base is looked up as it stands, and when the resolved text does not
    parse as a URL (and no mapping is registered under that text) the
    original input is returned unchanged. *)
Theorem rewriteUrl_total {parser : UrlParser}
  (rw : UrlRewriter) (u : string) (isPageLink : bool) :
  (exists s, Rewriter.rewriteUrl_try rw u isPageLink = Ok s)
  /\ (Js.truthy u = false \/ Js.trim u = "" \/ Rewriter.isSpecialUrl u = true ->
      Rewriter.rewriteUrl rw u isPageLink = u)
  /\ (new_URL_base u (rw_baseUrl rw) = None -> Rewriter.resolveUrl rw u = u)
  /\ (new_URL (Rewriter.resolveUrl rw u) = None ->
      assetMappings rw !! Rewriter.resolveUrl rw u = None ->
      Rewriter.rewriteUrl rw u isPageLink = u).
Proof.
  split; [apply rewriteUrl_try_ok|]. split; [|split].
  - intros H. unfold Rewriter.rewriteUrl.
    destruct H as [H|[H|H]].
    + rewrite H. reflexivity.
    + rewrite H. cbn. rewrite orb_true_r. reflexivity.
    + rewrite H. destruct (negb (Js.truthy u) || String.eqb (Js.trim u) ""); reflexivity.
  - intros H. unfold Rewriter.resolveUrl. rewrite H.
    destruct (Js.startsWith u "http://" || Js.startsWith u "https://"); reflexivity.
  - intros Hp Hm. unfold Rewriter.rewriteUrl, Rewriter.rewriteUrl_try.
    rewrite Hm, (isSameDomain_unparsable rw _ Hp), andb_false_r. cbn.
    destruct (negb (Js.truthy u) || String.eqb (Js.trim u) ""); [reflexivity|].
    destruct (Rewriter.isSpecialUrl u); reflexivity.
Qed.

Lemma rewriteUrl_total_witness :
  let rw := createUrlRewriter (mkRewriteOptions "a1" "https://example.com" None) in
  @Rewriter.rewriteUrl SimpleUrl.parser rw "" false = ""
  /\ @Rewriter.rewriteUrl SimpleUrl.parser rw "#section1" true = "#section1"
  /\ @Rewriter.rewriteUrl SimpleUrl.parser rw "data:image/png;base64,AAAA" false
     = "data:image/png;base64,AAAA"
  /\ @Rewriter.rewriteUrl SimpleUrl.parser rw "http://" false = "http://".
Proof.
  intros rw.
  pose proof (@rewriteUrl_total SimpleUrl.parser rw "" false) as (_ & H1 & _).
  pose proof (@rewriteUrl_total SimpleUrl.parser rw "#section1" true) as (_ & H2 & _).
  pose proof (@rewriteUrl_total SimpleUrl.parser rw "data:image/png;base64,AAAA" false)
    as (_ & H3 & _).
  pose proof (@rewriteUrl_total SimpleUrl.parser rw "http://" false)
    as (_ & _ & _ & H4).
  split; [apply H1; left; reflexivity|].
  split; [apply H2; right; right; reflexivity|].
  split; [apply H3; right; right; reflexivity|].
  apply H4; reflexivity.
Defined.

(** * Naming of stored assets and pages *)

Section AssetNaming.
Context {parser : UrlParser}.

(** When the extension of a file name is, up to case, the one the file
    service picks for the declared type, the rewriter detects that
    type. *)
Lemma canonical_ext_cases (t : AssetType) (fileName : string) :
  crawlerAssetType t = true ->
  Js.toLowerCase (NodePath.extname fileName)
  = FileNaming.getCorrectExtension t fileName ->
  match t with
  | CSS => Js.toLowerCase (NodePath.extname fileName) = ".css"
  | JAVASCRIPT => Js.toLowerCase (NodePath.extname fileName) = ".js"
  | IMAGE => In (Js.toLowerCase (NodePath.extname fileName)) imageExtensions
  | FONT => In (Js.toLowerCase (NodePath.extname fileName)) fontExtensions
  | _ => False
  end.
Proof.
  intros Ht H. destruct t; try discriminate;
    cbv beta iota zeta delta [FileNaming.getCorrectExtension] in H.
  - exact H.
  - exact H.
  - destruct (mem_string (Js.toLowerCase (NodePath.extname fileName))
                imageExtensions) eqn:Hm.
    + apply mem_string_In in Hm. exact Hm.
    + rewrite andb_false_r in H. rewrite H. cbn. tauto.
  - destruct (mem_string (Js.toLowerCase (NodePath.extname fileName))
                fontExtensions) eqn:Hm.
    + apply mem_string_In in Hm. exact Hm.
    + rewrite andb_false_r in H. rewrite H. cbn. tauto.
Qed.

End AssetNaming.

(** C2, as amended.  For an asset of one of the types the crawler
    assigns (CSS, JAVASCRIPT, IMAGE, FONT) whose URL parses and whose file
    extension is, compared without regard to case, the extension the file
    service considers correct for that type (and is written exactly so
    when the URL has a query string), the relative path under which
    [saveAsset] stores the bytes is the path [generateAssetPath] derives
    from the URL. *)
Theorem saved_path_matches_generated {parser : UrlParser}
  (u : string) (t : AssetType) (o : URL) :
  new_URL u = Some o ->
  crawlerAssetType t = true ->
  let fileName := Js.or_else (NodePath.basename (pathname o)) "index" in
  Js.toLowerCase (NodePath.extname fileName)
  = FileNaming.getCorrectExtension t fileName ->
  (Js.truthy (search o) = true ->
   NodePath.extname fileName = FileNaming.getCorrectExtension t fileName) ->
  FileNaming.assetRelativePath u t = Ok (Rewriter.generateAssetPath u).
Proof.
  intros Hp Ht fileName Hlow Hexact.
  pose proof (canonical_ext_cases t fileName Ht Hlow) as Hc.
  unfold FileNaming.assetRelativePath, FileNaming.generateAssetFileName,
    Rewriter.generateAssetPath, Rewriter.detectAssetType, Rewriter.queryHash.
  rewrite Hp. cbn [of_option exc_bind try_catch]. fold fileName.
  remember (Js.toLowerCase (NodePath.extname fileName)) as el eqn:Hel.
  remember (FileNaming.getCorrectExtension t fileName) as c eqn:Hcdef.
  rewrite <- Hlow. clear Hcdef. rewrite String.eqb_refl.
  assert (Hsub : FileNaming.getAssetSubDirectory t
                 = Rewriter.getAssetSubDirectory
                     (if String.eqb el ".css" then CSS
                      else if mem_string el [".js"; ".mjs"; ".jsx"] then JAVASCRIPT
                      else if mem_string el imageExtensions then IMAGE
                      else if mem_string el fontExtensions then FONT
                      else if mem_string el [".html"; ".htm"] then HTML
                      else OTHER)).
  { destruct t; try discriminate; cbn in Hc.
    - rewrite Hc. reflexivity.
    - rewrite Hc. reflexivity.
    - repeat (destruct Hc as [Hc|Hc]; [rewrite <- Hc; reflexivity|]).
      destruct Hc.
    - repeat (destruct Hc as [Hc|Hc]; [rewrite <- Hc; reflexivity|]).
      destruct Hc. }
  rewrite <- Hsub.
  destruct (Js.truthy (search o)).
  - rewrite (Hexact eq_refl), Hlow. reflexivity.
  - reflexivity.
Qed.

Lemma saved_path_matches_generated_witness :
  @FileNaming.assetRelativePath SimpleUrl.parser
    "https://example.com/img/photo.jpeg?v=2" IMAGE
  = Ok (@Rewriter.generateAssetPath SimpleUrl.parser
          "https://example.com/img/photo.jpeg?v=2")
  /\ @FileNaming.assetRelativePath SimpleUrl.parser
       "https://example.com/img/PHOTO.JPG" IMAGE
     = Ok (@Rewriter.generateAssetPath SimpleUrl.parser
             "https://example.com/img/PHOTO.JPG").
Proof.
  split.
  - apply (@saved_path_matches_generated SimpleUrl.parser
             "https://example.com/img/photo.jpeg?v=2" IMAGE
             (mkURL "https:" "//example.com" "example.com" "/img/photo.jpeg" "?v=2" "")).
    + reflexivity.
    + reflexivity.
    + reflexivity.
    + intros _. reflexivity.
  - apply (@saved_path_matches_generated SimpleUrl.parser
             "https://example.com/img/PHOTO.JPG" IMAGE
             (mkURL "https:" "//example.com" "example.com" "/img/PHOTO.JPG" "" "")).
    + reflexivity.
    + reflexivity.
    + reflexivity.
    + intros H. vm_compute in H. discriminate H.
Defined.

(** C2, as stated, fails: an image referenced without a file extension is
    stored under [assets/images] with the extension [.png] appended, while
    [generateAssetPath] sends the same URL to [assets/other]. *)
Lemma saved_path_differs_from_generated :
  let rw := createUrlRewriter (mkRewriteOptions "a1" "https://example.com" None) in
  @Rewriter.isSameDomain SimpleUrl.parser rw "https://example.com/logo" = true
  /\ @FileNaming.assetRelativePath SimpleUrl.parser "https://example.com/logo" IMAGE
     = Ok "assets/images/logo.png"
  /\ @Rewriter.generateAssetPath SimpleUrl.parser "https://example.com/logo"
     = "assets/other/logo"
  /\ @FileNaming.assetRelativePath SimpleUrl.parser "https://example.com/logo" IMAGE
     <> Ok (@Rewriter.generateAssetPath SimpleUrl.parser "https://example.com/logo").
Proof.
  intros rw. repeat split; try (vm_compute; reflexivity).
  vm_compute. discriminate.
Qed.

(** The same divergence for a script served as an ES module. *)
Example saved_path_differs_mjs :
  @FileNaming.assetRelativePath SimpleUrl.parser "https://example.com/app.mjs" JAVASCRIPT
  = Ok "assets/js/app.js"
  /\ @Rewriter.generateAssetPath SimpleUrl.parser "https://example.com/app.mjs"
     = "assets/js/app.mjs".
Proof. split; vm_compute; reflexivity. Qed.

(** C8.  The crawler decides that a path "has an extension" as soon as it
    contains a dot anywhere, so a page below a directory with a dot in its
    name is stored under the path verbatim, while the rule, and the
    rewriter that follows it, name it [.../index.html]. *)
Theorem crawler_page_path_ignores_rule :
  @Crawler.generatePagePath SimpleUrl.parser 0 "https://example.com/v1.2/docs"
  = "v1.2/docs"
  /\ specPagePath "/v1.2/docs" = "v1.2/docs/index.html"
  /\ @Rewriter.generatePagePath SimpleUrl.parser "https://example.com/v1.2/docs"
     = "v1.2/docs/index.html".
Proof. repeat split; vm_compute; reflexivity. Qed.

(** On the four examples of the rule both implementations agree with
    it. *)
Example page_path_examples :
  Forall (fun up =>
            @Crawler.generatePagePath SimpleUrl.parser 0 (fst up) = specPagePath (snd up)
            /\ @Rewriter.generatePagePath SimpleUrl.parser (fst up) = specPagePath (snd up))
    [("https://example.com/", "/"); ("https://example.com/about/", "/about/");
     ("https://example.com/about", "/about");
     ("https://example.com/contact.html", "/contact.html")].
Proof. repeat constructor; vm_compute; reflexivity. Qed.
(** A count is below a number exactly when it is below the number
    rounded up. *)
Lemma lt_length_ceiling (n : nat) (x : Q) :
  Js.lt_length n x = (n <? Z.to_nat (Qceiling x)).
Proof.
  unfold Js.lt_length, Js.num_lt.
  destruct (Nat.ltb_spec n (Z.to_nat (Qceiling x))) as [Hlt|Hge].
  - apply negb_true_iff. destruct (Qle_bool x (inject_Z (Z.of_nat n))) eqn:Hle;
      [|reflexivity].
    apply Qle_bool_iff in Hle.
    pose proof (Qceiling_resp_le _ _ Hle) as Hc. rewrite Qceiling_Z in Hc. lia.
  - apply negb_false_iff. apply Qle_bool_iff.
    apply Qle_trans with (inject_Z (Qceiling x)); [apply Qle_ceiling|].
    rewrite <- Zle_Qle. lia.
Qed.

Lemma lt_length_limit (options : CrawlerOptions) (n : nat) :
  Js.lt_length n (maxPages options) = (n <? Crawler.pageLimit options).
Proof. apply lt_length_ceiling. Qed.

(** For a whole number, rounding up changes nothing. *)
Lemma pageLimit_whole (options : CrawlerOptions) (k : nat) :
  (maxPages options == inject_Z (Z.of_nat k))%Q -> Crawler.pageLimit options = k.
Proof.
  intros H. unfold Crawler.pageLimit. rewrite (Qceiling_comp _ _ H), Qceiling_Z.
  apply Nat2Z.id.
Qed.

Section CrawlerProofs.
Context {parser : UrlParser}.
Variable fetch : nat -> string -> FetchResult.
Variable now : nat.
Variable options : CrawlerOptions.

Abbreviation State := Crawler.State.
Abbreviation loopStep := (Crawler.loopStep fetch now options).
Abbreviation crawlLoop := (fun fuel => Crawler.crawlLoop fetch now fuel options).

(** The invariant of the crawl loop. *)
Definition crawlInv (st : State) : Prop :=
  NoDup (Crawler.requested st)
  /\ (forall u, u ∈ Crawler.requested st -> u ∈ Crawler.visitedUrls st)
  /\ List.length (Crawler.crawledPages st) <= Crawler.pageLimit options.

Lemma crawlPage_shape st u t :
  let r := Crawler.crawlPageWithHttp fetch now st u t in
  Crawler.visitedUrls (snd r) = Crawler.visitedUrls st
  /\ Crawler.crawledPages (snd r) = Crawler.crawledPages st
  /\ Crawler.urlQueue (snd r) = Crawler.urlQueue st
  /\ Crawler.currentDomain (snd r) = Crawler.currentDomain st
  /\ Crawler.requested (snd r) = Crawler.requested st ++ [u].
Proof.
  unfold Crawler.crawlPageWithHttp.
  destruct (fetch _ _) as [[| | |]|]; cbn; auto.
Qed.

Lemma loopStep_inv st st' :
  loopStep st = Some st' -> crawlInv st -> crawlInv st'.
Proof.
  unfold Crawler.loopStep, crawlInv.
  intros Hstep (Hnd & Hsub & Hlen).
  destruct (Crawler.urlQueue st) as [|cur q] eqn:Hq; [discriminate|].
  rewrite lt_length_limit in Hstep.
  destruct (List.length (Crawler.crawledPages st) <? Crawler.pageLimit options) eqn:Hlt;
    cbn -[Nat.ltb] in Hstep; [|discriminate].
  apply Nat.ltb_lt in Hlt.
  case_bool_decide as Hvis.
  - injection Hstep as <-; cbn. auto.
  - match type of Hstep with
    | context [Crawler.crawlPageWithHttp _ _ ?s ?u ?t] =>
        pose proof (crawlPage_shape s u t) as Hsh;
        destruct (Crawler.crawlPageWithHttp fetch now s u t) as [pg s1]
    end.
    cbn in Hsh. destruct Hsh as (Hv & Hp & Hqq & Hd & Hr).
    assert (Hnd1 : NoDup (Crawler.requested s1)).
    { rewrite Hr. apply NoDup_app. split; [exact Hnd|]. split.
      - intros x Hx Hx'. apply list_elem_of_singleton in Hx'. subst x.
        apply Hvis. cbn. auto.
      - apply NoDup_singleton. }
    assert (Hsub1 : forall x, x ∈ Crawler.requested s1 -> x ∈ Crawler.visitedUrls s1).
    { intros x Hx. rewrite Hr in Hx. rewrite Hv. cbn.
      apply elem_of_app in Hx as [Hx|Hx].
      - apply elem_of_union_r. auto.
      - apply list_elem_of_singleton in Hx. subst. apply elem_of_union_l.
        apply elem_of_singleton. reflexivity. }
    destruct pg as [page|].
    + cbn -[Nat.ltb] in Hstep. rewrite lt_length_limit in Hstep.
      destruct (List.length (Crawler.crawledPages s1 ++ [page]) <? Crawler.pageLimit options)
        eqn:Hlt2; injection Hstep as <-; cbn -[Nat.ltb]; (split; [exact Hnd1|split; [exact Hsub1|]]).
      * apply Nat.ltb_lt in Hlt2. lia.
      * rewrite Hp. rewrite length_app. cbn. lia.
    + injection Hstep as <-. split; [exact Hnd1|split; [exact Hsub1|]].
      rewrite Hp. cbn. lia.
Qed.

Lemma loopStep_measure st st' :
  loopStep st = Some st' ->
  Crawler.loopMeasure options st' < Crawler.loopMeasure options st.
Proof.
  unfold Crawler.loopStep, Crawler.loopMeasure.
  intros Hstep.
  destruct (Crawler.urlQueue st) as [|cur q] eqn:Hq; [discriminate|].
  rewrite lt_length_limit in Hstep.
  destruct (List.length (Crawler.crawledPages st) <? Crawler.pageLimit options) eqn:Hlt;
    cbn -[Nat.ltb] in Hstep; [|discriminate].
  apply Nat.ltb_lt in Hlt.
  case_bool_decide as Hvis.
  - injection Hstep as <-; cbn. lia.
  - match type of Hstep with
    | context [Crawler.crawlPageWithHttp _ _ ?s ?u ?t] =>
        pose proof (crawlPage_shape s u t) as Hsh;
        destruct (Crawler.crawlPageWithHttp fetch now s u t) as [pg s1]
    end.
    cbn in Hsh. destruct Hsh as (Hv & Hp & Hqq & Hd & Hr).
    destruct pg as [page|].
    + cbn -[Nat.ltb] in Hstep. rewrite lt_length_limit in Hstep.
      destruct (List.length (Crawler.crawledPages s1 ++ [page]) <? Crawler.pageLimit options)
        eqn:Hlt2; injection Hstep as <-; cbn -[Nat.ltb];
        rewrite ?length_app, Hp, Hqq; cbn.
      * match goal with
        | |- context [List.length (List.filter ?f ?l)] =>
            pose proof (List.filter_length_le f l) as Hf;
            assert (Hl : List.length l <= 30)
              by (unfold Crawler.extractValidUrls; apply firstn_le_length)
        end.
        lia.
      * lia.
    + injection Hstep as <-. rewrite Hp, Hqq. cbn. lia.
Qed.

Lemma crawlLoop_terminates fuel st :
  Crawler.loopMeasure options st <= fuel ->
  exists st', crawlLoop fuel st = Some st'.
Proof.
  revert st. induction fuel as [|fuel IH]; intros st Hm; cbn.
  - destruct (loopStep st) as [st1|] eqn:Hs; [|eauto].
    apply loopStep_measure in Hs. lia.
  - destruct (loopStep st) as [st1|] eqn:Hs; [|eauto].
    apply IH. apply loopStep_measure in Hs. lia.
Qed.

Lemma crawlLoop_inv fuel st st' :
  crawlLoop fuel st = Some st' -> crawlInv st -> crawlInv st'.
Proof.
  revert st. induction fuel as [|fuel IH]; intros st; cbn.
  - destruct (loopStep st) as [st1|] eqn:Hs; [discriminate|].
    intros [= <-]. auto.
  - destruct (loopStep st) as [st1|] eqn:Hs.
    + intros Hl Hi. eapply IH; [exact Hl|]. eapply loopStep_inv; eauto.
    + intros [= <-]. auto.
Qed.

End CrawlerProofs.

Section CrawlSite.
Context {parser : UrlParser}.
Variable fetch : nat -> string -> FetchResult.
Variable now : nat.
Variable options : CrawlerOptions.

(** A dequeued URL that is already in the visited set is dropped
    without a request. *)
Lemma loopStep_skips_visited (st : Crawler.State) (cur : string)
  (q : list string) :
  Crawler.urlQueue st = cur :: q ->
  cur ∈ Crawler.visitedUrls st ->
  Js.lt_length (List.length (Crawler.crawledPages st)) (maxPages options) = true ->
  Crawler.loopStep fetch now options st
  = Some (Crawler.mkState (Crawler.visitedUrls st) (Crawler.crawledPages st)
            (Crawler.c_errors st) q (Crawler.currentDomain st)
            (Crawler.requested st)).
Proof.
  intros Hq Hv Hl. unfold Crawler.loopStep. rewrite Hq.
  rewrite Hl. cbn [negb].
  rewrite bool_decide_eq_true_2 by exact Hv. reflexivity.
Qed.

Lemma crawlInv_initial (q : list string) (d : string) :
  crawlInv options (Crawler.mkState ∅ [] [] q d []).
Proof.
  split; [apply NoDup_nil_2|]. split.
  - intros x Hx. apply elem_of_nil in Hx. destruct Hx.
  - cbn. lia.
Qed.

End CrawlSite.

(** A crawl that has the crawler object to itself ends, and during it
    no URL is requested more than once: a dequeued URL that is already in
    the visited set is skipped without a request.  The result holds no
    more pages than [options.maxPages] rounded up to a whole number (none
    when it is negative), so no more than [maxPages] when that is a whole
    number. *)
Theorem crawlSite_requests_once_and_bounded {parser : UrlParser}
  (fetch : nat -> string -> FetchResult) (now : nat)
  (startUrl : string) (options : CrawlerOptions) :
  (exists r trace,
     Crawler.crawlSite fetch now startUrl options = Some (r, trace)
     /\ NoDup trace
     /\ forall res, r = Ok res ->
          List.length (cr_pages res) <= Z.to_nat (Qceiling (maxPages options))
          /\ forall k : nat,
               (maxPages options == inject_Z (Z.of_nat k))%Q ->
               List.length (cr_pages res) <= k)
  /\ (forall st cur q,
        Crawler.urlQueue st = cur :: q ->
        cur ∈ Crawler.visitedUrls st ->
        Js.lt_length (List.length (Crawler.crawledPages st)) (maxPages options)
        = true ->
        exists st',
          Crawler.loopStep fetch now options st = Some st'
          /\ Crawler.requested st' = Crawler.requested st
          /\ Crawler.crawledPages st' = Crawler.crawledPages st
          /\ Crawler.urlQueue st' = q).
Proof.
  split.
  - unfold Crawler.crawlSite, Crawler.initialize.
    destruct (normalizeUrl startUrl) as [n|]; cbn.
    2:{ eexists _, _. split; [reflexivity|]. split; [apply NoDup_nil_2|].
        intros res [=]. }
    destruct (Js.truthy n); cbn [negb].
    2:{ eexists _, _. split; [reflexivity|]. split; [apply NoDup_nil_2|].
        intros res [=]. }
    destruct (extractDomain n) as [d|].
    2:{ eexists _, _. split; [reflexivity|]. split; [apply NoDup_nil_2|].
        intros res [=]. }
    destruct (Js.truthy d).
    2:{ eexists _, _. split; [reflexivity|]. split; [apply NoDup_nil_2|].
        intros res [=]. }
    match goal with
    | |- context [Crawler.crawlLoop _ _ ?f _ ?s] =>
        destruct (crawlLoop_terminates fetch now options f s (le_n _)) as [st' Hst'];
        pose proof (crawlLoop_inv fetch now options f s st' Hst'
                      (crawlInv_initial options _ _)) as (Hnd & _ & Hlen)
    end.
    cbn in Hst'. rewrite Hst'.
    eexists _, _. split; [reflexivity|]. split; [exact Hnd|].
    intros res Hres. injection Hres as <-. cbn [cr_pages].
    split; [exact Hlen|].
    intros k Hk. rewrite <- (pageLimit_whole options k Hk). exact Hlen.
  - intros st cur q Hq Hv Hl.
    eexists. split; [apply (loopStep_skips_visited fetch now options st cur q Hq Hv Hl)|].
    repeat split.
Qed.

(** * Properties of the archive orchestrator *)

Section ServiceFacts.
Context {parser : UrlParser}.
Variable w : World.

Lemma inProgressCount_le_size (s : Service) :
  inProgressCount s <= size (activeArchives s).
Proof.
  unfold inProgressCount. apply map_subseteq_size, map_filter_subseteq.
Qed.

(** With a healthy storage a file-system call succeeds and leaves the
    schedule empty. *)
Lemma fs_call_healthy (st : Storage) :
  faults st = [] -> FileService.fs_call st = (None, st).
Proof. unfold FileService.fs_call. intros ->. reflexivity. Qed.

Lemma mkdirBelow_healthy (st : Storage) (paths : list string) :
  faults st = [] -> FileService.mkdirBelow st paths = (None, st).
Proof.
  intros Hf. induction paths as [|p paths IH]; cbn; [reflexivity|].
  rewrite (fs_call_healthy _ Hf). exact IH.
Qed.

Lemma initializeArchiveStorage_healthy (st : Storage)
  (archiveId : string) :
  faults st = [] ->
  FileService.initializeArchiveStorage st archiveId
  = (Ok tt,
     mkStorage (<[archiveId := FileService.dir_or_new st archiveId]> (dirs st))
       (faults st)).
Proof.
  intros Hf. unfold FileService.initializeArchiveStorage.
  rewrite (fs_call_healthy _ Hf), mkdirBelow_healthy by exact Hf. reflexivity.
Qed.

Lemma isTimeout_deadline : ArchiveService.isTimeout deadlineMessage = true.
Proof. reflexivity. Qed.

Lemma failure_message_mentions_timeout (message : string) :
  Js.includes ("Archive partially completed due to timeout: " +:+ message)
    "partially completed due to timeout" = true.
Proof. vm_compute. reflexivity. Qed.

End ServiceFacts.

(** C5. Whenever the number of archives that are IN_PROGRESS has reached
    the configured cap (3 when none is configured), [createArchive] is
    rejected and leaves the service as it was: no archive record, no
    progress entry, no storage, no background run.  For a URL that passes
    validation the error is the one that names the limit. *)
Theorem createArchive_rejected_at_cap {parser : UrlParser} (w : World)
  (s : Service) (urlString : string) (options : PartialCrawlerOptions) :
  maxConcurrentArchives s <= inProgressCount s ->
  (exists message,
     ArchiveService.createArchive w s urlString options = (Throw message, s))
  /\ (forall n d,
        normalizeUrl urlString = Some n -> Js.truthy n = true ->
        extractDomain n = Some d -> Js.truthy d = true ->
        ArchiveService.createArchive w s urlString options
        = (Throw (ArchiveService.limitMessage s), s))
  /\ (forall dflt st,
        maxConcurrentArchives
          (ArchiveService.newService (mkServiceOptions dflt None) st) = 3).
Proof.
  intros Hcap.
  assert (Hfull : (maxConcurrentArchives s <=? size (activeArchives s)) = true).
  { apply Nat.leb_le. pose proof (inProgressCount_le_size s). lia. }
  assert (Hvalid : forall n d,
            normalizeUrl urlString = Some n -> Js.truthy n = true ->
            extractDomain n = Some d -> Js.truthy d = true ->
            ArchiveService.createArchive w s urlString options
            = (Throw (ArchiveService.limitMessage s), s)).
  { intros n d Hn Htn Hd Htd. unfold ArchiveService.createArchive.
    rewrite Hn, Htn, Hd, Htd, Hfull. reflexivity. }
  split; [|split; [exact Hvalid|reflexivity]].
  unfold ArchiveService.createArchive.
  destruct (normalizeUrl urlString) as [n|] eqn:Hn; [|eauto].
  destruct (Js.truthy n) eqn:Htn; [|cbn; eauto].
  destruct (extractDomain n) as [d|] eqn:Hd; [|cbn; eauto].
  destruct (Js.truthy d) eqn:Htd; [|cbn; eauto].
  cbn -[Nat.leb]. rewrite Hfull. eauto.
Qed.

Lemma createArchive_rejected_at_cap_witness :
  maxConcurrentArchives full_service <= inProgressCount full_service
  /\ @ArchiveService.createArchive SimpleUrl.parser example_world full_service
       "https://example3.com" no_options
     = (Throw "Maximum concurrent archives limit reached (2). Please wait for existing archives to complete.",
        full_service).
Proof.
  assert (H : maxConcurrentArchives full_service <= inProgressCount full_service)
    by (vm_compute; lia).
  split; [exact H|].
  destruct (@createArchive_rejected_at_cap SimpleUrl.parser example_world
              full_service "https://example3.com" no_options H) as (_ & Hv & _).
  exact (Hv "https://example3.com/" "example3.com" eq_refl eq_refl eq_refl eq_refl).
Defined.

Section RunFacts.
Context {parser : UrlParser}.
Variable w : World.

Lemma finalStatus_terminal (errs : list ArchiveError) :
  terminal (ArchiveService.finalStatus errs) = true.
Proof. unfold ArchiveService.finalStatus. destruct (0 <? _); reflexivity. Qed.

(** The [try] block ends normally with a terminal status, or throws. *)
Lemma archivingBody_cases (now : nat) (archive : Archive)
  (crawl : Exc CrawlResult) (st : Storage) (progress : ArchiveProgress) :
  (exists st' p',
     ArchiveService.archivingBody w now archive crawl st progress = (Ok tt, st', p')
     /\ terminal (p_status p') = true)
  \/ (exists m st' p',
        ArchiveService.archivingBody w now archive crawl st progress
        = (Throw m, st', p')).
Proof.
  unfold ArchiveService.archivingBody.
  destruct crawl as [res|m]; [|right; eauto].
  destruct (ArchiveService.downloadAssets _ _ _ _ _ _) as [[as' st1] p1].
  destruct (ArchiveService.processPages _ _ _ _ _ _ _) as [[pp st2] p2].
  destruct (FileService.saveArchiveMetadata _ _) as [[[]|m] st3].
  - left. eexists _, _. split; [reflexivity|]. apply finalStatus_terminal.
  - right. eauto.
Qed.

Lemma archivingFailed_status (now : nat) (archive : Archive) (m : string)
  (st : Storage) (progress : ArchiveProgress) :
  p_status (snd (ArchiveService.archivingFailed now archive m st progress))
  = (if ArchiveService.isTimeout m then PARTIAL else FAILED)
  /\ p_errors (snd (ArchiveService.archivingFailed now archive m st progress))
     = p_errors progress ++ [ArchiveService.failureError now m].
Proof.
  unfold ArchiveService.archivingFailed.
  destruct (FileService.saveArchiveMetadata _ _) as [r st']. cbn. auto.
Qed.

(** After the background run the entry is still in the registry, with a
    terminal status, and its retirement is scheduled. *)
Lemma finishArchiving_keeps_entry (s : Service) (archive : Archive)
  (oc : CrawlOutcome) :
  is_Some (activeArchives s !! id archive) ->
  exists p,
    activeArchives (ArchiveService.finishArchiving w s archive oc) !! id archive
    = Some p
    /\ terminal (p_status p) = true
    /\ In (id archive) (timers (ArchiveService.finishArchiving w s archive oc)).
Proof.
  intros [p0 Hp0]. unfold ArchiveService.finishArchiving. rewrite Hp0.
  destruct (archivingBody_cases (clock s) archive (outcome oc) (storage s)
              (ArchiveService.report p0 (lastReport oc)))
    as [(st' & p' & -> & Hterm)|(m & st' & p' & ->)].
  - cbn. exists p'. split; [apply lookup_insert_eq|]. split; [exact Hterm|].
    apply in_or_app. right. left. reflexivity.
  - destruct (ArchiveService.archivingFailed (clock s) archive m st' p')
      as [st2 p2] eqn:Hf.
    cbn. exists p2. split; [apply lookup_insert_eq|]. split.
    + pose proof (archivingFailed_status (clock s) archive m st' p') as [Hs _].
      rewrite Hf in Hs. cbn in Hs. rewrite Hs.
      destruct (ArchiveService.isTimeout m); reflexivity.
    + apply in_or_app. right. left. reflexivity.
Qed.

Lemma retire_removes (s : Service) (archiveId : string) :
  In archiveId (timers s) ->
  activeArchives (ArchiveService.retire s archiveId) !! archiveId = None
  /\ storage (ArchiveService.retire s archiveId) = storage s.
Proof.
  intros Hin. unfold ArchiveService.retire.
  assert (Hm : mem_string archiveId (timers s) = true).
  { unfold mem_string. apply List.existsb_exists. exists archiveId.
    split; [exact Hin|apply String.eqb_refl]. }
  rewrite Hm. cbn. split; [apply lookup_delete_eq|reflexivity].
Qed.

End RunFacts.

(** What [deleteArchive] tests is the registry of active archives, not
    the status.  It fails with the "archiving in progress" error for as
    long as the archive has an entry there: from its creation, through
    the background run, and after the run has reached a terminal status
    until the timer set at the end of the run removes the entry.  Once
    the entry is retired, deleting an archive whose id is a plain name
    succeeds and removes the directory of the archive, provided the
    storage call succeeds. *)
Theorem deleteArchive_refused_until_retired {parser : UrlParser} (w : World)
  (s : Service) (archive : Archive) (oc : CrawlOutcome) :
  is_Some (activeArchives s !! id archive) ->
  let s1 := ArchiveService.finishArchiving w s archive oc in
  let s2 := ArchiveService.retire s1 (id archive) in
  ArchiveService.deleteArchive s (id archive)
  = (Throw (ArchiveService.deleteMessage (id archive)), s)
  /\ (exists p, activeArchives s1 !! id archive = Some p
                /\ terminal (p_status p) = true)
  /\ ArchiveService.deleteArchive s1 (id archive)
     = (Throw (ArchiveService.deleteMessage (id archive)), s1)
  /\ (plainName (id archive) = true -> faults (storage s2) = [] ->
      exists s3,
        ArchiveService.deleteArchive s2 (id archive) = (Ok tt, s3)
        /\ dirs (storage s3) !! id archive = None
        /\ activeArchives s3 !! id archive = None).
Proof.
  intros Hin s1 s2.
  destruct (finishArchiving_keeps_entry w s archive oc Hin) as (p & Hp & Ht & Htim).
  fold s1 in Hp, Htim.
  destruct (retire_removes s1 (id archive) Htim) as [Hnone Hst]. fold s2 in Hnone, Hst.
  split; [|split; [|split]].
  - unfold ArchiveService.deleteArchive.
    rewrite bool_decide_eq_true_2 by exact Hin. reflexivity.
  - eauto.
  - unfold ArchiveService.deleteArchive.
    rewrite bool_decide_eq_true_2 by (rewrite Hp; eauto). reflexivity.
  - intros _ Hf. unfold ArchiveService.deleteArchive.
    rewrite bool_decide_eq_false_2 by (rewrite Hnone; apply is_Some_None).
    unfold FileService.deleteArchive. rewrite (fs_call_healthy _ Hf).
    eexists. split; [reflexivity|]. cbn. split; [apply lookup_delete_eq|exact Hnone].
Qed.

Lemma deleteArchive_refused_until_retired_witness :
  let s := snd created_service in
  let s1 := @ArchiveService.finishArchiving SimpleUrl.parser example_world s
              created_archive
              (example_crawl "https://example.com/" (defaultCrawlerOptions s)) in
  is_Some (activeArchives s !! "id0")
  /\ @ArchiveService.deleteArchive s1 "id0"
     = (Throw "Cannot delete archive id0: archiving in progress", s1)
  /\ exists s3,
       ArchiveService.deleteArchive (ArchiveService.retire s1 "id0") "id0" = (Ok tt, s3)
       /\ dirs (storage s3) !! "id0" = None.
Proof.
  intros s s1.
  assert (Hin : is_Some (activeArchives s !! id created_archive))
    by (vm_compute; eauto).
  destruct (@deleteArchive_refused_until_retired SimpleUrl.parser example_world
              s created_archive
              (example_crawl "https://example.com/" (defaultCrawlerOptions s)) Hin)
    as (_ & _ & H2 & H3).
  split; [exact Hin|]. split; [exact H2|].
  destruct (H3 eq_refl ltac:(vm_compute; reflexivity)) as (s3 & Hd & Hn & _).
  exists s3. split; [exact Hd|exact Hn].
Defined.

(** C6 does not hold of the code.  An archive whose run has ended (its
    status in the registry and in the manifest is terminal, here PARTIAL)
    still cannot be deleted: [deleteArchive] refuses with the "archiving
    in progress" error, because it asks whether the registry has an entry
    for the archive, and the entry is kept for a minute after the run,
    where its comment and its message speak of an archive that is being
    processed. *)
Lemma deleteArchive_refused_after_completion :
  let r := archive_once example_service in
  fst r = Some (set_version created_archive 1)
  /\ (exists p, activeArchives (snd r) !! "id0" = Some p /\ p_status p = PARTIAL)
  /\ (exists d a, dirs (storage (snd r)) !! "id0" = Some d
                  /\ manifest d = Some a /\ status a = PARTIAL)
  /\ ArchiveService.deleteArchive (snd r) "id0"
     = (Throw "Cannot delete archive id0: archiving in progress", snd r).
Proof.
  intros r. split; [vm_compute; reflexivity|]. split; [|split].
  - eexists. split; [vm_compute; reflexivity|reflexivity].
  - eexists _, _. split; [vm_compute; reflexivity|]. split; reflexivity.
  - vm_compute. reflexivity.
Qed.

(** C3, as amended.  When the crawl phase of the background run throws,
    the run is classified by the message of the exception: if it contains
    "timeout" or "timed out" (the latter is how the ten-minute deadline
    reports itself), the archive ends PARTIAL and a TIMEOUT_ERROR whose
    message contains "partially completed due to timeout" is recorded;
    otherwise it ends FAILED with a NETWORK_ERROR.  In both cases a
    manifest with that status and the accumulated errors is written, and
    it is persisted when the storage call succeeds. *)
Theorem crawl_failure_classified {parser : UrlParser} (w : World)
  (s : Service) (archive : Archive) (r : option (nat * nat * string))
  (message : string) (progress : ArchiveProgress) :
  activeArchives s !! id archive = Some progress ->
  let s' := ArchiveService.finishArchiving w s archive (mkOutcome r (Throw message)) in
  let timedOut := Js.includes message "timeout" || Js.includes message "timed out" in
  let e := mkError (clock s)
             (if timedOut then TIMEOUT_ERROR else NETWORK_ERROR)
             (if timedOut
              then "Archive partially completed due to timeout: " +:+ message
              else "Archive failed: " +:+ message)
             None false in
  (exists progress',
     activeArchives s' !! id archive = Some progress'
     /\ p_status progress' = (if timedOut then PARTIAL else FAILED)
     /\ p_errors progress' = p_errors progress ++ [e])
  /\ (timedOut = true ->
      Js.includes (err_message e) "partially completed due to timeout" = true)
  /\ ArchiveService.isTimeout deadlineMessage = true
  /\ (faults (storage s) = [] -> is_Some (dirs (storage s) !! id archive) ->
      exists d a,
        dirs (storage s') !! id archive = Some d
        /\ manifest d = Some a
        /\ status a = (if timedOut then PARTIAL else FAILED)
        /\ errors a = p_errors progress ++ [e]).
Proof.
  intros Hp s' timedOut e.
  assert (Hs' : s' = ArchiveService.finishArchiving w s archive (mkOutcome r (Throw message)))
    by reflexivity.
  unfold ArchiveService.finishArchiving in Hs'. rewrite Hp in Hs'.
  cbn [outcome lastReport ArchiveService.archivingBody] in Hs'.
  set (p0 := ArchiveService.report progress r) in *.
  assert (He0 : p_errors p0 = p_errors progress).
  { unfold p0, ArchiveService.report. destruct r as [[[a b] c]|]; reflexivity. }
  pose proof (archivingFailed_status (clock s) archive message (storage s) p0)
    as [Hst Her].
  destruct (ArchiveService.archivingFailed (clock s) archive message (storage s) p0)
    as [st2 p2] eqn:Hf.
  cbn in Hst, Her. rewrite He0 in Her.
  split; [|split; [|split]].
  - exists p2. rewrite Hs'. cbn. split; [apply lookup_insert_eq|]. split.
    + exact Hst.
    + exact Her.
  - intros Ht. unfold e. cbn. rewrite Ht. apply failure_message_mentions_timeout.
  - reflexivity.
  - intros Hfa [d0 Hd0].
    unfold ArchiveService.archivingFailed in Hf.
    unfold FileService.saveArchiveMetadata in Hf.
    rewrite (fs_call_healthy _ Hfa) in Hf. cbn [id] in Hf. rewrite Hd0 in Hf.
    injection Hf as <- <-.
    rewrite Hs'. cbn. eexists _, _. split; [apply lookup_insert_eq|].
    split; [reflexivity|]. cbn. rewrite He0. split; reflexivity.
Qed.

Lemma crawl_failure_classified_witness :
  let s := snd created_service in
  let s' := @ArchiveService.finishArchiving SimpleUrl.parser example_world s
              created_archive (mkOutcome None (Throw deadlineMessage)) in
  (exists progress',
     activeArchives s' !! "id0" = Some progress'
     /\ p_status progress' = PARTIAL
     /\ p_errors progress'
        = [mkError 0 TIMEOUT_ERROR
             "Archive partially completed due to timeout: Archive process timed out after 10 minutes"
             None false])
  /\ exists d a,
       dirs (storage s') !! "id0" = Some d
       /\ manifest d = Some a
       /\ status a = PARTIAL.
Proof.
  intros s s'.
  assert (Hp : activeArchives s !! id created_archive
               = Some (mkProgress "id0" "https://example.com/" IN_PROGRESS 0 0 0 0 [] 0 None))
    by (vm_compute; reflexivity).
  destruct (@crawl_failure_classified SimpleUrl.parser example_world s
              created_archive None deadlineMessage _ Hp)
    as ((p' & H1 & H2 & H3) & _ & _ & H4).
  split.
  - exists p'. split; [exact H1|]. split; [exact H2|exact H3].
  - destruct (H4 ltac:(vm_compute; reflexivity) ltac:(vm_compute; eauto))
      as (d & a & Hd & Hm & Hs & _).
    exists d, a. split; [exact Hd|]. split; [exact Hm|exact Hs].
Defined.

(** C3, as stated, fails: an exception whose message says "timed out"
    without containing "timeout", and which is not the deadline's, is
    none of the timeouts the claim names, yet the archive ends PARTIAL
    with a TIMEOUT_ERROR, not FAILED. *)
Lemma timed_out_message_is_partial :
  let s := snd created_service in
  let message := "connect ETIMEDOUT: connection timed out" in
  let s' := @ArchiveService.finishArchiving SimpleUrl.parser example_world s
              created_archive (mkOutcome None (Throw message)) in
  Js.includes message "timeout" = false
  /\ message <> deadlineMessage
  /\ exists p,
       activeArchives s' !! "id0" = Some p
       /\ p_status p = PARTIAL
       /\ List.map err_type (p_errors p) = [TIMEOUT_ERROR].
Proof.
  intros s message s'. split; [reflexivity|]. split; [discriminate|].
  eexists. split; [vm_compute; reflexivity|]. split; reflexivity.
Qed.

(** A failure that mentions no timeout ends FAILED. *)
Example connection_refused_is_failed :
  let s := snd created_service in
  let s' := @ArchiveService.finishArchiving SimpleUrl.parser example_world s
              created_archive (mkOutcome None (Throw "Connection refused")) in
  exists p,
    activeArchives s' !! "id0" = Some p
    /\ p_status p = FAILED
    /\ List.map err_type (p_errors p) = [NETWORK_ERROR].
Proof.
  intros s s'. eexists. split; [vm_compute; reflexivity|]. split; reflexivity.
Qed.

(** * Version numbers *)

Section SortFacts.
Context {A : Type}.
Variable le : A -> A -> bool.

Lemma insertBy_Permutation (x : A) (l : list A) :
  Permutation (insertBy le x l) (x :: l).
Proof.
  induction l as [|y l IH]; cbn; [reflexivity|].
  destruct (le y x); [|reflexivity].
  rewrite IH. apply perm_swap.
Qed.

Lemma sortBy_fold_Permutation (l acc : list A) :
  Permutation (List.fold_left (fun acc x => insertBy le x acc) l acc) (l ++ acc).
Proof.
  revert acc. induction l as [|x l IH]; intros acc; cbn; [reflexivity|].
  rewrite IH, insertBy_Permutation. symmetry. apply Permutation_middle.
Qed.

Lemma sortBy_Permutation (l : list A) : Permutation (sortBy le l) l.
Proof.
  unfold sortBy. rewrite sortBy_fold_Permutation, app_nil_r. reflexivity.
Qed.

End SortFacts.

Lemma filter_Permutation_bool {A} (f : A -> bool) (l l' : list A) :
  Permutation l l' -> Permutation (List.filter f l) (List.filter f l').
Proof.
  induction 1 as [|x l l' _ IH|x y l|l l' l'' _ IH1 _ IH2]; cbn.
  - reflexivity.
  - destruct (f x); [constructor|]; exact IH.
  - destruct (f x), (f y); try reflexivity. apply perm_swap.
  - etransitivity; eassumption.
Qed.

Lemma maxOf_map_Permutation {A} (g : A -> nat) (l l' : list A) :
  Permutation l l' -> maxOf (List.map g l) = maxOf (List.map g l').
Proof.
  unfold maxOf.
  induction 1 as [|x l l' _ IH|x y l|l l' l'' _ IH1 _ IH2]; cbn.
  - reflexivity.
  - rewrite IH. reflexivity.
  - lia.
  - congruence.
Qed.

Section VersionFacts.
Context {parser : UrlParser}.
Variable w : World.

Lemma loadAll_healthy (st : Storage) (l : list (string * ArchiveDir))
  (acc : list Archive) :
  faults st = [] ->
  (forall k d, In (k, d) l -> dirs st !! k = Some d) ->
  ArchiveService.loadAll st (List.map fst l) acc
  = (acc ++ omap (fun kv => manifest kv.2) l, st).
Proof.
  intros Hf. revert acc. induction l as [|[k d] l IH]; intros acc Hl; cbn.
  - rewrite app_nil_r. reflexivity.
  - unfold FileService.loadArchiveMetadata.
    rewrite (fs_call_healthy _ Hf), (Hl k d (or_introl eq_refl)).
    destruct (manifest d) as [a|]; cbn.
    + rewrite IH by (intros; apply Hl; right; assumption).
      rewrite <- app_assoc. reflexivity.
    + apply IH. intros; apply Hl; right; assumption.
Qed.

Lemma getArchives_healthy (st : Storage) :
  faults st = [] ->
  ArchiveService.getArchives st
  = (Ok (sortBy (fun a b => timestamp b <=? timestamp a) (storedArchives st)), st).
Proof.
  intros Hf. unfold ArchiveService.getArchives, FileService.listArchives.
  rewrite (fs_call_healthy _ Hf).
  rewrite (loadAll_healthy st (map_to_list (dirs st)) [] Hf).
  - reflexivity.
  - intros k d Hin. apply elem_of_map_to_list. apply list_elem_of_In. exact Hin.
Qed.

(** With a healthy storage the latest version number is the maximum of
    the versions stored for the normalized URL, 0 when there is none. *)
Lemma getLatestVersionNumber_healthy (st : Storage) (n n' : string) :
  faults st = [] -> normalizeUrl n = Some n' -> Js.truthy n' = true ->
  ArchiveService.getLatestVersionNumber st n = (maxOf (storedVersions st n'), st).
Proof.
  intros Hf Hn Ht. unfold ArchiveService.getLatestVersionNumber,
    ArchiveService.getArchiveVersions.
  rewrite Hn, Ht, (getArchives_healthy st Hf). cbn [negb].
  f_equal. unfold storedVersions.
  set (vs := sortBy _ (List.filter _ _)).
  assert (Hmax : maxOf (List.map version vs)
                 = maxOf (List.map version
                            (List.filter (ArchiveService.sameNormalizedUrl n')
                               (storedArchives st)))).
  { unfold vs.
    rewrite (maxOf_map_Permutation version _ _ (sortBy_Permutation _ _)).
    apply maxOf_map_Permutation, filter_Permutation_bool, sortBy_Permutation. }
  rewrite <- Hmax.
  destruct vs; reflexivity.
Qed.

Lemma getLatestVersionNumber_unparsable (st : Storage) (n : string) :
  normalizeUrl n = None ->
  ArchiveService.getLatestVersionNumber st n = (0, st).
Proof.
  intros Hn. unfold ArchiveService.getLatestVersionNumber,
    ArchiveService.getArchiveVersions. rewrite Hn. reflexivity.
Qed.

End VersionFacts.

(** C1, as amended.  For every successful [createArchive(url)] on a
    storage that answers its calls, the version of the returned archive is
    1 plus the maximum version over the archives stored at that moment
    whose normalized URL equals the normalized [url] (1 when there is
    none).  The maximum is taken over what is stored when the call is
    made; archives deleted before the call do not count. *)
Theorem createArchive_version {parser : UrlParser} (w : World)
  (s s' : Service) (urlString n : string) (options : PartialCrawlerOptions)
  (a : Archive) :
  faults (storage s) = [] ->
  normalizeUrl urlString = Some n ->
  normalizeUrl n = Some n ->
  ArchiveService.createArchive w s urlString options = (Ok a, s') ->
  version a = 1 + maxOf (storedVersions (storage s) n)
  /\ (storedVersions (storage s) n = [] -> version a = 1).
Proof.
  intros Hf Hn Hnn Hc.
  assert (Hv : version a = 1 + maxOf (storedVersions (storage s) n)).
  { unfold ArchiveService.createArchive in Hc. rewrite Hn in Hc.
    destruct (Js.truthy n) eqn:Ht; [|discriminate].
    destruct (extractDomain n) as [d|]; [|discriminate].
    destruct (Js.truthy d); [|discriminate].
    cbn -[Nat.leb ArchiveService.getLatestVersionNumber] in Hc.
    destruct (maxConcurrentArchives s <=? size (activeArchives s)); [discriminate|].
    destruct (List.existsb _ _); [discriminate|].
    rewrite (getLatestVersionNumber_healthy _ n n Hf Hnn Ht) in Hc.
    cbn -[Nat.leb] in Hc.
    unfold validation_createArchive in Hc.
    destruct (isValidUrl n); [|discriminate].
    destruct (extractDomain n) as [d'|]; [|discriminate].
    destruct (Js.truthy d'); [|discriminate].
    cbn in Hc.
    destruct (FileService.initializeArchiveStorage _ _) as [[[]|m] st1];
      [|discriminate].
    destruct (FileService.saveArchiveMetadata _ _) as [[[]|m] st2];
      [|discriminate].
    injection Hc as <- _. cbn. lia. }
  split; [exact Hv|]. intros He. rewrite Hv, He. reflexivity.
Qed.

Lemma createArchive_version_witness :
  exists a s',
    @ArchiveService.createArchive SimpleUrl.parser example_world archived_once
      "https://example.com" no_options = (Ok a, s')
    /\ @storedVersions SimpleUrl.parser (storage archived_once) "https://example.com/" = [1]
    /\ version a = 2.
Proof.
  assert (Hc : exists a s',
             @ArchiveService.createArchive SimpleUrl.parser example_world
               archived_once "https://example.com" no_options = (Ok a, s'))
    by (eexists _, _; vm_compute; reflexivity).
  destruct Hc as (a & s' & Hc).
  assert (Hs : @storedVersions SimpleUrl.parser (storage archived_once)
                 "https://example.com/" = [1])
    by (vm_compute; reflexivity).
  exists a, s'. split; [exact Hc|]. split; [exact Hs|].
  destruct (@createArchive_version SimpleUrl.parser example_world archived_once s'
              "https://example.com" "https://example.com/" no_options a
              ltac:(vm_compute; reflexivity) ltac:(vm_compute; reflexivity)
              ltac:(vm_compute; reflexivity) Hc) as [Hv _].
  rewrite Hv, Hs. reflexivity.
Defined.

(** C1, as stated, fails in its second half: with versions 1 and 2
    stored, deleting version 2 and archiving the same URL again yields
    version 2 once more, not a version greater than the deleted one. *)
Lemma deleted_version_is_reused :
  let d := ArchiveService.deleteArchive archived_twice "id1" in
  let r := @ArchiveService.createArchive SimpleUrl.parser example_world (snd d)
             "https://example.com" no_options in
  (exists dir a, dirs (storage archived_twice) !! "id1" = Some dir
                 /\ manifest dir = Some a
                 /\ url a = "https://example.com/" /\ version a = 2)
  /\ maxOf (@storedVersions SimpleUrl.parser (storage archived_twice)
              "https://example.com/") = 2
  /\ fst d = Ok tt
  /\ exists a s', r = (Ok a, s') /\ url a = "https://example.com/" /\ version a = 2.
Proof.
  intros d r. split; [|split; [|split]].
  - eexists _, _. split; [vm_compute; reflexivity|].
    split; [reflexivity|]. split; reflexivity.
  - vm_compute. reflexivity.
  - vm_compute. reflexivity.
  - eexists _, _. split; [vm_compute; reflexivity|]. split; reflexivity.
Qed.

(** * Failed asset downloads *)

Section PathFacts.

Lemma truthy_app_l (a b : string) : Js.truthy a = true -> Js.truthy (a +:+ b) = true.
Proof. destruct a; [discriminate|reflexivity]. Qed.

Lemma truthy_app_r (a b : string) : Js.truthy b = true -> Js.truthy (a +:+ b) = true.
Proof. destruct a; [auto|reflexivity]. Qed.

(** [path.normalize] never returns the empty string. *)
Lemma normalize_nonempty (p : string) : Js.truthy (NodePath.normalize p) = true.
Proof.
  unfold NodePath.normalize.
  destruct (negb (Js.truthy p)); [reflexivity|].
  destruct (negb (Js.truthy (Js.join "/" _))) eqn:Hb.
  - destruct (Js.startsWith p "/"); [reflexivity|].
    destruct (Js.endsWith p "/"); reflexivity.
  - apply negb_false_iff in Hb.
    destruct (Js.startsWith p "/"); destruct (Js.endsWith p "/");
      auto using truthy_app_l, truthy_app_r.
Qed.

Lemma join_nonempty (parts : list string) : Js.truthy (NodePath.join parts) = true.
Proof.
  unfold NodePath.join. destruct (List.filter Js.truthy parts); [reflexivity|].
  apply normalize_nonempty.
Qed.

Lemma truthy_ne (s : string) : Js.truthy s = true -> s <> "".
Proof. intros H ->. discriminate. Qed.

End PathFacts.

Section StorageFacts.
Context {parser : UrlParser}.

Lemma assetRelativePath_nonempty (u : string) (t : AssetType) (path : string) :
  FileNaming.assetRelativePath u t = Ok path -> path <> "".
Proof.
  unfold FileNaming.assetRelativePath.
  destruct (FileNaming.generateAssetFileName u t) as [name|m]; [|discriminate].
  cbn [exc_bind]. intros [= <-]. apply truthy_ne, join_nonempty.
Qed.

Lemma assetRelativePath_valid (u : string) (t : AssetType) :
  isValidUrl u = true -> exists path, FileNaming.assetRelativePath u t = Ok path.
Proof.
  unfold isValidUrl, FileNaming.assetRelativePath, FileNaming.generateAssetFileName.
  destruct (new_URL u) as [o|]; [|discriminate]. intros _. cbn.
  destruct (Js.truthy (search o)); [cbn; eauto|].
  destruct (String.eqb _ _); cbn; eauto.
Qed.

Lemma extends_refl (archiveId : string) (st : Storage) :
  faults st = [] -> extends archiveId st st.
Proof. intros H. split; [exact H|]. split; auto. Qed.

Lemma extends_trans (archiveId : string) (st1 st2 st3 : Storage) :
  extends archiveId st1 st2 -> extends archiveId st2 st3 ->
  extends archiveId st1 st3.
Proof.
  intros (_ & Hd1 & Hs1) (Hf & Hd2 & Hs2). split; [exact Hf|]. split; auto.
Qed.

Lemma write_file_extends (archiveId path content : string) (st : Storage) :
  faults st = [] ->
  extends archiveId st (FileService.write_file st archiveId path content)
  /\ stored (FileService.write_file st archiveId path content) archiveId path
  /\ is_Some (dirs (FileService.write_file st archiveId path content) !! archiveId).
Proof.
  intros Hf. unfold FileService.write_file, FileService.dir_or_new.
  split; [|split].
  - split; [exact Hf|]. split.
    + intros _. cbn. rewrite lookup_insert_eq. eauto.
    + intros p (d & Hd & Hp). cbn. rewrite Hd. cbn.
      eexists. split; [apply lookup_insert_eq|]. cbn.
      destruct (decide (path = p)) as [->|Hne].
      * rewrite lookup_insert_eq. eauto.
      * rewrite lookup_insert_ne by exact Hne. exact Hp.
  - cbn. eexists. split; [apply lookup_insert_eq|]. cbn.
    rewrite lookup_insert_eq. eauto.
  - cbn. rewrite lookup_insert_eq. eauto.
Qed.

Lemma saveAsset_healthy (st : Storage) (u content archiveId path : string)
  (t : AssetType) :
  faults st = [] ->
  FileNaming.assetRelativePath u t = Ok path ->
  FileService.saveAsset st u content archiveId t
  = (Ok path, FileService.write_file st archiveId path content).
Proof.
  intros Hf Hp. unfold FileService.saveAsset.
  rewrite Hp, (fs_call_healthy _ Hf). reflexivity.
Qed.

Lemma saveAsset_extends (st : Storage) (u content archiveId : string)
  (t : AssetType) :
  faults st = [] ->
  extends archiveId st (snd (FileService.saveAsset st u content archiveId t)).
Proof.
  intros Hf. unfold FileService.saveAsset.
  destruct (FileNaming.assetRelativePath u t) as [path|m]; cbn.
  - rewrite (fs_call_healthy _ Hf). cbn. apply write_file_extends, Hf.
  - apply extends_refl, Hf.
Qed.

Lemma saveHtml_healthy (st : Storage) (content pagePath archiveId : string) :
  faults st = [] ->
  exists full,
    FileService.saveHtml st content pagePath archiveId
    = (Ok full, FileService.write_file st archiveId full content).
Proof.
  intros Hf. unfold FileService.saveHtml. rewrite (fs_call_healthy _ Hf). eauto.
Qed.

Lemma saveArchiveMetadata_healthy (st : Storage) (a : Archive) :
  faults st = [] -> is_Some (dirs st !! id a) ->
  exists st',
    FileService.saveArchiveMetadata st a = (Ok tt, st')
    /\ extends (id a) st st'
    /\ exists d, dirs st' !! id a = Some d /\ manifest d = Some a
                 /\ forall p, stored st (id a) p -> is_Some (files d !! p).
Proof.
  intros Hf [d Hd]. unfold FileService.saveArchiveMetadata.
  rewrite (fs_call_healthy _ Hf), Hd. eexists. split; [reflexivity|]. split.
  - split; [exact Hf|]. split.
    + intros _. cbn. rewrite lookup_insert_eq. eauto.
    + intros p (d' & Hd' & Hp). rewrite Hd in Hd'. injection Hd' as <-.
      eexists. split; [cbn; apply lookup_insert_eq|]. exact Hp.
  - eexists. split; [cbn; apply lookup_insert_eq|]. split; [reflexivity|].
    intros p (d' & Hd' & Hp). rewrite Hd in Hd'. injection Hd' as <-. exact Hp.
Qed.

End StorageFacts.

Section DownloadFacts.
Context {parser : UrlParser}.
Variable w : World.
Variable now : nat.
Variable archiveId : string.

Lemma downloadAssetContent_failed (idx : nat) (u : string) (failure : AxiosFailure) :
  download w idx u = DownloadFailed failure ->
  ArchiveService.downloadAssetContent w idx u
  = Throw (downloadFailureMessage u failure).
Proof.
  intros H. unfold ArchiveService.downloadAssetContent. rewrite H.
  destruct failure; reflexivity.
Qed.

(** One failed download on a healthy storage: exactly one error is
    pushed, and the placeholder is saved under the path of the asset. *)
Lemma downloadAsset_failed (allAssets : list Asset) (idx : nat) (asset : Asset)
  (st : Storage) (progress : ArchiveProgress) (failure : AxiosFailure)
  (path : string) :
  download w idx (originalUrl asset) = DownloadFailed failure ->
  faults st = [] ->
  FileNaming.assetRelativePath (originalUrl asset) (assetType asset) = Ok path ->
  ArchiveService.downloadAsset w now archiveId allAssets idx asset st progress
  = (ArchiveService.set_local asset path
       (String.length (placeholder (originalUrl asset))),
     FileService.write_file st archiveId path (placeholder (originalUrl asset)),
     ArchiveService.push_error progress
       (ArchiveService.downloadError now (originalUrl asset)
          (downloadFailureMessage (originalUrl asset) failure))).
Proof.
  intros Hd Hf Hp. unfold ArchiveService.downloadAsset, ArchiveService.tryDownload.
  rewrite (downloadAssetContent_failed _ _ _ Hd).
  rewrite (saveAsset_healthy _ _ _ _ _ _ Hf Hp). reflexivity.
Qed.

(** Whatever happens to one download, a healthy storage stays healthy,
    keeps its files, and the list of errors only grows. *)
Lemma downloadAsset_frame (allAssets : list Asset) (idx : nat) (asset : Asset)
  (st : Storage) (progress : ArchiveProgress) :
  faults st = [] ->
  let r := ArchiveService.downloadAsset w now archiveId allAssets idx asset st progress in
  extends archiveId st (snd (fst r))
  /\ exists extra, p_errors (snd r) = p_errors progress ++ extra.
Proof.
  intros Hf. unfold ArchiveService.downloadAsset, ArchiveService.tryDownload.
  destruct (ArchiveService.downloadAssetContent w idx (originalUrl asset))
    as [content|m].
  - match goal with
    | |- context [FileService.saveAsset st ?u ?c ?i ?t] =>
        pose proof (saveAsset_extends st u c i t Hf) as He;
        destruct (FileService.saveAsset st u c i t) as [[p|m] st1]
    end; cbn in He.
    + cbn. split; [exact He|]. exists []. rewrite app_nil_r. reflexivity.
    + cbn.
      match goal with
      | |- context [FileService.saveAsset st1 ?u ?c ?i ?t] =>
          pose proof (saveAsset_extends st1 u c i t (proj1 He)) as He2;
          destruct (FileService.saveAsset st1 u c i t) as [[p|m2] st2]
      end; cbn in He2; cbn;
        (split; [eapply extends_trans; eassumption|eauto]).
  - cbn.
    match goal with
    | |- context [FileService.saveAsset st ?u ?c ?i ?t] =>
        pose proof (saveAsset_extends st u c i t Hf) as He;
        destruct (FileService.saveAsset st u c i t) as [[p|m2] st1]
    end; cbn in He; cbn; (split; [exact He|eauto]).
Qed.

Lemma downloadAssets_go_spec (todo : list Asset) :
  forall (finished : list Asset) (st : Storage) (progress : ArchiveProgress)
         (out : list Asset) (st' : Storage) (p' : ArchiveProgress),
    faults st = [] ->
    ArchiveService.downloadAssets_go w now archiveId finished todo st progress
    = (out, st', p') ->
    extends archiveId st st'
    /\ List.length out = List.length finished + List.length todo
    /\ (exists extra, p_errors p' = p_errors progress ++ extra)
    /\ (forall i a, finished !! i = Some a -> out !! i = Some a)
    /\ (forall i asset failure path,
          todo !! i = Some asset ->
          download w (List.length finished + i) (originalUrl asset)
          = DownloadFailed failure ->
          FileNaming.assetRelativePath (originalUrl asset) (assetType asset)
          = Ok path ->
          out !! (List.length finished + i)
          = Some (ArchiveService.set_local asset path
                    (String.length (placeholder (originalUrl asset))))
          /\ stored st' archiveId path
          /\ In (ArchiveService.downloadError now (originalUrl asset)
                   (downloadFailureMessage (originalUrl asset) failure))
               (p_errors p')).
Proof.
  induction todo as [|asset rest IH]; intros finished st progress out st' p' Hf Hgo.
  - cbn in Hgo. injection Hgo as <- <- <-.
    split; [apply extends_refl, Hf|]. split; [cbn; lia|].
    split; [exists []; rewrite app_nil_r; reflexivity|]. split; [auto|].
    intros i a f p Hi. rewrite lookup_nil in Hi. discriminate.
  - cbn [ArchiveService.downloadAssets_go] in Hgo.
    pose proof (downloadAsset_frame (finished ++ asset :: rest)
                  (List.length finished) asset st progress Hf) as Hfr.
    destruct (ArchiveService.downloadAsset w now archiveId (finished ++ asset :: rest)
                (List.length finished) asset st progress) as [[a1 st1] p1] eqn:Hstep.
    cbn in Hfr. destruct Hfr as (Hext1 & extra1 & Herr1).
    destruct (IH _ _ _ _ _ _ (proj1 Hext1) Hgo)
      as (Hext & Hlen & (extra & Herr) & Hpre & Hfail).
    split; [eapply extends_trans; eassumption|].
    split; [rewrite Hlen, length_app; cbn; lia|].
    split; [exists (extra1 ++ extra); rewrite Herr, Herr1, app_assoc; reflexivity|].
    split.
    { intros i a Hi. apply Hpre. apply lookup_app_l_Some. exact Hi. }
    intros [|i] a failure path Hi Hd Hp.
    + cbn in Hi. injection Hi as <-. rewrite Nat.add_0_r in *.
      rewrite (downloadAsset_failed _ _ _ _ _ _ _ Hd Hf Hp) in Hstep.
      injection Hstep as <- <- <-.
      split; [|split].
      * apply Hpre. rewrite lookup_app_r by lia. rewrite Nat.sub_diag. reflexivity.
      * apply (proj2 (proj2 Hext)). apply write_file_extends, Hf.
      * rewrite Herr. apply in_or_app. left. cbn. apply in_or_app. right.
        left. reflexivity.
    + cbn in Hi.
      replace (List.length finished + S i)
        with (List.length (finished ++ [a1]) + i) in *
        by (rewrite length_app; cbn; lia).
      apply (Hfail i a failure path Hi Hd Hp).
Qed.

Lemma processPages_healthy (ps : list ArchivedPage) :
  forall (acc : list ArchivedPage) (st : Storage) (progress : ArchiveProgress),
    faults st = [] ->
    exists st' p',
      ArchiveService.processPages w now archiveId ps acc st progress
      = (acc ++ List.map withoutHtml ps, st', p')
      /\ extends archiveId st st'
      /\ p_errors p' = p_errors progress.
Proof.
  induction ps as [|page rest IH]; intros acc st progress Hf.
  - cbn. eexists _, _. rewrite app_nil_r. split; [reflexivity|].
    split; [apply extends_refl, Hf|reflexivity].
  - cbn [ArchiveService.processPages]. unfold ArchiveService.processPage.
    match goal with
    | |- context [FileService.saveHtml st ?c ?pp ?i] =>
        destruct (saveHtml_healthy st c pp i Hf) as [full ->];
        pose proof (write_file_extends i full c st Hf) as (Hext & _ & _)
    end.
    cbn [fst snd].
    edestruct (IH (acc ++ [withoutHtml page])) as (st' & p' & Hr & Hext' & Herr);
      [exact (proj1 Hext)|].
    unfold withoutHtml in Hr at 1. rewrite Hr.
    eexists _, _. split; [rewrite <- app_assoc; reflexivity|].
    split; [eapply extends_trans; eassumption|exact Herr].
Qed.

End DownloadFacts.

Lemma regroup_assets (ps : list ArchivedPage) :
  forall flat : list Asset,
    List.length flat = List.length (List.concat (List.map assets ps)) ->
    List.concat (List.map assets (List.map withoutHtml (regroup ps flat))) = flat.
Proof.
  induction ps as [|p rest IH]; intros flat Hlen; cbn in *.
  - destruct flat; [reflexivity|discriminate].
  - rewrite length_app in Hlen.
    rewrite IH by (rewrite length_skipn; lia).
    apply firstn_skipn.
Qed.

(** C4.  For every asset whose download fails, on a storage that accepts
    the writes: the download step records exactly one error, a recoverable
    STORAGE_ERROR for the URL of the asset, and saves the placeholder; at
    the end of the run the asset recorded in the manifest has a non-empty
    [localPath] under which a file exists and a size equal to the length
    of the placeholder, the error is in the manifest, and the status of
    the archive, in the registry and in the manifest, is PARTIAL. *)
Theorem failed_download_keeps_placeholder {parser : UrlParser} (w : World)
  (s : Service) (archive : Archive) (progress : ArchiveProgress)
  (r : option (nat * nat * string)) (result : CrawlResult)
  (idx : nat) (asset : Asset) (failure : AxiosFailure) :
  activeArchives s !! id archive = Some progress ->
  faults (storage s) = [] ->
  is_Some (dirs (storage s) !! id archive) ->
  List.concat (List.map assets (cr_pages result)) !! idx = Some asset ->
  download w idx (originalUrl asset) = DownloadFailed failure ->
  isValidUrl (originalUrl asset) = true ->
  let s' := ArchiveService.finishArchiving w s archive (mkOutcome r (Ok result)) in
  let e := mkError (clock s) STORAGE_ERROR
             ("Failed to download asset " +:+ originalUrl asset +:+ ": "
              +:+ downloadFailureMessage (originalUrl asset) failure)
             (Some (originalUrl asset)) true in
  (forall allAssets st p,
     faults st = [] ->
     exists asset' st',
       ArchiveService.downloadAsset w (clock s) (id archive) allAssets idx asset st p
       = (asset', st', ArchiveService.push_error p e)
       /\ localPath asset' <> ""
       /\ asset_size asset' = String.length (placeholder (originalUrl asset))
       /\ exists d, dirs st' !! id archive = Some d
                    /\ files d !! localPath asset'
                       = Some (placeholder (originalUrl asset)))
  /\ exists p' d a asset',
       activeArchives s' !! id archive = Some p'
       /\ p_status p' = PARTIAL
       /\ dirs (storage s') !! id archive = Some d
       /\ manifest d = Some a
       /\ status a = PARTIAL
       /\ In e (errors a)
       /\ List.concat (List.map assets (pages a)) !! idx = Some asset'
       /\ originalUrl asset' = originalUrl asset
       /\ localPath asset' <> ""
       /\ asset_size asset' = String.length (placeholder (originalUrl asset))
       /\ is_Some (files d !! localPath asset').
Proof.
  intros Hp Hf Hdir Hidx Hdl Hvalid s' e.
  destruct (assetRelativePath_valid (originalUrl asset) (assetType asset) Hvalid)
    as [path Hpath].
  pose proof (assetRelativePath_nonempty _ _ _ Hpath) as Hne.
  split.
  - intros allAssets st p Hfst.
    rewrite (downloadAsset_failed w (clock s) (id archive) allAssets idx asset st p
               failure path Hdl Hfst Hpath).
    eexists _, _. split; [reflexivity|]. split; [exact Hne|].
    split; [reflexivity|].
    unfold FileService.write_file. cbn.
    eexists. split; [apply lookup_insert_eq|]. cbn. apply lookup_insert_eq.
  - subst s'. unfold ArchiveService.finishArchiving. rewrite Hp.
    cbn [outcome lastReport]. unfold ArchiveService.archivingBody.
    unfold ArchiveService.downloadAssets.
    set (p0 := mkProgress _ _ _ _ _ _ _ _ _ _).
    destruct (ArchiveService.downloadAssets_go w (clock s) (id archive) []
                (List.concat (List.map assets (cr_pages result))) (storage s) p0)
      as [[out st1] p1] eqn:Hgo.
    destruct (downloadAssets_go_spec w (clock s) (id archive) _ _ _ _ _ _ _ Hf Hgo)
      as (Hext1 & Hlen & _ & _ & Hfail).
    destruct (Hfail idx asset failure path Hidx Hdl Hpath) as (Hout & Hst1 & Hin1).
    cbn in Hout, Hlen.
    destruct (processPages_healthy w (clock s) (id archive)
                (regroup (cr_pages result) out) [] st1 p1 (proj1 Hext1))
      as (st2 & p2 & Hpp & Hext2 & Herr2).
    rewrite Hpp. cbn [app].
    assert (Hin2 : In e (p_errors p2)) by (rewrite Herr2; exact Hin1).
    assert (Hfinal : ArchiveService.finalStatus (p_errors p2) = PARTIAL).
    { unfold ArchiveService.finalStatus. destruct (p_errors p2); [destruct Hin2|].
      reflexivity. }
    match goal with
    | |- context [FileService.saveArchiveMetadata st2 ?fa] =>
        destruct (saveArchiveMetadata_healthy st2 fa (proj1 Hext2))
          as (st3 & Hsave & _ & d & Hd & Hman & Hfiles);
        [cbn [id]; apply (proj1 (proj2 Hext2)), (proj1 (proj2 Hext1)), Hdir|];
        rewrite Hsave
    end.
    cbn [id] in Hd.
    eexists _, d, _, _. cbn.
    split; [apply lookup_insert_eq|]. split; [cbn; exact Hfinal|].
    split; [exact Hd|]. split; [exact Hman|]. split; [cbn; exact Hfinal|].
    split; [cbn; exact Hin2|].
    split.
    { cbn. rewrite regroup_assets by exact Hlen. exact Hout. }
    split; [reflexivity|]. split; [exact Hne|]. split; [reflexivity|].
    cbn. apply Hfiles. cbn [id]. apply (proj2 (proj2 Hext2)). exact Hst1.
Qed.

Example example_result_pages :
  List.map page_url (cr_pages example_result)
  = ["https://example.com/"; "https://example.com/about"]
  /\ List.concat (List.map assets (cr_pages example_result)) !! 0 = Some logo_asset.
Proof. split; vm_compute; reflexivity. Qed.

Lemma failed_download_keeps_placeholder_witness :
  let s := snd created_service in
  let s' := @ArchiveService.finishArchiving SimpleUrl.parser example_world s
              created_archive (mkOutcome None (Ok example_result)) in
  download example_world 0 (originalUrl logo_asset)
  = DownloadFailed (NetworkFailure "ECONNRESET")
  /\ exists p' d a asset',
       activeArchives s' !! "id0" = Some p'
       /\ p_status p' = PARTIAL
       /\ dirs (storage s') !! "id0" = Some d
       /\ manifest d = Some a
       /\ status a = PARTIAL
       /\ List.concat (List.map assets (pages a)) !! 0 = Some asset'
       /\ localPath asset' <> ""
       /\ asset_size asset' = 56.
Proof.
  intros s s'.
  assert (Hdl : download example_world 0 (originalUrl logo_asset)
                = DownloadFailed (NetworkFailure "ECONNRESET")) by reflexivity.
  split; [exact Hdl|].
  destruct (@failed_download_keeps_placeholder SimpleUrl.parser example_world s
              created_archive
              (mkProgress "id0" "https://example.com/" IN_PROGRESS 0 0 0 0 [] 0 None)
              None example_result 0 logo_asset (NetworkFailure "ECONNRESET")
              ltac:(vm_compute; reflexivity) ltac:(vm_compute; reflexivity)
              ltac:(vm_compute; eauto) ltac:(vm_compute; reflexivity)
              Hdl ltac:(vm_compute; reflexivity))
    as (_ & p' & d & a & asset' & H1 & H2 & H3 & H4 & H5 & _ & H7 & _ & H9 & H10 & _).
  exists p', d, a, asset'.
  split; [exact H1|]. split; [exact H2|]. split; [exact H3|]. split; [exact H4|].
  split; [exact H5|]. split; [exact H7|]. split; [exact H9|]. exact H10.
Defined.

(** * Further properties of the crawler *)

Section PriorityOrder.
Context {parser : UrlParser}.

Lemma key_le_total (a b : nat * nat) :
  Crawler.key_le a b = false -> Crawler.key_le b a = true.
Proof.
  unfold Crawler.key_le. destruct a as [a1 a2], b as [b1 b2]; cbn [fst snd].
  destruct (Nat.ltb_spec a1 b1), (Nat.ltb_spec b1 a1),
    (Nat.eqb_spec a1 b1), (Nat.eqb_spec b1 a1),
    (Nat.leb_spec a2 b2), (Nat.leb_spec b2 a2); cbn; intros; try reflexivity;
    try discriminate; lia.
Qed.

Lemma key_le_trans (a b c : nat * nat) :
  Crawler.key_le a b = true -> Crawler.key_le b c = true ->
  Crawler.key_le a c = true.
Proof.
  unfold Crawler.key_le.
  destruct a as [a1 a2], b as [b1 b2], c as [c1 c2]; cbn [fst snd].
  destruct (Nat.ltb_spec a1 b1), (Nat.ltb_spec b1 c1), (Nat.ltb_spec a1 c1),
    (Nat.eqb_spec a1 b1), (Nat.eqb_spec b1 c1), (Nat.eqb_spec a1 c1),
    (Nat.leb_spec a2 b2), (Nat.leb_spec b2 c2), (Nat.leb_spec a2 c2);
    cbn; intros; try reflexivity; try discriminate; lia.
Qed.

Lemma insert_by_key_Permutation (x : string) (l : list string) :
  Permutation (Crawler.insert_by_key x l) (x :: l).
Proof.
  induction l as [|y l IH]; cbn; [reflexivity|].
  destruct (Crawler.key_le _ _); [|reflexivity].
  rewrite IH. apply perm_swap.
Qed.

Lemma insert_by_key_sorted (x : string) (l : list string) :
  StronglySorted before l -> StronglySorted before (Crawler.insert_by_key x l).
Proof.
  induction 1 as [|y l Hs IH Hall]; cbn.
  - repeat constructor.
  - destruct (Crawler.key_le (Crawler.sortKey y) (Crawler.sortKey x)) eqn:Hle.
    + constructor; [exact IH|].
      rewrite insert_by_key_Permutation. constructor; assumption.
    + apply key_le_total in Hle.
      constructor; [constructor; assumption|].
      constructor; [exact Hle|].
      eapply List.Forall_impl; [|exact Hall].
      intros z Hz. eapply key_le_trans; eassumption.
Qed.

Lemma sort_by_key_fold (l acc : list string) :
  StronglySorted before acc ->
  StronglySorted before
    (List.fold_left (fun acc x => Crawler.insert_by_key x acc) l acc)
  /\ Permutation
       (List.fold_left (fun acc x => Crawler.insert_by_key x acc) l acc)
       (l ++ acc).
Proof.
  revert acc. induction l as [|x l IH]; intros acc Hs; cbn.
  - split; [exact Hs|reflexivity].
  - destruct (IH _ (insert_by_key_sorted x acc Hs)) as [H1 H2].
    split; [exact H1|].
    rewrite H2, insert_by_key_Permutation. symmetry. apply Permutation_middle.
Qed.

Lemma sort_by_key_spec (l : list string) :
  StronglySorted before (Crawler.sort_by_key l)
  /\ Permutation (Crawler.sort_by_key l) l.
Proof.
  unfold Crawler.sort_by_key.
  destruct (sort_by_key_fold l [] (SSorted_nil _)) as [H1 H2].
  split; [exact H1|]. rewrite H2, app_nil_r. reflexivity.
Qed.

Lemma StronglySorted_firstn {A} (R : A -> A -> Prop) (n : nat) (l : list A) :
  StronglySorted R l -> StronglySorted R (List.firstn n l).
Proof.
  intros Hs. revert n. induction Hs as [|x l Hs IH Hall]; intros [|n]; cbn;
    try constructor.
  - apply IH.
  - apply Forall_take, Hall.
Qed.

End PriorityOrder.

Section ExtractValidUrls.
Context {parser : UrlParser}.
Variable st : Crawler.State.
Variable links0 : list string.

(** What the loop of [extractValidUrls] lets through. *)
Let admitted (u : string) : Prop :=
  (exists link, In link links0 /\ normalizeUrl link = Some u)
  /\ isValidUrl u = true
  /\ extractDomain u = Some (Crawler.currentDomain st)
  /\ (u ∉ Crawler.visitedUrls st)
  /\ Crawler.shouldSkipUrl u = false.

Lemma collectValidUrls_spec (ls : list string) :
  forall (seenUrls : gset string) (validUrls : list string),
    (forall link, In link ls -> In link links0) ->
    Forall admitted validUrls -> NoDup validUrls ->
    (forall u, u ∈ validUrls -> u ∈ seenUrls) ->
    Forall admitted (Crawler.collectValidUrls st ls seenUrls validUrls)
    /\ NoDup (Crawler.collectValidUrls st ls seenUrls validUrls).
Proof.
  induction ls as [|link rest IH]; intros seen acc Hin Hadm Hnd Hseen; cbn.
  - split; assumption.
  - assert (Hrest : forall l, In l rest -> In l links0)
      by (intros; apply Hin; right; assumption).
    destruct (normalizeUrl link) as [n|] eqn:Hn; [|apply IH; assumption].
    destruct (Js.truthy n); cbn [negb]; [|apply IH; assumption].
    case_bool_decide as Hs; [apply IH; assumption|].
    assert (Hseen' : forall u, u ∈ acc -> u ∈ {[n]} ∪ seen)
      by (intros u Hu; apply elem_of_union_r, Hseen, Hu).
    case_bool_decide as Hv; [apply IH; assumption|].
    destruct (isValidUrl n) eqn:Hval; cbn [negb]; [|apply IH; assumption].
    case_bool_decide as Hd; cbn [negb]; [|apply IH; assumption].
    destruct (Crawler.shouldSkipUrl n) eqn:Hskip; [apply IH; assumption|].
    apply IH; [assumption| | |].
    + apply Forall_app. split; [exact Hadm|]. constructor; [|constructor].
      split; [exists link; split; [apply Hin; left; reflexivity|exact Hn]|].
      repeat split; assumption.
    + apply NoDup_app. split; [exact Hnd|]. split; [|apply NoDup_singleton].
      intros x Hx Hx'. apply list_elem_of_singleton in Hx'. subst x.
      apply Hs, Hseen, Hx.
    + intros u Hu. apply elem_of_app in Hu as [Hu|Hu]; [apply Hseen', Hu|].
      apply list_elem_of_singleton in Hu. subst u.
      apply elem_of_union_l, elem_of_singleton. reflexivity.
Qed.

Lemma extractValidUrls_admitted (options : CrawlerOptions) :
  Forall admitted (Crawler.extractValidUrls st links0 options)
  /\ NoDup (Crawler.extractValidUrls st links0 options).
Proof.
  unfold Crawler.extractValidUrls.
  destruct (collectValidUrls_spec links0 ∅ [] (fun _ H => H) (List.Forall_nil _)
              (NoDup_nil_2)) as [Ha Hn].
  { intros u Hu. apply elem_of_nil in Hu. destruct Hu. }
  destruct (sort_by_key_spec (Crawler.collectValidUrls st links0 ∅ [])) as [_ Hp].
  split.
  - apply Forall_take. rewrite Hp. exact Ha.
  - eapply sublist_NoDup; [|apply sublist_take]. rewrite Hp. exact Hn.
Qed.

End ExtractValidUrls.

(** The URLs [extractValidUrls] returns for the links of a page: at most
    thirty, without repetition; each is the normalized form of one of the
    links, is an http(s) URL of the domain being crawled, has not been
    visited, and matches none of the skip patterns. *)
Theorem extractValidUrls_sound {parser : UrlParser}
  (st : Crawler.State) (ls : list string) (options : CrawlerOptions) :
  let out := Crawler.extractValidUrls st ls options in
  List.length out <= 30
  /\ NoDup out
  /\ Forall (fun u =>
               (exists link, In link ls /\ normalizeUrl link = Some u)
               /\ isValidUrl u = true
               /\ extractDomain u = Some (Crawler.currentDomain st)
               /\ (u ∉ Crawler.visitedUrls st)
               /\ Crawler.shouldSkipUrl u = false) out.
Proof.
  intros out. destruct (extractValidUrls_admitted st ls options) as [Ha Hn].
  split; [apply firstn_le_length|]. split; [exact Hn|exact Ha].
Qed.

(** The URLs [extractValidUrls] returns are in priority order: a URL
    without a query string comes before every URL with one, and of two
    URLs that both have or both lack a query string the one with the
    shorter path comes first. *)
Theorem extractValidUrls_sorted {parser : UrlParser}
  (st : Crawler.State) (ls : list string) (options : CrawlerOptions) :
  StronglySorted before (Crawler.extractValidUrls st ls options)
  /\ (forall a b oa ob,
        before a b -> new_URL a = Some oa -> new_URL b = Some ob ->
        (Js.truthy (search oa) = true -> Js.truthy (search ob) = true)
        /\ (Js.truthy (search oa) = Js.truthy (search ob) ->
            String.length (pathname oa) <= String.length (pathname ob))).
Proof.
  split.
  - unfold Crawler.extractValidUrls. apply StronglySorted_firstn.
    apply sort_by_key_spec.
  - intros a b oa ob Hab Ha Hb. unfold before, Crawler.sortKey, Crawler.key_le in Hab.
    rewrite Ha, Hb in Hab. cbn [fst snd] in Hab.
    assert (Hq : forall s, (0 <? String.length s) = Js.truthy s)
      by (intros [|c s]; reflexivity).
    rewrite !Hq in Hab.
    destruct (Js.truthy (search oa)), (Js.truthy (search ob)); cbn in Hab;
      try discriminate; (split; [auto|]); intros; try discriminate;
      apply Nat.leb_le, Hab.
Qed.

Section CrawlRun.
Context {parser : UrlParser}.
Variable fetch : nat -> string -> FetchResult.
Variable now : nat.
Variable options : CrawlerOptions.

(** A request ends in a page for the requested URL, or in one error that
    names the URL. *)
Lemma crawlPage_result (st : Crawler.State) (u : string) (t : nat) :
  (exists d,
     Crawler.crawlPageWithHttp fetch now st u t
     = (Some (Crawler.pageOfDom now u d),
        Crawler.mkState (Crawler.visitedUrls st) (Crawler.crawledPages st)
          (Crawler.c_errors st) (Crawler.urlQueue st) (Crawler.currentDomain st)
          (Crawler.requested st ++ [u])))
  \/ (exists e,
        Crawler.crawlPageWithHttp fetch now st u t
        = (None,
           Crawler.mkState (Crawler.visitedUrls st) (Crawler.crawledPages st)
             (Crawler.c_errors st ++ [e]) (Crawler.urlQueue st)
             (Crawler.currentDomain st) (Crawler.requested st ++ [u]))
        /\ err_url e = Some u /\ recoverable e = true
        /\ (err_type e = NETWORK_ERROR \/ err_type e = TIMEOUT_ERROR)).
Proof.
  unfold Crawler.crawlPageWithHttp.
  destruct (fetch _ _) as [[| | |]|]; [right|right|right|right|left];
    eexists; (split; [reflexivity|]) || reflexivity; cbn; auto.
Qed.

(** The three ways an iteration of the crawl loop goes. *)
Lemma loopStep_cases (st st' : Crawler.State) :
  Crawler.loopStep fetch now options st = Some st' ->
  exists cur q,
    Crawler.urlQueue st = cur :: q
    /\ List.length (Crawler.crawledPages st) < Crawler.pageLimit options
    /\ ((cur ∈ Crawler.visitedUrls st
         /\ st' = Crawler.mkState (Crawler.visitedUrls st) (Crawler.crawledPages st)
                    (Crawler.c_errors st) q (Crawler.currentDomain st)
                    (Crawler.requested st))
        \/ ((cur ∉ Crawler.visitedUrls st)
            /\ exists e,
                 err_url e = Some cur /\ recoverable e = true
                 /\ (err_type e = NETWORK_ERROR \/ err_type e = TIMEOUT_ERROR)
                 /\ st' = Crawler.mkState ({[cur]} ∪ Crawler.visitedUrls st)
                            (Crawler.crawledPages st) (Crawler.c_errors st ++ [e])
                            q (Crawler.currentDomain st)
                            (Crawler.requested st ++ [cur]))
        \/ ((cur ∉ Crawler.visitedUrls st)
            /\ exists d new,
                 let page := Crawler.pageOfDom now cur d in
                 let st1 := Crawler.mkState ({[cur]} ∪ Crawler.visitedUrls st)
                              (Crawler.crawledPages st ++ [page])
                              (Crawler.c_errors st) q (Crawler.currentDomain st)
                              (Crawler.requested st ++ [cur]) in
                 st' = Crawler.mkState ({[cur]} ∪ Crawler.visitedUrls st)
                         (Crawler.crawledPages st ++ [page])
                         (Crawler.c_errors st) (q ++ new) (Crawler.currentDomain st)
                         (Crawler.requested st ++ [cur])
                 /\ forall u, In u new ->
                      In u (Crawler.extractValidUrls st1 (links page) options))).
Proof.
  unfold Crawler.loopStep. intros Hstep.
  destruct (Crawler.urlQueue st) as [|cur q] eqn:Hq; [discriminate|].
  rewrite lt_length_limit in Hstep.
  destruct (List.length (Crawler.crawledPages st) <? Crawler.pageLimit options) eqn:Hlt;
    cbn -[Nat.ltb] in Hstep; [|discriminate].
  apply Nat.ltb_lt in Hlt.
  exists cur, q. split; [reflexivity|]. split; [exact Hlt|].
  case_bool_decide as Hvis.
  - left. injection Hstep as <-. auto.
  - right.
    match type of Hstep with
    | context [Crawler.crawlPageWithHttp _ _ ?s ?u ?t] =>
        destruct (crawlPage_result s u t) as [(d & Hr)|(e & Hr & He)];
        rewrite Hr in Hstep
    end; cbn -[Nat.ltb] in Hstep.
    + right. split; [exact Hvis|]. exists d.
      destruct (Js.lt_length _ _); injection Hstep as <-.
      * eexists. split; [reflexivity|]. intros u Hu.
        apply List.filter_In in Hu. apply Hu.
      * exists []. rewrite app_nil_r. split; [reflexivity|]. intros u [].
    + left. injection Hstep as <-. split; [exact Hvis|]. exists e.
      destruct He as (? & ? & ?). auto.
Qed.

Lemma crawlLoop_preserves (P : Crawler.State -> Prop) :
  (forall st st', Crawler.loopStep fetch now options st = Some st' -> P st -> P st') ->
  forall fuel st st',
    Crawler.crawlLoop fetch now fuel options st = Some st' -> P st -> P st'.
Proof.
  intros Hstep fuel. induction fuel as [|fuel IH]; intros st st'; cbn.
  - destruct (Crawler.loopStep fetch now options st); [discriminate|].
    intros [= <-]. auto.
  - destruct (Crawler.loopStep fetch now options st) as [st1|] eqn:Hs.
    + intros Hl Hp. eapply IH; [exact Hl|]. eapply Hstep; eassumption.
    + intros [= <-]. auto.
Qed.

(** The loop stops only when its condition is false. *)
Lemma loopStep_None (st : Crawler.State) :
  Crawler.loopStep fetch now options st = None ->
  Crawler.urlQueue st = []
  \/ Crawler.pageLimit options <= List.length (Crawler.crawledPages st).
Proof.
  unfold Crawler.loopStep. intros Hs.
  destruct (Crawler.urlQueue st) as [|cur q]; [left; reflexivity|].
  rewrite lt_length_limit in Hs.
  destruct (_ <? _) eqn:Hlt; cbn -[Nat.ltb] in Hs;
    [|right; apply Nat.ltb_ge, Hlt].
  case_bool_decide; [discriminate|].
  destruct (Crawler.crawlPageWithHttp _ _ _ _ _) as [[pg|] s1];
    cbn -[Nat.ltb] in Hs; [|discriminate].
  destruct (Js.lt_length _ _) in Hs; discriminate.
Qed.

Lemma crawlLoop_final (fuel : nat) (st st' : Crawler.State) :
  Crawler.crawlLoop fetch now fuel options st = Some st' ->
  Crawler.urlQueue st' = []
  \/ Crawler.pageLimit options <= List.length (Crawler.crawledPages st').
Proof.
  revert st. induction fuel as [|fuel IH]; intros st; cbn;
    destruct (Crawler.loopStep fetch now options st) as [st1|] eqn:Hs.
  - discriminate.
  - intros [= <-]. apply loopStep_None, Hs.
  - apply IH.
  - intros [= <-]. apply loopStep_None, Hs.
Qed.

(** The outcomes of [crawlSite]: the start URL is rejected before any
    request, or the loop runs from the queue that holds the normalized
    start URL. *)
Lemma crawlSite_run (startUrl : string) :
  (exists m, Crawler.crawlSite fetch now startUrl options = Some (Throw m, [])
             /\ forall n d, normalizeUrl startUrl = Some n -> Js.truthy n = true ->
                            extractDomain n = Some d -> Js.truthy d = false)
  \/ (exists n d st',
        normalizeUrl startUrl = Some n /\ extractDomain n = Some d
        /\ Crawler.crawlLoop fetch now
             (Crawler.loopMeasure options (Crawler.mkState ∅ [] [] [n] d []))
             options (Crawler.mkState ∅ [] [] [n] d []) = Some st'
        /\ Crawler.crawlSite fetch now startUrl options
           = Some (Ok (mkCrawlResult (Crawler.crawledPages st') (Crawler.c_errors st')
                         (Crawler.sumSizes (Crawler.crawledPages st')) (now - now)),
                   Crawler.requested st')).
Proof.
  unfold Crawler.crawlSite, Crawler.initialize.
  destruct (normalizeUrl startUrl) as [n|]; cbn [Crawler.requested].
  2:{ left. eexists. split; [reflexivity|]. intros ? ? Hn. discriminate Hn. }
  destruct (Js.truthy n) eqn:Htn; cbn [negb].
  2:{ left. eexists. split; [reflexivity|]. intros n0 d0 Hn Ht.
      injection Hn as Hn. subst n0. congruence. }
  destruct (extractDomain n) as [d|] eqn:Hd.
  2:{ left. eexists. split; [reflexivity|]. intros n0 d0 Hn _ Hd'.
      injection Hn as Hn. subst n0. congruence. }
  destruct (Js.truthy d) eqn:Htd.
  2:{ left. eexists. split; [reflexivity|]. intros n0 d0 Hn _ Hd'.
      injection Hn as Hn. subst n0. congruence. }
  right. cbn.
  destruct (crawlLoop_terminates fetch now options _
              (Crawler.mkState ∅ [] [] [n] d []) (le_n _)) as [st' Hst'].
  exists n, d, st'. split; [reflexivity|]. split; [exact Hd|].
  split; [exact Hst'|]. cbn in Hst'. rewrite Hst'. reflexivity.
Qed.

End CrawlRun.

Section CrawlInvariants.
Context {parser : UrlParser}.
Variable fetch : nat -> string -> FetchResult.
Variable now : nat.
Variable options : CrawlerOptions.

Lemma page_url_pageOfDom (u : string) (d : Dom) :
  page_url (Crawler.pageOfDom now u d) = u.
Proof. reflexivity. Qed.

(** Pages and errors account for the requests. *)
Let accounted (st : Crawler.State) : Prop :=
  Permutation
    (List.map page_url (Crawler.crawledPages st) ++ omap err_url (Crawler.c_errors st))
    (Crawler.requested st)
  /\ Forall (fun e => recoverable e = true
                      /\ (err_type e = NETWORK_ERROR \/ err_type e = TIMEOUT_ERROR))
       (Crawler.c_errors st).

Lemma loopStep_accounted (st st' : Crawler.State) :
  Crawler.loopStep fetch now options st = Some st' -> accounted st -> accounted st'.
Proof.
  intros Hs [Hp He].
  destruct (loopStep_cases fetch now options st st' Hs)
    as (cur & q & Hq & Hlt & [[_ ->]|[(_ & e & Hu & Hr & Ht & ->)|(_ & d & new & -> & _)]]);
    unfold accounted; cbn.
  - split; assumption.
  - split.
    + rewrite omap_app. cbn. rewrite Hu. cbn. rewrite app_assoc.
      apply Permutation_app_tail, Hp.
    + apply Forall_app. split; [exact He|].
      constructor; [split; assumption|constructor].
  - split; [|exact He].
    rewrite List.map_app. cbn. rewrite <- app_assoc. cbn.
    rewrite <- Permutation_middle, Permutation_cons_append.
    apply Permutation_app_tail, Hp.
Qed.

(** The crawl stays on the domain of the start URL. *)
Let onDomain (d : string) (st : Crawler.State) : Prop :=
  Crawler.currentDomain st = d
  /\ Forall (fun u => extractDomain u = Some d) (Crawler.urlQueue st)
  /\ Forall (fun u => extractDomain u = Some d) (Crawler.requested st).

Lemma loopStep_onDomain (d : string) (st st' : Crawler.State) :
  Crawler.loopStep fetch now options st = Some st' -> onDomain d st -> onDomain d st'.
Proof.
  intros Hs (Hd & Hq & Hr).
  destruct (loopStep_cases fetch now options st st' Hs)
    as (cur & q & Hqq & Hlt & Hcases).
  rewrite Hqq in Hq. apply Forall_cons in Hq as [Hcur Hq].
  destruct Hcases as [[_ ->]|[(_ & e & _ & _ & _ & ->)|(_ & dom & new & -> & Hnew)]];
    unfold onDomain; cbn.
  - auto.
  - split; [exact Hd|]. split; [exact Hq|].
    apply Forall_app. split; [exact Hr|]. repeat constructor. exact Hcur.
  - split; [exact Hd|]. split.
    + apply Forall_app. split; [exact Hq|].
      apply List.Forall_forall. intros u Hu. apply Hnew in Hu.
      match type of Hu with
      | In _ (Crawler.extractValidUrls ?s ?l _) =>
          destruct (extractValidUrls_admitted s l options) as [Ha _]
      end.
      rewrite List.Forall_forall in Ha. destruct (Ha u Hu) as (_ & _ & Hdom & _).
      cbn in Hdom. rewrite Hdom, Hd. reflexivity.
    + apply Forall_app. split; [exact Hr|]. repeat constructor. exact Hcur.
Qed.

(** The first request is for the start URL. *)
Let startsAt (n : string) (st : Crawler.State) : Prop :=
  match Crawler.requested st with
  | [] => Crawler.urlQueue st = [n] /\ Crawler.visitedUrls st = ∅
  | first :: _ => first = n
  end.

Lemma loopStep_startsAt (n : string) (st st' : Crawler.State) :
  Crawler.loopStep fetch now options st = Some st' -> startsAt n st -> startsAt n st'.
Proof.
  intros Hs Hst.
  destruct (loopStep_cases fetch now options st st' Hs)
    as (cur & q & Hqq & Hlt & Hcases).
  unfold startsAt in *.
  destruct (Crawler.requested st) as [|first rest] eqn:Hreq.
  - destruct Hst as [Hq Hv]. rewrite Hq in Hqq. injection Hqq as <- <-.
    destruct Hcases as [[Hin ->]|[(_ & e & _ & _ & _ & ->)|(_ & dom & new & -> & _)]];
      cbn; [|reflexivity|reflexivity].
    rewrite Hv in Hin. apply elem_of_empty in Hin. destruct Hin.
  - destruct Hcases as [[_ ->]|[(_ & e & _ & _ & _ & ->)|(_ & dom & new & -> & _)]];
      cbn; rewrite ?Hreq; exact Hst.
Qed.

(** What holds at the end of a run that started from the normalized URL
    [n] of domain [d]. *)
Lemma crawlLoop_run (n d : string) (st' : Crawler.State) :
  Crawler.crawlLoop fetch now
    (Crawler.loopMeasure options (Crawler.mkState ∅ [] [] [n] d []))
    options (Crawler.mkState ∅ [] [] [n] d []) = Some st' ->
  extractDomain n = Some d ->
  accounted st' /\ onDomain d st'
  /\ NoDup (Crawler.requested st')
  /\ (0 < Crawler.pageLimit options -> exists t, Crawler.requested st' = n :: t)
  /\ (Crawler.pageLimit options = 0 -> Crawler.requested st' = []).
Proof.
  intros Hloop Hd.
  set (st0 := Crawler.mkState ∅ [] [] [n] d []) in *.
  assert (Hacc : accounted st').
  { eapply (crawlLoop_preserves fetch now options accounted loopStep_accounted);
      [exact Hloop|]. split; [reflexivity|constructor]. }
  assert (Hdom : onDomain d st').
  { eapply (crawlLoop_preserves fetch now options (onDomain d) (loopStep_onDomain d));
      [exact Hloop|]. split; [reflexivity|]. split; repeat constructor. exact Hd. }
  assert (Hstart : startsAt n st').
  { eapply (crawlLoop_preserves fetch now options (startsAt n) (loopStep_startsAt n));
      [exact Hloop|]. split; reflexivity. }
  pose proof (crawlLoop_inv fetch now options _ _ _ Hloop
                (crawlInv_initial options _ _)) as (Hnd & _ & _).
  split; [exact Hacc|]. split; [exact Hdom|]. split; [exact Hnd|]. split.
  - intros Hpos. unfold startsAt in Hstart.
    destruct (Crawler.requested st') as [|first rest] eqn:Hreq.
    + exfalso. destruct Hstart as [Hq _].
      destruct Hacc as [Hperm _]. rewrite Hreq in Hperm.
      apply Permutation_nil_r in Hperm. apply app_eq_nil in Hperm as [Hpages _].
      apply List.map_eq_nil in Hpages.
      destruct (crawlLoop_final fetch now options _ _ _ Hloop) as [Hq'|Hfull].
      * rewrite Hq in Hq'. discriminate.
      * rewrite Hpages in Hfull. cbn in Hfull. lia.
    + exists rest. rewrite Hstart. reflexivity.
  - intros Hzero.
    assert (Hstep : Crawler.loopStep fetch now options st0 = None)
      by (unfold Crawler.loopStep; cbn; rewrite lt_length_limit, Hzero;
          reflexivity).
    destruct (Crawler.loopMeasure options st0); cbn [Crawler.crawlLoop] in Hloop;
      rewrite Hstep in Hloop; injection Hloop as <-; reflexivity.
Qed.

End CrawlInvariants.

(** The page limit is positive exactly when [maxPages] is. *)
Lemma pageLimit_positive (options : CrawlerOptions) :
  0 < Crawler.pageLimit options <-> (0 < maxPages options)%Q.
Proof.
  rewrite <- Nat.ltb_lt, <- lt_length_limit.
  unfold Js.lt_length, Js.num_lt. cbn [Z.of_nat inject_Z].
  rewrite negb_true_iff, <- not_true_iff_false, Qle_bool_iff.
  split; [apply Qnot_le_lt|apply Qlt_not_le].
Qed.

(** Every request of a crawl ends in exactly one page or one error (the
    crawl having the crawler object to itself): the URLs of the pages
    returned, together with the URLs of the errors returned, are the URLs
    that were requested, each once; so no two pages of a result have the
    same URL.  Every error the crawler reports is a recoverable
    NETWORK_ERROR or TIMEOUT_ERROR. *)
Theorem crawlSite_accounts_for_requests {parser : UrlParser}
  (fetch : nat -> string -> FetchResult) (now : nat)
  (startUrl : string) (options : CrawlerOptions) :
  exists r trace,
    Crawler.crawlSite fetch now startUrl options = Some (r, trace)
    /\ forall res, r = Ok res ->
         Permutation
           (List.map page_url (cr_pages res) ++ omap err_url (cr_errors res)) trace
         /\ NoDup (List.map page_url (cr_pages res))
         /\ Forall (fun e => recoverable e = true
                             /\ (err_type e = NETWORK_ERROR
                                 \/ err_type e = TIMEOUT_ERROR))
              (cr_errors res).
Proof.
  destruct (crawlSite_run fetch now options startUrl)
    as [(m & -> & _)|(n & d & st' & Hn & Hd & Hloop & ->)].
  - eexists _, _. split; [reflexivity|]. intros res Hres. discriminate Hres.
  - eexists _, _. split; [reflexivity|]. intros res [= <-]. cbn.
    destruct (crawlLoop_run fetch now options n d st' Hloop Hd)
      as ([Hperm Herr] & _ & Hnd & _).
    split; [exact Hperm|]. split; [|exact Herr].
    rewrite <- Hperm in Hnd. apply NoDup_app in Hnd. apply Hnd.
Qed.

(** A crawl that has the crawler object to itself never leaves the
    domain of its start URL, and it begins with the start URL: every URL
    requested has the host name of the normalized start URL; when
    [maxPages] is positive the first request is for the normalized start
    URL itself, and when it is zero (or negative) nothing is requested
    and the result has no page. *)
Theorem crawlSite_stays_on_domain {parser : UrlParser}
  (fetch : nat -> string -> FetchResult) (now : nat)
  (startUrl n d : string) (options : CrawlerOptions)
  (res : CrawlResult) (trace : list string) :
  normalizeUrl startUrl = Some n ->
  extractDomain n = Some d ->
  Crawler.crawlSite fetch now startUrl options = Some (Ok res, trace) ->
  Forall (fun u => extractDomain u = Some d) trace
  /\ Forall (fun page => extractDomain (page_url page) = Some d) (cr_pages res)
  /\ ((0 < maxPages options)%Q -> exists rest, trace = n :: rest)
  /\ ((maxPages options <= 0)%Q -> trace = [] /\ cr_pages res = []).
Proof.
  intros Hn Hd Hrun.
  destruct (crawlSite_run fetch now options startUrl)
    as [(m & Hthrow & _)|(n' & d' & st' & Hn' & Hd' & Hloop & Hok)].
  { rewrite Hthrow in Hrun. discriminate. }
  rewrite Hn in Hn'. injection Hn' as <-. rewrite Hd in Hd'. injection Hd' as <-.
  rewrite Hok in Hrun. injection Hrun as <- <-. cbn.
  destruct (crawlLoop_run fetch now options n d st' Hloop Hd)
    as ([Hperm _] & (_ & _ & Hreq) & _ & Hpos & Hzero).
  assert (Hpages : Forall (fun page => extractDomain (page_url page) = Some d)
                     (Crawler.crawledPages st')).
  { apply List.Forall_forall. intros page Hin.
    rewrite List.Forall_forall in Hreq. apply Hreq.
    eapply Permutation_in; [exact Hperm|]. apply in_or_app. left.
    apply List.in_map. exact Hin. }
  split; [exact Hreq|]. split; [exact Hpages|].
  split; [intros Hp; apply Hpos, pageLimit_positive, Hp|].
  intros Hle.
  assert (Hz : Crawler.pageLimit options = 0).
  { destruct (Nat.eq_dec (Crawler.pageLimit options) 0) as [He|Hne]; [exact He|].
    exfalso. apply (Qlt_not_le 0 (maxPages options)); [|exact Hle].
    apply pageLimit_positive. lia. }
  split; [apply Hzero, Hz|].
  rewrite (Hzero Hz) in Hperm. apply Permutation_nil_r in Hperm.
  apply app_eq_nil in Hperm as [Hp _]. apply List.map_eq_nil in Hp. exact Hp.
Qed.

Lemma crawlSite_stays_on_domain_witness :
  exists res,
    @Crawler.crawlSite SimpleUrl.parser example_site 0 "https://example.com"
      (mkOptions 3 10 (15 * 1000) true)
    = Some (Ok res, ["https://example.com/"; "https://example.com/about"])
    /\ Forall (fun u => @extractDomain SimpleUrl.parser u = Some "example.com")
         ["https://example.com/"; "https://example.com/about"].
Proof.
  eexists. split; [vm_compute; reflexivity|].
  refine (proj1 (@crawlSite_stays_on_domain SimpleUrl.parser example_site 0
                   "https://example.com" "https://example.com/" "example.com"
                   (mkOptions 3 10 (15 * 1000) true) _ _ _ _ _));
    vm_compute; reflexivity.
Defined.

(** * What a crawled page looks like *)

Section CrawledPage.
Context {parser : UrlParser}.
Variable now : nat.

Lemma strip_slash_truthy (p : string) :
  p <> "" -> p <> "/" ->
  Js.truthy (if Js.startsWith p "/" then Js.drop 1 p else p) = true.
Proof.
  intros H1 H2. destruct p as [|c r]; [congruence|].
  unfold Js.startsWith. cbn [String.prefix].
  destruct (ascii_dec "/" c) as [<-|Hne].
  - destruct r; [congruence|]. reflexivity.
  - reflexivity.
Qed.

Lemma generatePagePath_truthy (u : string) :
  Js.truthy (Crawler.generatePagePath now u) = true.
Proof.
  unfold Crawler.generatePagePath.
  destruct (new_URL u) as [o|]; cbn [of_option exc_bind try_catch];
    [|reflexivity].
  destruct (String.eqb_spec (pathname o) "/") as [->|H1]; [reflexivity|].
  destruct (String.eqb_spec (pathname o) "") as [->|H2]; [reflexivity|].
  cbn [orb].
  destruct (Js.includes (pathname o) "." && negb (Js.endsWith (pathname o) "/"));
    cbn [try_catch].
  - apply strip_slash_truthy; assumption.
  - destruct (Js.endsWith (pathname o) "/"); apply strip_slash_truthy;
      destruct (pathname o) as [|c [|c' r]]; cbv [String.app]; congruence.
Qed.

Lemma getContentType_truthy (u dflt : string) :
  Js.truthy dflt = true -> Js.truthy (Crawler.getContentType u dflt) = true.
Proof.
  intros Hd. unfold Crawler.getContentType.
  destruct (List.find _ Crawler.typeMap) as [kv|] eqn:Hf; [|exact Hd].
  apply List.find_some in Hf as [Hin _]. cbn in Hin.
  repeat (destruct Hin as [<-|Hin]; [reflexivity|]). destruct Hin.
Qed.

(** An asset as the crawler records it: an http(s) URL, nothing
    downloaded yet. *)
Let fresh (a : Asset) : Prop :=
  Js.truthy (originalUrl a) = true
  /\ isValidUrl (originalUrl a) = true
  /\ localPath a = "" /\ asset_size a = 0
  /\ Js.truthy (contentType a) = true
  /\ crawlerAssetType (assetType a) = true.

Lemma collectAssets_spec (pageUrl : string) (t : AssetType)
  (mkContentType : string -> string) (srcs : list string) :
  crawlerAssetType t = true ->
  (forall r, Js.truthy (mkContentType r) = true) ->
  forall acc : list Asset,
    Forall fresh acc -> List.length acc <= 100 ->
    Forall fresh (Crawler.collectAssets pageUrl t mkContentType srcs acc)
    /\ List.length (Crawler.collectAssets pageUrl t mkContentType srcs acc) <= 100.
Proof.
  intros Ht Hmk. unfold Crawler.collectAssets.
  induction srcs as [|src rest IH]; intros acc Hacc Hlen; cbn -[Nat.ltb].
  - auto.
  - apply IH.
    + destruct (Js.truthy src && (List.length acc <? 100)); [|exact Hacc].
      destruct (resolveUrl src pageUrl) as [r|]; [|exact Hacc].
      destruct (Js.truthy r) eqn:Htr; [|exact Hacc].
      destruct (isValidUrl r) eqn:Hv; [|exact Hacc]. cbn [andb].
      apply Forall_app. split; [exact Hacc|]. constructor; [|constructor].
      unfold fresh. cbn. auto 10.
    + destruct (Js.truthy src); [|exact Hlen]. cbn [andb].
      destruct (List.length acc <? 100) eqn:Hlt; [|exact Hlen].
      apply Nat.ltb_lt in Hlt.
      destruct (resolveUrl src pageUrl) as [r|]; [|exact Hlen].
      destruct (Js.truthy r && isValidUrl r); [|exact Hlen].
      rewrite length_app. cbn. lia.
Qed.

Lemma collectLinks_valid (pageUrl : string) (hrefs : list string) :
  Forall (fun l => isValidUrl l = true) (Crawler.collectLinks pageUrl hrefs).
Proof.
  unfold Crawler.collectLinks.
  assert (H : forall acc, Forall (fun l => isValidUrl l = true) acc ->
            Forall (fun l => isValidUrl l = true)
              (List.fold_left
                 (fun acc h =>
                    if Js.truthy h then
                      match resolveUrl h pageUrl with
                      | Some resolvedUrl =>
                          if Js.truthy resolvedUrl && isValidUrl resolvedUrl
                          then acc ++ [resolvedUrl] else acc
                      | None => acc
                      end
                    else acc) hrefs acc)).
  { induction hrefs as [|h rest IH]; intros acc Hacc; cbn; [exact Hacc|].
    apply IH. destruct (Js.truthy h); [|exact Hacc].
    destruct (resolveUrl h pageUrl) as [r|]; [|exact Hacc].
    destruct (Js.truthy r); [|exact Hacc]. cbn [andb].
    destruct (isValidUrl r) eqn:Hv; [|exact Hacc].
    apply Forall_app. split; [exact Hacc|]. repeat constructor. exact Hv. }
  apply H. constructor.
Qed.

Lemma pageOfDom_assets (u : string) (d : Dom) :
  Forall fresh (assets (Crawler.pageOfDom now u d))
  /\ List.length (assets (Crawler.pageOfDom now u d)) <= 100.
Proof.
  unfold Crawler.pageOfDom. cbn [assets].
  assert (Hct : forall dflt, Js.truthy dflt = true ->
                  forall r, Js.truthy (Crawler.getContentType r dflt) = true)
    by (intros; apply getContentType_truthy; assumption).
  destruct (collectAssets_spec u IMAGE (fun r => Crawler.getContentType r "image/jpeg")
              (dom_img_src d) eq_refl (Hct "image/jpeg" eq_refl) []
              (List.Forall_nil _) (Nat.le_0_l _)) as [F1 L1].
  destruct (collectAssets_spec u CSS (fun _ => "text/css")
              (dom_stylesheet_href d) eq_refl (fun _ => eq_refl) _ F1 L1) as [F2 L2].
  destruct (collectAssets_spec u JAVASCRIPT (fun _ => "application/javascript")
              (dom_script_src d) eq_refl (fun _ => eq_refl) _ F2 L2) as [F3 L3].
  destruct (collectAssets_spec u FONT (fun r => Crawler.getContentType r "font/woff")
              (dom_font_href d) eq_refl (Hct "font/woff" eq_refl) _ F3 L3) as [F4 L4].
  split; [exact F4|exact L4].
Qed.

End CrawledPage.

(** A page as the crawler returns it: it carries the URL it was requested
    under, a non-empty storage path and a non-empty title, and the markup
    that was fetched; it lists at most 100 assets, each with a valid
    http(s) URL, one of the four types the crawler assigns, and no local
    copy yet; and every link it lists is a valid http(s) URL. *)
Theorem crawled_page_shape {parser : UrlParser} (now : nat) (u : string) (d : Dom) :
  let page := Crawler.pageOfDom now u d in
  page_url page = u
  /\ Js.truthy (page_path page) = true
  /\ Js.truthy (title page) = true
  /\ htmlContent page = Some (dom_html d)
  /\ List.length (assets page) <= 100
  /\ Forall (fun a => isValidUrl (originalUrl a) = true
                      /\ crawlerAssetType (assetType a) = true
                      /\ localPath a = "" /\ asset_size a = 0)
       (assets page)
  /\ Forall (fun l => isValidUrl l = true) (links page).
Proof.
  intros page. destruct (pageOfDom_assets now u d) as [Ha Hl].
  split; [reflexivity|]. split; [apply generatePagePath_truthy|]. split.
  { subst page. unfold Crawler.pageOfDom. cbn [title]. unfold Js.or_else.
    destruct (Js.truthy (Js.trim (dom_title d))) eqn:H1; [exact H1|].
    destruct (Js.truthy (Js.trim (dom_h1 d))) eqn:H2; [exact H2|reflexivity]. }
  split; [reflexivity|]. split; [exact Hl|]. split.
  - eapply List.Forall_impl; [|exact Ha]. intros a (_ & Hv & Hp & Hs & _ & Ht). auto.
  - apply collectLinks_valid.
Qed.

(** * Further properties of the reference rewriter and of asset naming *)

Section Registration.
Context {parser : UrlParser}.

Lemma addAssetMappings_options (l : list AssetPathMapping) :
  forall rw,
    rw_archiveId (addAssetMappings rw l) = rw_archiveId rw
    /\ rw_baseUrl (addAssetMappings rw l) = rw_baseUrl rw
    /\ rw_archiveBasePath (addAssetMappings rw l) = rw_archiveBasePath rw.
Proof.
  unfold addAssetMappings.
  induction l as [|m l IH]; intros rw; cbn; [auto|].
  destruct (IH (addAssetMapping rw m)) as (-> & -> & ->). auto.
Qed.

Lemma addAssetMappings_snoc (rw : UrlRewriter) (l : list AssetPathMapping)
  (m : AssetPathMapping) :
  addAssetMappings rw (l ++ [m]) = addAssetMapping (addAssetMappings rw l) m.
Proof. unfold addAssetMappings. rewrite List.fold_left_app. reflexivity. Qed.

Lemma addAssetMappings_lookup (rw : UrlRewriter) (l : list AssetPathMapping)
  (k : string) :
  assetMappings (addAssetMappings rw l) !! k
  = match List.find (fun m => String.eqb (m_originalUrl m) k) (List.rev l) with
    | Some m => Some m
    | None => assetMappings rw !! k
    end.
Proof.
  induction l as [|m l IH] using List.rev_ind; [reflexivity|].
  rewrite addAssetMappings_snoc, List.rev_app_distr. cbn.
  destruct (String.eqb_spec (m_originalUrl m) k) as [->|Hne].
  - apply lookup_insert_eq.
  - rewrite lookup_insert_ne by exact Hne. exact IH.
Qed.

End Registration.

(** Registering mappings and looking one up: after [addAssetMappings],
    the mapping found for a URL is the one registered last under that URL,
    or the one the rewriter already had; the options of the rewriter are
    unchanged.  Hence a reference spelt as an absolute http(s) URL is
    rewritten to the local path of the mapping registered last for it, in
    both modes. *)
Theorem addAssetMappings_last_wins {parser : UrlParser}
  (rw : UrlRewriter) (l : list AssetPathMapping) (k : string) :
  let rw' := addAssetMappings rw l in
  let last :=
    List.find (fun m => String.eqb (m_originalUrl m) k) (List.rev l) in
  assetMappings rw' !! k
  = match last with Some m => Some m | None => assetMappings rw !! k end
  /\ (forall m isPageLink,
        last = Some m ->
        Js.startsWith k "http://" = true \/ Js.startsWith k "https://" = true ->
        Rewriter.rewriteUrl rw' k isPageLink
        = rw_archiveBasePath rw +:+ "/" +:+ rw_archiveId rw +:+ "/content/"
          +:+ m_localPath m).
Proof.
  intros rw' last. pose proof (addAssetMappings_lookup rw l k) as Hl.
  fold rw' last in Hl. split; [exact Hl|].
  intros m b Hlast Hhttp. rewrite Hlast in Hl.
  destruct (http_url_rewritable rw' k Hhttp) as (Ht & He & Hs & Hr).
  rewrite (rewriteUrl_mapped rw' k m b Ht He Hs) by (rewrite Hr; exact Hl).
  unfold Rewriter.contentUrl. subst rw'.
  destruct (addAssetMappings_options l rw) as (-> & _ & ->). reflexivity.
Qed.

(** [rewriteUrl] leaves external resources alone: what it returns is the
    reference as given or a path below
    [{archiveBasePath}/{archiveId}/content/], and when no mapping is
    registered for the resolved URL and that URL is not on the host of the
    base URL (or one of the two does not parse) the reference is returned
    as given, in both modes. *)
Theorem rewriteUrl_external_untouched {parser : UrlParser}
  (rw : UrlRewriter) (u : string) (isPageLink : bool) :
  (Rewriter.rewriteUrl rw u isPageLink = u
   \/ exists p, Rewriter.rewriteUrl rw u isPageLink
                = rw_archiveBasePath rw +:+ "/" +:+ rw_archiveId rw
                  +:+ "/content/" +:+ p)
  /\ (assetMappings rw !! Rewriter.resolveUrl rw u = None ->
      match new_URL (Rewriter.resolveUrl rw u), new_URL (rw_baseUrl rw) with
      | Some o, Some b => hostname o <> hostname b
      | _, _ => True
      end ->
      Rewriter.rewriteUrl rw u isPageLink = u).
Proof.
  split.
  - unfold Rewriter.rewriteUrl, Rewriter.rewriteUrl_try, Rewriter.contentUrl.
    destruct (negb (Js.truthy u) || String.eqb (Js.trim u) ""); [left; reflexivity|].
    destruct (Rewriter.isSpecialUrl u); [left; reflexivity|].
    destruct (assetMappings rw !! Rewriter.resolveUrl rw u); [right; eexists; reflexivity|].
    destruct (Rewriter.isSameDomain rw (Rewriter.resolveUrl rw u));
      destruct isPageLink; cbn; eauto.
  - intros Hm Hext.
    assert (Hsd : Rewriter.isSameDomain rw (Rewriter.resolveUrl rw u) = false).
    { unfold Rewriter.isSameDomain.
      destruct (new_URL (Rewriter.resolveUrl rw u)) as [o|]; [|reflexivity].
      destruct (new_URL (rw_baseUrl rw)) as [b|]; [|reflexivity].
      cbn. apply String.eqb_neq. exact Hext. }
    unfold Rewriter.rewriteUrl, Rewriter.rewriteUrl_try.
    rewrite Hm, Hsd, andb_false_r. cbn.
    destruct (negb (Js.truthy u) || String.eqb (Js.trim u) ""); [reflexivity|].
    destruct (Rewriter.isSpecialUrl u); reflexivity.
Qed.

Lemma rewriteUrl_external_untouched_witness :
  let rw := createUrlRewriter (mkRewriteOptions "a1" "https://example.com" None) in
  @Rewriter.rewriteUrl SimpleUrl.parser rw "https://cdn.other.com/lib.js" false
  = "https://cdn.other.com/lib.js"
  /\ @Rewriter.rewriteUrl SimpleUrl.parser rw "https://cdn.other.com/page" true
     = "https://cdn.other.com/page".
Proof.
  intros rw. split.
  - apply (proj2 (@rewriteUrl_external_untouched SimpleUrl.parser rw
                    "https://cdn.other.com/lib.js" false));
      [reflexivity|vm_compute; discriminate].
  - apply (proj2 (@rewriteUrl_external_untouched SimpleUrl.parser rw
                    "https://cdn.other.com/page" true));
      [reflexivity|vm_compute; discriminate].
Defined.

Section QueryHash.

Lemma six_chars (q : string) :
  6 <= String.length q ->
  exists a b c d e f r,
    q = String a (String b (String c (String d (String e (String f r))))).
Proof.
  intros H.
  do 6 (destruct q as [|? q]; [cbn in H; lia|]).
  repeat eexists.
Qed.

Lemma substring_0_0 (s : string) : String.substring 0 0 s = "".
Proof. destruct s; reflexivity. Qed.

Lemma queryHash_head (a b c d e f : ascii) (r : string) :
  Rewriter.queryHash
    (String a (String b (String c (String d (String e (String f r))))))
  = Rewriter.queryHash
      (String a (String b (String c (String d (String e (String f "")))))).
Proof.
  unfold Rewriter.queryHash, Base64.encode.
  cbn [list_ascii_of_string List.map List.length Base64.encode_bytes].
  unfold Js.take. cbn [String.substring]. rewrite !substring_0_0. reflexivity.
Qed.

End QueryHash.

(** The suffix that distinguishes the stored names of URLs with a query
    string is the first 8 characters of the base64 form of the query, so
    it has 8 characters and depends only on the first six bytes of the
    query string (the [?] included): two query strings that agree on
    their first six bytes give the same suffix. *)
Theorem queryHash_six_bytes (q1 q2 : string) :
  6 <= String.length q1 ->
  Js.take 6 q1 = Js.take 6 q2 ->
  Rewriter.queryHash q1 = Rewriter.queryHash q2
  /\ String.length (Rewriter.queryHash q1) = 8.
Proof.
  intros H1 Ht.
  destruct (six_chars q1 H1) as (a & b & c & d & e & f & r & ->).
  assert (H2 : 6 <= String.length q2).
  { apply (f_equal String.length) in Ht. unfold Js.take in Ht.
    cbn [String.substring String.length] in Ht.
    do 6 (destruct q2 as [|? q2]; [cbn in Ht; lia|]). cbn. lia. }
  destruct (six_chars q2 H2) as (a' & b' & c' & d' & e' & f' & r' & ->).
  unfold Js.take in Ht. cbn [String.substring] in Ht.
  injection Ht as -> -> -> -> -> ->.
  rewrite (queryHash_head a' b' c' d' e' f' r), (queryHash_head a' b' c' d' e' f' r').
  split; [reflexivity|].
  unfold Rewriter.queryHash, Base64.encode.
  cbn [list_ascii_of_string List.map List.length Base64.encode_bytes].
  unfold Js.take. cbn [String.substring]. reflexivity.
Qed.

Lemma queryHash_six_bytes_witness :
  Rewriter.queryHash "?v=1.0.1" = Rewriter.queryHash "?v=1.0.2"
  /\ @Rewriter.generateAssetPath SimpleUrl.parser "https://example.com/app.js?v=1.0.1"
     = @Rewriter.generateAssetPath SimpleUrl.parser "https://example.com/app.js?v=1.0.2".
Proof.
  assert (H : Rewriter.queryHash "?v=1.0.1" = Rewriter.queryHash "?v=1.0.2")
    by (apply (queryHash_six_bytes "?v=1.0.1" "?v=1.0.2"); [cbn; lia|reflexivity]).
  split; [exact H|]. vm_compute. reflexivity.
Defined.

(** * Further properties of the archive orchestrator *)

Section StorageReads.
Context {parser : UrlParser}.

(** Reading from the storage does not change the directories. *)
Lemma fs_call_dirs (st : Storage) :
  dirs (snd (FileService.fs_call st)) = dirs st.
Proof. unfold FileService.fs_call. destruct (faults st); reflexivity. Qed.

Lemma loadArchiveMetadata_dirs (st : Storage) (archiveId : string) :
  dirs (snd (FileService.loadArchiveMetadata st archiveId)) = dirs st.
Proof.
  unfold FileService.loadArchiveMetadata.
  pose proof (fs_call_dirs st) as H.
  destruct (FileService.fs_call st) as [[m|] st1]; cbn in H |- *; [exact H|].
  destruct (dirs st1 !! archiveId); exact H.
Qed.

Lemma loadAll_dirs (ids : list string) :
  forall (st : Storage) (acc : list Archive),
    dirs (snd (ArchiveService.loadAll st ids acc)) = dirs st.
Proof.
  induction ids as [|i ids IH]; intros st acc; cbn; [reflexivity|].
  pose proof (loadArchiveMetadata_dirs st i) as H.
  destruct (FileService.loadArchiveMetadata st i) as [[a|m] st1]; cbn in H;
    rewrite IH; exact H.
Qed.

Lemma getArchives_dirs (st : Storage) :
  dirs (snd (ArchiveService.getArchives st)) = dirs st.
Proof.
  unfold ArchiveService.getArchives, FileService.listArchives.
  pose proof (fs_call_dirs st) as H.
  destruct (FileService.fs_call st) as [[m|] st1]; cbn in H |- *; [exact H|].
  pose proof (loadAll_dirs (List.map fst (map_to_list (dirs st1))) st1 []) as H2.
  destruct (ArchiveService.loadAll st1 _ []) as [l st2]. cbn in H2 |- *.
  congruence.
Qed.

Lemma getLatestVersionNumber_dirs (st : Storage) (u : string) :
  dirs (snd (ArchiveService.getLatestVersionNumber st u)) = dirs st.
Proof.
  unfold ArchiveService.getLatestVersionNumber, ArchiveService.getArchiveVersions.
  destruct (normalizeUrl u) as [n|]; [|reflexivity].
  destruct (Js.truthy n); cbn [negb]; [|reflexivity].
  pose proof (getArchives_dirs st) as H.
  destruct (ArchiveService.getArchives st) as [[l|m] st1]; exact H.
Qed.

(** A failed listing makes the latest version number 0. *)
Lemma getLatestVersionNumber_listing_fails (st : Storage) (u message : string)
  (rest : list (option string)) :
  faults st = Some message :: rest ->
  fst (ArchiveService.getLatestVersionNumber st u) = 0.
Proof.
  intros Hf.
  unfold ArchiveService.getLatestVersionNumber, ArchiveService.getArchiveVersions,
    ArchiveService.getArchives, FileService.listArchives, FileService.fs_call.
  destruct (normalizeUrl u) as [n|]; [|reflexivity].
  destruct (Js.truthy n); cbn [negb]; [|reflexivity].
  rewrite Hf. reflexivity.
Qed.

End StorageReads.

Section CreateArchive.
Context {parser : UrlParser}.
Variable w : World.

Lemma no_duplicate_existsb (s : Service) (n : string) :
  (forall i p, activeArchives s !! i = Some p -> p_url p = n ->
               p_status p <> IN_PROGRESS) ->
  List.existsb (ArchiveService.inProgressFor n)
    (List.map snd (map_to_list (activeArchives s))) = false.
Proof.
  intros H. apply not_true_is_false. intros He.
  apply List.existsb_exists in He as (p & Hin & Hp).
  apply List.in_map_iff in Hin as ([i p'] & <- & Hin).
  apply list_elem_of_In, elem_of_map_to_list in Hin.
  unfold ArchiveService.inProgressFor in Hp.
  apply andb_true_iff in Hp as [Hu Hs].
  apply String.eqb_eq in Hu. apply bool_decide_eq_true_1 in Hs.
  exact (H i p' Hin Hu Hs).
Qed.

Lemma duplicate_existsb (s : Service) (n i : string) (p : ArchiveProgress) :
  activeArchives s !! i = Some p -> p_url p = n -> p_status p = IN_PROGRESS ->
  List.existsb (ArchiveService.inProgressFor n)
    (List.map snd (map_to_list (activeArchives s))) = true.
Proof.
  intros Hi Hu Hs. apply List.existsb_exists. exists p. split.
  - apply List.in_map_iff. exists (i, p). split; [reflexivity|].
    apply list_elem_of_In, elem_of_map_to_list. exact Hi.
  - unfold ArchiveService.inProgressFor. rewrite Hu, String.eqb_refl.
    apply bool_decide_eq_true_2. exact Hs.
Qed.

(** [createArchive] once the URL has passed the first two tests and the
    limits allow the archive: the version is looked up, an identifier
    drawn, and the record built. *)
Lemma createArchive_admitted (s : Service) (urlString n d : string)
  (options : PartialCrawlerOptions) :
  normalizeUrl urlString = Some n -> Js.truthy n = true ->
  extractDomain n = Some d -> Js.truthy d = true ->
  size (activeArchives s) < maxConcurrentArchives s ->
  (forall i p, activeArchives s !! i = Some p -> p_url p = n ->
               p_status p <> IN_PROGRESS) ->
  let '(latestVersion, st0) :=
    ArchiveService.getLatestVersionNumber (storage s) n in
  let archiveId := uuid w (uuids s) in
  let s0 := mkService st0 (activeArchives s) (maxConcurrentArchives s)
              (defaultCrawlerOptions s) (background s) (timers s)
              (S (uuids s)) (clock s) in
  ArchiveService.createArchive w s urlString options
  = if isValidUrl n then
      let archive := mkArchive archiveId n d (clock s) IN_PROGRESS
                       (latestVersion + 1) (mkMetadata 0 0 0 0) [] [] in
      let progress := mkProgress archiveId n IN_PROGRESS 0 0 0 0 [] (clock s) None in
      let s1 := ArchiveService.set_active s0 (<[archiveId := progress]> (activeArchives s)) in
      match FileService.initializeArchiveStorage st0 archiveId with
      | (Throw message, st) =>
          (Throw ("Failed to create archive: " +:+ message),
           ArchiveService.set_active (ArchiveService.set_storage s1 st)
             (delete archiveId (activeArchives s1)))
      | (Ok _, st) =>
          match FileService.saveArchiveMetadata st archive with
          | (Throw message, st) =>
              (Throw ("Failed to create archive: " +:+ message),
               ArchiveService.set_active (ArchiveService.set_storage s1 st)
                 (delete archiveId (activeArchives s1)))
          | (Ok _, st) =>
              (Ok archive,
               mkService st (activeArchives s1) (maxConcurrentArchives s)
                 (defaultCrawlerOptions s) (background s ++ [(archive, options)])
                 (timers s) (S (uuids s)) (clock s))
          end
      end
    else (Throw "Invalid URL provided", s0).
Proof.
  intros Hn Htn Hd Htd Hcap Hdup.
  destruct (ArchiveService.getLatestVersionNumber (storage s) n) as [v st0] eqn:Hv.
  unfold ArchiveService.createArchive.
  rewrite Hn, Htn, Hd, Htd. cbn [negb].
  assert (Hc : (maxConcurrentArchives s <=? size (activeArchives s)) = false)
    by (apply Nat.leb_gt, Hcap).
  rewrite Hc, (no_duplicate_existsb s n Hdup), Hv.
  unfold validation_createArchive. rewrite Hd, Htd.
  destruct (isValidUrl n); reflexivity.
Qed.

End CreateArchive.

Section CreateArchiveOutcomes.
Context {parser : UrlParser}.
Variable w : World.

Lemma getLatestVersionNumber_healthy_storage (st : Storage) (u : string) :
  faults st = [] -> snd (ArchiveService.getLatestVersionNumber st u) = st.
Proof.
  intros Hf. unfold ArchiveService.getLatestVersionNumber,
    ArchiveService.getArchiveVersions.
  destruct (normalizeUrl u) as [n|]; [|reflexivity].
  destruct (Js.truthy n); cbn [negb]; [|reflexivity].
  rewrite (getArchives_healthy st Hf). reflexivity.
Qed.

End CreateArchiveOutcomes.

(** A successful [createArchive].  On a storage that answers its calls,
    for an http(s) URL, below the concurrency cap and with no archive of
    the same normalized URL in progress, the call returns an IN_PROGRESS
    archive for the normalized URL under a freshly drawn identifier, with
    no pages and no errors; it registers a progress entry for it, queues
    the background run with the caller's options, and stores the record,
    so that [getArchive] returns it at once; the directories of other
    archives are not touched. *)
Theorem createArchive_registers {parser : UrlParser} (w : World)
  (s : Service) (urlString n d : string) (options : PartialCrawlerOptions) :
  faults (storage s) = [] ->
  normalizeUrl urlString = Some n -> Js.truthy n = true ->
  extractDomain n = Some d -> Js.truthy d = true ->
  isValidUrl n = true ->
  size (activeArchives s) < maxConcurrentArchives s ->
  (forall i p, activeArchives s !! i = Some p -> p_url p = n ->
               p_status p <> IN_PROGRESS) ->
  let archiveId := uuid w (uuids s) in
  exists a s',
    ArchiveService.createArchive w s urlString options = (Ok a, s')
    /\ id a = archiveId /\ url a = n /\ domain a = d
    /\ status a = IN_PROGRESS /\ timestamp a = clock s
    /\ pages a = [] /\ errors a = []
    /\ activeArchives s'
       = <[archiveId := mkProgress archiveId n IN_PROGRESS 0 0 0 0 [] (clock s) None]>
           (activeArchives s)
    /\ background s' = background s ++ [(a, options)]
    /\ fst (ArchiveService.getArchive s' archiveId) = Ok a
    /\ (forall j, j <> archiveId ->
          dirs (storage s') !! j = dirs (storage s) !! j).
Proof.
  intros Hf Hn Htn Hd Htd Hv Hcap Hdup archiveId.
  pose proof (createArchive_admitted w s urlString n d options
                Hn Htn Hd Htd Hcap Hdup) as Hc.
  pose proof (getLatestVersionNumber_healthy_storage (storage s) n Hf) as Hst.
  destruct (ArchiveService.getLatestVersionNumber (storage s) n) as [v st0].
  cbn in Hst. subst st0. rewrite Hv in Hc. fold archiveId in Hc.
  cbv zeta in Hc. rewrite (initializeArchiveStorage_healthy _ _ Hf) in Hc.
  unfold FileService.saveArchiveMetadata in Hc.
  rewrite fs_call_healthy in Hc by exact Hf.
  cbn [dirs id] in Hc. rewrite lookup_insert_eq in Hc.
  eexists _, _. split; [exact Hc|]. cbn.
  repeat (split; [reflexivity|]). split.
  - unfold ArchiveService.getArchive, FileService.loadArchiveMetadata. cbn.
    rewrite fs_call_healthy by exact Hf. cbn.
    rewrite lookup_insert_eq. reflexivity.
  - intros j Hj. rewrite !lookup_insert_ne by congruence. reflexivity.
Qed.

Lemma createArchive_registers_witness :
  exists a s',
    @ArchiveService.createArchive SimpleUrl.parser example_world example_service
      "https://example.com" no_options = (Ok a, s')
    /\ id a = "id0" /\ url a = "https://example.com/"
    /\ fst (ArchiveService.getArchive s' "id0") = Ok a.
Proof.
  destruct (@createArchive_registers SimpleUrl.parser example_world example_service
              "https://example.com" "https://example.com/" "example.com" no_options
              eq_refl eq_refl eq_refl eq_refl eq_refl eq_refl)
    as (a & s' & Hc & Hi & Hu & _ & _ & _ & _ & _ & _ & _ & Hg & _).
  - vm_compute. lia.
  - intros i p Hp. vm_compute in Hp. discriminate.
  - exists a, s'. auto.
Defined.

(** One archive per URL at a time: while an archive of the same
    normalized URL is IN_PROGRESS, [createArchive] is rejected with the
    "already in progress" error and changes nothing. *)
Theorem createArchive_rejects_duplicate {parser : UrlParser} (w : World)
  (s : Service) (urlString n d i : string) (p : ArchiveProgress)
  (options : PartialCrawlerOptions) :
  normalizeUrl urlString = Some n -> Js.truthy n = true ->
  extractDomain n = Some d -> Js.truthy d = true ->
  size (activeArchives s) < maxConcurrentArchives s ->
  activeArchives s !! i = Some p -> p_url p = n -> p_status p = IN_PROGRESS ->
  ArchiveService.createArchive w s urlString options
  = (Throw ("Archive for " +:+ n +:+ " is already in progress"), s).
Proof.
  intros Hn Htn Hd Htd Hcap Hi Hu Hs. unfold ArchiveService.createArchive.
  rewrite Hn, Htn, Hd, Htd. cbn [negb].
  assert (Hc : (maxConcurrentArchives s <=? size (activeArchives s)) = false)
    by (apply Nat.leb_gt, Hcap).
  rewrite Hc, (duplicate_existsb s n i p Hi Hu Hs). reflexivity.
Qed.

Lemma createArchive_rejects_duplicate_witness :
  @ArchiveService.createArchive SimpleUrl.parser example_world (snd created_service)
    "https://example.com/#top" no_options
  = (Throw "Archive for https://example.com/ is already in progress",
     snd created_service).
Proof.
  apply (@createArchive_rejects_duplicate SimpleUrl.parser example_world
           (snd created_service) "https://example.com/#top" "https://example.com/"
           "example.com" "id0"
           (mkProgress "id0" "https://example.com/" IN_PROGRESS 0 0 0 0 [] 0 None));
    try reflexivity.
  vm_compute. lia.
Defined.

(** A URL that parses but is not http(s) passes the first tests of
    [createArchive] and is then refused with "Invalid URL provided",
    before anything is registered or written: no progress entry, no
    directory, no background run. *)
Theorem createArchive_rejects_other_schemes {parser : UrlParser} (w : World)
  (s : Service) (urlString n d : string) (options : PartialCrawlerOptions) :
  normalizeUrl urlString = Some n -> Js.truthy n = true ->
  extractDomain n = Some d -> Js.truthy d = true ->
  isValidUrl n = false ->
  size (activeArchives s) < maxConcurrentArchives s ->
  (forall i p, activeArchives s !! i = Some p -> p_url p = n ->
               p_status p <> IN_PROGRESS) ->
  exists s',
    ArchiveService.createArchive w s urlString options
    = (Throw "Invalid URL provided", s')
    /\ activeArchives s' = activeArchives s
    /\ dirs (storage s') = dirs (storage s)
    /\ background s' = background s.
Proof.
  intros Hn Htn Hd Htd Hv Hcap Hdup.
  pose proof (createArchive_admitted w s urlString n d options
                Hn Htn Hd Htd Hcap Hdup) as Hc.
  pose proof (getLatestVersionNumber_dirs (storage s) n) as Hdirs.
  destruct (ArchiveService.getLatestVersionNumber (storage s) n) as [v st0].
  rewrite Hv in Hc. eexists. split; [exact Hc|]. cbn. auto.
Qed.

Lemma createArchive_rejects_other_schemes_witness :
  exists s',
    @ArchiveService.createArchive SimpleUrl.parser example_world example_service
      "ftp://example.com/pub" no_options
    = (Throw "Invalid URL provided", s')
    /\ activeArchives s' = activeArchives example_service.
Proof.
  destruct (@createArchive_rejects_other_schemes SimpleUrl.parser example_world
              example_service "ftp://example.com/pub" "ftp://example.com/pub"
              "example.com" no_options eq_refl eq_refl eq_refl eq_refl eq_refl)
    as (s' & Hc & Ha & _).
  - vm_compute. lia.
  - intros i p Hp. vm_compute in Hp. discriminate.
  - exists s'. auto.
Defined.

(** The directories below the archive directory, on a schedule that lets
    the first [k] calls pass and fails the next one. *)
Lemma mkdirBelow_fails (paths : list string) :
  forall (st : Storage) (k : nat) (message : string) (rest : list (option string)),
    k < List.length paths ->
    faults st = replicate k None ++ Some message :: rest ->
    FileService.mkdirBelow st paths = (Some message, mkStorage (dirs st) rest).
Proof.
  induction paths as [|p paths IH]; intros st k message rest Hk Hf; cbn in Hk;
    [lia|].
  cbn [FileService.mkdirBelow]. unfold FileService.fs_call. rewrite Hf.
  destruct k as [|k]; cbn; [reflexivity|].
  rewrite (IH _ k message rest); [reflexivity|lia|reflexivity].
Qed.

Lemma mkdirBelow_passes (paths : list string) :
  forall (st : Storage) (rest : list (option string)),
    faults st = replicate (List.length paths) None ++ rest ->
    FileService.mkdirBelow st paths = (None, mkStorage (dirs st) rest).
Proof.
  induction paths as [|p paths IH]; intros st rest Hf; cbn in Hf |- *.
  - destruct st as [ds fs]. cbn in Hf. subst fs. reflexivity.
  - unfold FileService.fs_call. rewrite Hf. cbn.
    rewrite (IH _ rest); reflexivity.
Qed.

(** When the storage fails while [createArchive] sets the archive up, the
    call fails with "Failed to create archive: ..." and withdraws the
    progress entry it had registered, so the registry is as before (the
    identifier drawn being a fresh one).  If the first [mkdir] fails,
    nothing was written.  If one of the seven that follow it fails, or
    the writing of the manifest, the archive directory stays behind
    without a manifest. *)
Theorem createArchive_cleans_up_after_storage_failure {parser : UrlParser}
  (w : World) (s : Service) (urlString n d message : string)
  (rest : list (option string)) (options : PartialCrawlerOptions) :
  normalizeUrl urlString = Some n -> Js.truthy n = true ->
  extractDomain n = Some d -> Js.truthy d = true ->
  isValidUrl n = true ->
  size (activeArchives s) < maxConcurrentArchives s ->
  (forall i p, activeArchives s !! i = Some p -> p_url p = n ->
               p_status p <> IN_PROGRESS) ->
  activeArchives s !! uuid w (uuids s) = None ->
  let st0 := snd (ArchiveService.getLatestVersionNumber (storage s) n) in
  let left_behind :=
    <[uuid w (uuids s) := FileService.dir_or_new (storage s) (uuid w (uuids s))]>
      (dirs (storage s)) in
  (faults st0 = Some message :: rest ->
   exists s',
     ArchiveService.createArchive w s urlString options
     = (Throw ("Failed to create archive: Failed to initialize archive storage: "
               +:+ message), s')
     /\ activeArchives s' = activeArchives s
     /\ background s' = background s
     /\ dirs (storage s') = dirs (storage s))
  /\ (forall k, 1 <= k <= 7 ->
      faults st0 = replicate k None ++ Some message :: rest ->
      exists s',
        ArchiveService.createArchive w s urlString options
        = (Throw ("Failed to create archive: Failed to initialize archive storage: "
                  +:+ message), s')
        /\ activeArchives s' = activeArchives s
        /\ background s' = background s
        /\ dirs (storage s') = left_behind)
  /\ (faults st0 = replicate 8 None ++ Some message :: rest ->
      exists s',
        ArchiveService.createArchive w s urlString options
        = (Throw ("Failed to create archive: Failed to save archive metadata: "
                  +:+ message), s')
        /\ activeArchives s' = activeArchives s
        /\ background s' = background s
        /\ dirs (storage s') = left_behind).
Proof.
  intros Hn Htn Hd Htd Hv Hcap Hdup Hfresh st0 left_behind.
  pose proof (createArchive_admitted w s urlString n d options
                Hn Htn Hd Htd Hcap Hdup) as Hc.
  pose proof (getLatestVersionNumber_dirs (storage s) n) as Hdirs.
  subst st0 left_behind.
  destruct (ArchiveService.getLatestVersionNumber (storage s) n) as [v st0].
  cbn [snd] in *. rewrite Hv in Hc. cbv zeta in Hc.
  unfold FileService.initializeArchiveStorage in Hc.
  split; [|split].
  - intros Hf. unfold FileService.fs_call in Hc. rewrite Hf in Hc.
    eexists. split; [exact Hc|]. cbn.
    split; [apply delete_insert_id, Hfresh|]. split; [reflexivity|exact Hdirs].
  - intros k Hk Hf. destruct k as [|k]; [lia|].
    unfold FileService.fs_call at 1 in Hc. rewrite Hf in Hc.
    cbn [replicate app] in Hc.
    rewrite (mkdirBelow_fails _ _ k message rest) in Hc;
      [|cbn; lia|reflexivity].
    eexists. split; [exact Hc|]. cbn.
    split; [apply delete_insert_id, Hfresh|]. split; [reflexivity|].
    unfold FileService.dir_or_new. cbn. rewrite Hdirs. reflexivity.
  - intros Hf. unfold FileService.fs_call at 1 in Hc. rewrite Hf in Hc.
    cbn [replicate app] in Hc.
    rewrite (mkdirBelow_passes _ _ (Some message :: rest)) in Hc by reflexivity.
    unfold FileService.saveArchiveMetadata, FileService.fs_call in Hc.
    cbn [faults] in Hc.
    eexists. split; [exact Hc|]. cbn.
    split; [apply delete_insert_id, Hfresh|]. split; [reflexivity|].
    unfold FileService.dir_or_new. cbn. rewrite Hdirs. reflexivity.
Qed.

Lemma createArchive_cleans_up_after_storage_failure_witness :
  let s := ArchiveService.set_storage example_service
             (mkStorage ∅ [None; None; None; Some "EACCES: permission denied"]) in
  exists s',
    @ArchiveService.createArchive SimpleUrl.parser example_world s
      "https://example.com" no_options
    = (Throw "Failed to create archive: Failed to initialize archive storage: EACCES: permission denied",
       s')
    /\ activeArchives s' = activeArchives s
    /\ dirs (storage s') = {["id0" := mkDir None ∅]}.
Proof.
  intros s.
  destruct (@createArchive_cleans_up_after_storage_failure SimpleUrl.parser
              example_world s "https://example.com" "https://example.com/"
              "example.com" "EACCES: permission denied" [] no_options
              eq_refl eq_refl eq_refl eq_refl eq_refl) as (_ & H & _).
  - vm_compute. lia.
  - intros i p Hp. vm_compute in Hp. discriminate.
  - reflexivity.
  - destruct (H 2 ltac:(lia) eq_refl) as (s' & Hc & Ha & _ & Hd).
    exists s'. split; [exact Hc|]. split; [exact Ha|].
    rewrite Hd. vm_compute. reflexivity.
Defined.

(** [getLatestVersionNumber] swallows every error.  So when the listing
    of the storage fails at the moment an archive is created, the new
    archive gets version 1, whatever versions of the URL are stored. *)
Theorem failed_listing_resets_version {parser : UrlParser}
  (w : World) (s s' : Service) (urlString message : string)
  (rest : list (option string)) (options : PartialCrawlerOptions) (a : Archive) :
  faults (storage s) = Some message :: rest ->
  ArchiveService.createArchive w s urlString options = (Ok a, s') ->
  version a = 1.
Proof.
  intros Hf Hc. unfold ArchiveService.createArchive in Hc.
  destruct (normalizeUrl urlString) as [n|]; [|discriminate].
  destruct (Js.truthy n); [|discriminate].
  destruct (extractDomain n) as [d|]; [|discriminate].
  destruct (Js.truthy d); [|discriminate].
  cbn -[Nat.leb ArchiveService.getLatestVersionNumber] in Hc.
  destruct (maxConcurrentArchives s <=? size (activeArchives s)); [discriminate|].
  destruct (List.existsb _ _); [discriminate|].
  pose proof (getLatestVersionNumber_listing_fails (storage s) n message rest Hf) as Hv.
  destruct (ArchiveService.getLatestVersionNumber (storage s) n) as [v st0].
  cbn in Hv. subst v. cbn -[Nat.leb] in Hc.
  unfold validation_createArchive in Hc.
  destruct (isValidUrl n); [|discriminate].
  destruct (extractDomain n) as [d'|]; [|discriminate].
  destruct (Js.truthy d'); [|discriminate].
  cbn in Hc.
  destruct (FileService.initializeArchiveStorage _ _) as [[[]|m] st1];
    [|discriminate].
  destruct (FileService.saveArchiveMetadata _ _) as [[[]|m] st2];
    [|discriminate].
  injection Hc as <- _. reflexivity.
Qed.

Lemma failed_listing_resets_version_witness :
  let s := ArchiveService.set_storage archived_once
             (mkStorage (dirs (storage archived_once)) [Some "EIO: i/o error"]) in
  @storedVersions SimpleUrl.parser (storage s) "https://example.com/" = [1]
  /\ exists a s',
       @ArchiveService.createArchive SimpleUrl.parser example_world s
         "https://example.com" no_options = (Ok a, s')
       /\ version a = 1.
Proof.
  intros s. split; [vm_compute; reflexivity|].
  assert (Hc : exists a s',
             @ArchiveService.createArchive SimpleUrl.parser example_world s
               "https://example.com" no_options = (Ok a, s'))
    by (eexists _, _; vm_compute; reflexivity).
  destruct Hc as (a & s' & Hc). exists a, s'. split; [exact Hc|].
  exact (@failed_listing_resets_version SimpleUrl.parser example_world
           s s' "https://example.com" "EIO: i/o error" [] no_options a eq_refl Hc).
Defined.

(** * Listings of the stored archives *)

Section SortedFacts.
Context {A : Type}.
Variable le : A -> A -> bool.
Hypothesis le_total : forall a b, le a b = false -> le b a = true.
Hypothesis le_trans : forall a b c, le a b = true -> le b c = true -> le a c = true.

Lemma insertBy_sorted (x : A) (l : list A) :
  StronglySorted (fun a b => le a b = true) l ->
  StronglySorted (fun a b => le a b = true) (insertBy le x l).
Proof.
  induction 1 as [|y l Hs IH Hall]; cbn.
  - repeat constructor.
  - destruct (le y x) eqn:Hle.
    + constructor; [exact IH|].
      rewrite insertBy_Permutation. constructor; assumption.
    + apply le_total in Hle.
      constructor; [constructor; assumption|].
      constructor; [exact Hle|].
      eapply List.Forall_impl; [|exact Hall].
      intros z Hz. eapply le_trans; eassumption.
Qed.

Lemma sortBy_sorted (l : list A) :
  StronglySorted (fun a b => le a b = true) (sortBy le l).
Proof.
  unfold sortBy.
  assert (H : forall acc, StronglySorted (fun a b => le a b = true) acc ->
            StronglySorted (fun a b => le a b = true)
              (List.fold_left (fun acc x => insertBy le x acc) l acc)).
  { induction l as [|x l IH]; intros acc Hacc; cbn; [exact Hacc|].
    apply IH, insertBy_sorted, Hacc. }
  apply H. constructor.
Qed.

End SortedFacts.

Lemma StronglySorted_weaken {A} (R R' : A -> A -> Prop) (l : list A) :
  (forall a b, R a b -> R' a b) -> StronglySorted R l -> StronglySorted R' l.
Proof.
  intros HR. induction 1 as [|x l Hs IH Hall]; constructor; [exact IH|].
  eapply List.Forall_impl; [|exact Hall]. intros b. apply HR.
Qed.

Lemma sortBy_desc_sorted {A} (key : A -> nat) (l : list A) :
  StronglySorted (fun a b => key b <= key a)
    (sortBy (fun a b => key b <=? key a) l).
Proof.
  apply (StronglySorted_weaken (fun a b => (key b <=? key a) = true)).
  - intros a b H. apply Nat.leb_le, H.
  - apply sortBy_sorted.
    + intros a b H. apply Nat.leb_gt in H. apply Nat.leb_le. lia.
    + intros a b c H1 H2. apply Nat.leb_le in H1, H2. apply Nat.leb_le. lia.
Qed.

Section Listings.
Context {parser : UrlParser}.

Lemma storedArchives_In (st : Storage) (a : Archive) :
  In a (storedArchives st)
  <-> exists i dir, dirs st !! i = Some dir /\ manifest dir = Some a.
Proof.
  unfold storedArchives. rewrite <- list_elem_of_In, list_elem_of_omap. split.
  - intros ([i dir] & Hin & Hm). apply elem_of_map_to_list in Hin. eauto.
  - intros (i & dir & Hd & Hm). exists (i, dir). split; [|exact Hm].
    apply elem_of_map_to_list. exact Hd.
Qed.

Lemma getArchiveVersions_healthy (st : Storage) (u n : string) :
  faults st = [] -> normalizeUrl u = Some n -> Js.truthy n = true ->
  ArchiveService.getArchiveVersions st u
  = (Ok (sortBy (fun a b => version b <=? version a)
           (List.filter (ArchiveService.sameNormalizedUrl n)
              (sortBy (fun a b => timestamp b <=? timestamp a)
                 (storedArchives st)))), st).
Proof.
  intros Hf Hn Ht. unfold ArchiveService.getArchiveVersions.
  rewrite Hn, Ht, (getArchives_healthy st Hf). reflexivity.
Qed.

(** The grouping loop: under a non-empty key, the archives of that URL
    in the order of the listing, appended to what the object held. *)
Lemma groupByUrl_fold (all : list Archive) (k : string) :
  Js.truthy k = true ->
  forall acc : gmap string (list Archive),
    List.fold_left
      (fun groupedArchives archive =>
         match normalizeUrl (url archive) with
         | Some normalizedUrl =>
             if negb (Js.truthy normalizedUrl) then groupedArchives
             else
               <[normalizedUrl :=
                   default [] (groupedArchives !! normalizedUrl) ++ [archive]]>
                 groupedArchives
         | None => groupedArchives
         end) all acc !! k
    = match acc !! k, List.filter (ArchiveService.sameNormalizedUrl k) all with
      | None, [] => None
      | o, l => Some (default [] o ++ l)
      end.
Proof.
  intros Hk. induction all as [|a all IH]; intros acc; cbn [List.fold_left List.filter].
  - destruct (acc !! k); cbn; rewrite ?app_nil_r; reflexivity.
  - rewrite IH.
    replace (ArchiveService.sameNormalizedUrl k a)
      with (bool_decide (normalizeUrl (url a) = Some k)) by reflexivity.
    destruct (normalizeUrl (url a)) as [k'|] eqn:Hn.
    + destruct (Js.truthy k') eqn:Hk'; cbn [negb].
      * destruct (decide (k' = k)) as [->|Hne].
        -- rewrite lookup_insert_eq, bool_decide_eq_true_2 by reflexivity.
           destruct (acc !! k); cbn; rewrite <- ?app_assoc; reflexivity.
        -- rewrite lookup_insert_ne by exact Hne.
           rewrite bool_decide_eq_false_2 by congruence. reflexivity.
      * rewrite bool_decide_eq_false_2 by congruence. reflexivity.
    + rewrite bool_decide_eq_false_2 by congruence. reflexivity.
Qed.

End Listings.

(** [getArchives] on a storage that answers its calls: every archive
    whose manifest can be read is listed exactly once, a directory without
    a readable manifest is skipped, and the list is ordered newest
    first. *)
Theorem getArchives_newest_first (st : Storage) :
  faults st = [] ->
  exists l,
    ArchiveService.getArchives st = (Ok l, st)
    /\ Permutation l (storedArchives st)
    /\ (forall a, In a l
          <-> exists i dir, dirs st !! i = Some dir /\ manifest dir = Some a)
    /\ StronglySorted (fun a b => timestamp b <= timestamp a) l.
Proof.
  intros Hf. eexists. split; [apply getArchives_healthy, Hf|].
  split; [apply sortBy_Permutation|]. split.
  - intros a. rewrite <- storedArchives_In. split; intros H;
      (eapply Permutation_in; [|exact H]);
      [|symmetry]; apply sortBy_Permutation.
  - apply sortBy_desc_sorted.
Qed.

Lemma getArchives_newest_first_witness :
  exists l,
    ArchiveService.getArchives (storage archived_twice)
    = (Ok l, storage archived_twice)
    /\ List.map id l = ["id1"; "id0"].
Proof.
  destruct (getArchives_newest_first (storage archived_twice) eq_refl)
    as (l & Hl & _).
  exists l. split; [exact Hl|].
  assert (H : fst (ArchiveService.getArchives (storage archived_twice))
              = Ok l) by (rewrite Hl; reflexivity).
  vm_compute in H. injection H as <-. reflexivity.
Defined.

(** [getArchiveVersions] on a storage that answers its calls: the
    archives returned are exactly the stored ones whose URL normalizes to
    the normalized form of the argument, highest version first.  A URL
    that does not parse is refused with an "Invalid URL" error before the
    storage is read. *)
Theorem getArchiveVersions_of_url {parser : UrlParser}
  (st : Storage) (u : string) :
  (forall n,
     faults st = [] -> normalizeUrl u = Some n -> Js.truthy n = true ->
     exists vs,
       ArchiveService.getArchiveVersions st u = (Ok vs, st)
       /\ Permutation vs
            (List.filter (fun a => bool_decide (normalizeUrl (url a) = Some n))
               (storedArchives st))
       /\ (forall a, In a vs
             <-> In a (storedArchives st) /\ normalizeUrl (url a) = Some n)
       /\ StronglySorted (fun a b => version b <= version a) vs)
  /\ (normalizeUrl u = None ->
      ArchiveService.getArchiveVersions st u
      = (Throw ("Failed to get archive versions: Invalid URL: " +:+ u), st)).
Proof.
  split.
  - intros n Hf Hn Ht. eexists.
    split; [apply (getArchiveVersions_healthy st u n Hf Hn Ht)|].
    assert (Hp : Permutation
                   (sortBy (fun a b => version b <=? version a)
                      (List.filter (ArchiveService.sameNormalizedUrl n)
                         (sortBy (fun a b => timestamp b <=? timestamp a)
                            (storedArchives st))))
                   (List.filter (ArchiveService.sameNormalizedUrl n)
                      (storedArchives st))).
    { rewrite sortBy_Permutation.
      apply filter_Permutation_bool, sortBy_Permutation. }
    split; [exact Hp|]. split.
    + intros a. split.
      * intros H. eapply Permutation_in in H; [|exact Hp].
        apply List.filter_In in H as [H1 H2]. split; [exact H1|].
        apply bool_decide_eq_true_1 in H2. exact H2.
      * intros [H1 H2]. eapply Permutation_in; [symmetry; exact Hp|].
        apply List.filter_In. split; [exact H1|].
        apply bool_decide_eq_true_2. exact H2.
    + apply sortBy_desc_sorted.
  - intros Hn. unfold ArchiveService.getArchiveVersions. rewrite Hn. reflexivity.
Qed.

(** The two views of the versions of a URL agree: in the object
    [getArchivesByUrl] returns, the entry under a normalized URL is the
    list [getArchiveVersions] returns for it, and there is no entry when
    that list is empty. *)
Theorem getArchivesByUrl_agrees_with_versions {parser : UrlParser}
  (st : Storage) (u n : string) :
  faults st = [] -> normalizeUrl u = Some n -> Js.truthy n = true ->
  exists vs groupedArchives,
    ArchiveService.getArchiveVersions st u = (Ok vs, st)
    /\ ArchiveService.getArchivesByUrl st = (Ok groupedArchives, st)
    /\ groupedArchives !! n = match vs with [] => None | _ => Some vs end.
Proof.
  intros Hf Hn Ht. eexists _, _.
  split; [apply (getArchiveVersions_healthy st u n Hf Hn Ht)|].
  unfold ArchiveService.getArchivesByUrl. rewrite (getArchives_healthy st Hf).
  split; [reflexivity|].
  rewrite lookup_fmap. unfold ArchiveService.groupByUrl.
  rewrite (groupByUrl_fold _ n Ht ∅), lookup_empty.
  set (l := List.filter _ _).
  pose proof (sortBy_Permutation (fun a b => version b <=? version a) l) as Hp.
  destruct l as [|a l'].
  - reflexivity.
  - cbn [default app fmap option_fmap option_map].
    destruct (sortBy _ (a :: l')) as [|b vs'] eqn:Hs; [|reflexivity].
    apply Permutation_nil in Hp. discriminate.
Qed.

Lemma getArchivesByUrl_agrees_with_versions_witness :
  exists vs groupedArchives,
    @ArchiveService.getArchiveVersions SimpleUrl.parser (storage archived_twice)
      "https://example.com/#history" = (Ok vs, storage archived_twice)
    /\ @ArchiveService.getArchivesByUrl SimpleUrl.parser (storage archived_twice)
       = (Ok groupedArchives, storage archived_twice)
    /\ groupedArchives !! "https://example.com/" = Some vs
    /\ List.map version vs = [2; 1].
Proof.
  destruct (@getArchivesByUrl_agrees_with_versions SimpleUrl.parser
              (storage archived_twice) "https://example.com/#history"
              "https://example.com/" eq_refl eq_refl eq_refl)
    as (vs & g & Hv & Hg & Hl).
  exists vs, g. split; [exact Hv|]. split; [exact Hg|].
  assert (H : fst (@ArchiveService.getArchiveVersions SimpleUrl.parser
                     (storage archived_twice) "https://example.com/#history")
              = Ok vs) by (rewrite Hv; reflexivity).
  vm_compute in H. injection H as <-. split; [exact Hl|reflexivity].
Defined.

(** * Invariants of the registry of active archives *)

Section Registry.
Context {parser : UrlParser}.
Variable w : World.

Lemma existsb_no_duplicate (s : Service) (n : string) :
  List.existsb (ArchiveService.inProgressFor n)
    (List.map snd (map_to_list (activeArchives s))) = false ->
  forall i p, activeArchives s !! i = Some p -> p_url p = n ->
              p_status p <> IN_PROGRESS.
Proof.
  intros He i p Hi Hu Hs.
  rewrite (duplicate_existsb s n i p Hi Hu Hs) in He. discriminate.
Qed.

(** What [createArchive] does to the registry: nothing, or it adds one
    IN_PROGRESS entry (and withdraws it again when the storage fails),
    which it only does below the cap and when no entry of the same URL is
    in progress. *)
Lemma createArchive_registry (s : Service) (urlString : string)
  (options : PartialCrawlerOptions) :
  let s' := snd (ArchiveService.createArchive w s urlString options) in
  maxConcurrentArchives s' = maxConcurrentArchives s
  /\ (activeArchives s' = activeArchives s
      \/ exists i p,
           size (activeArchives s) < maxConcurrentArchives s
           /\ p_status p = IN_PROGRESS
           /\ (forall j q, activeArchives s !! j = Some q -> p_url q = p_url p ->
                           p_status q <> IN_PROGRESS)
           /\ (activeArchives s' = <[i := p]> (activeArchives s)
               \/ activeArchives s' = delete i (<[i := p]> (activeArchives s)))).
Proof.
  unfold ArchiveService.createArchive.
  destruct (normalizeUrl urlString) as [n|]; [|cbn; auto].
  destruct (Js.truthy n); cbn [negb]; [|cbn; auto].
  destruct (extractDomain n) as [d|] eqn:Hd; [|cbn; auto].
  destruct (Js.truthy d) eqn:Htd; cbn [negb]; [|cbn; auto].
  destruct (maxConcurrentArchives s <=? size (activeArchives s)) eqn:Hcap;
    [cbn; auto|].
  apply Nat.leb_gt in Hcap.
  destruct (List.existsb _ _) eqn:Hdup; [cbn; auto|].
  pose proof (existsb_no_duplicate s n Hdup) as Hno.
  destruct (ArchiveService.getLatestVersionNumber (storage s) n) as [v st0].
  unfold validation_createArchive. rewrite Hd, Htd.
  destruct (isValidUrl n); cbn [negb]; [|cbn; auto].
  cbn -[FileService.initializeArchiveStorage FileService.saveArchiveMetadata].
  destruct (FileService.initializeArchiveStorage _ _) as [[[]|m] st1].
  - destruct (FileService.saveArchiveMetadata _ _) as [[[]|m] st2]; cbn;
      (split; [reflexivity|]); right;
      exists (uuid w (uuids s)),
        (mkProgress (uuid w (uuids s)) n IN_PROGRESS 0 0 0 0 [] (clock s) None);
      (split; [exact Hcap|]); (split; [reflexivity|]); (split; [exact Hno|]); auto.
  - cbn. split; [reflexivity|]. right.
    exists (uuid w (uuids s)),
      (mkProgress (uuid w (uuids s)) n IN_PROGRESS 0 0 0 0 [] (clock s) None).
    split; [exact Hcap|]. split; [reflexivity|]. split; [exact Hno|]. auto.
Qed.

(** What a finished run does to the registry: it replaces the entry of
    its archive, if there is one, by an entry with a terminal status. *)
Lemma finishArchiving_registry (s : Service) (archive : Archive)
  (oc : CrawlOutcome) :
  let s' := ArchiveService.finishArchiving w s archive oc in
  maxConcurrentArchives s' = maxConcurrentArchives s
  /\ (activeArchives s' = activeArchives s
      \/ exists p,
           is_Some (activeArchives s !! id archive)
           /\ terminal (p_status p) = true
           /\ activeArchives s' = <[id archive := p]> (activeArchives s)).
Proof.
  cbn zeta.
  destruct (activeArchives s !! id archive) as [p0|] eqn:Hp0.
  - destruct (finishArchiving_keeps_entry w s archive oc) as (p & Hp & Ht & _);
      [rewrite Hp0; eauto|].
    unfold ArchiveService.finishArchiving in *. rewrite Hp0 in *.
    destruct (match ArchiveService.archivingBody w (clock s) archive (outcome oc)
                      (storage s) (ArchiveService.report p0 (lastReport oc)) with
              | (Ok _, st, progress) => (st, progress)
              | (Throw message, st, progress) =>
                  ArchiveService.archivingFailed (clock s) archive message st progress
              end) as [st p1].
    cbn in *. rewrite lookup_insert_eq in Hp. injection Hp as ->.
    split; [reflexivity|]. right. exists p. eauto.
  - unfold ArchiveService.finishArchiving. rewrite Hp0. auto.
Qed.

Lemma retire_registry (s : Service) (archiveId : string) :
  maxConcurrentArchives (ArchiveService.retire s archiveId) = maxConcurrentArchives s
  /\ (activeArchives (ArchiveService.retire s archiveId) = activeArchives s
      \/ activeArchives (ArchiveService.retire s archiveId)
         = delete archiveId (activeArchives s)).
Proof.
  unfold ArchiveService.retire. destruct (mem_string _ _); cbn; auto.
Qed.

Lemma deleteArchive_registry (s : Service) (archiveId : string) :
  maxConcurrentArchives (snd (ArchiveService.deleteArchive s archiveId))
  = maxConcurrentArchives s
  /\ activeArchives (snd (ArchiveService.deleteArchive s archiveId))
     = activeArchives s.
Proof.
  unfold ArchiveService.deleteArchive.
  destruct (bool_decide _); [auto|].
  destruct (FileService.deleteArchive _ _) as [[[]|m] st]; auto.
Qed.

(** The registry after a step, in terms of the registry before. *)
Lemma serviceStep_registry (s s' : Service) :
  serviceStep w s s' ->
  maxConcurrentArchives s' = maxConcurrentArchives s
  /\ (activeArchives s' = activeArchives s
      \/ (exists i, activeArchives s' = delete i (activeArchives s))
      \/ (exists p, is_Some (activeArchives s !! p.1)
                    /\ terminal (p_status p.2) = true
                    /\ activeArchives s' = <[p.1 := p.2]> (activeArchives s))
      \/ exists i p,
           size (activeArchives s) < maxConcurrentArchives s
           /\ p_status p = IN_PROGRESS
           /\ (forall j q, activeArchives s !! j = Some q -> p_url q = p_url p ->
                           p_status q <> IN_PROGRESS)
           /\ (activeArchives s' = <[i := p]> (activeArchives s)
               \/ activeArchives s' = delete i (<[i := p]> (activeArchives s)))).
Proof.
  intros [s0 u o|s0 a oc|s0 i|s0 i].
  - destruct (createArchive_registry s0 u o) as [Hm [H|H]]; auto 6.
  - destruct (finishArchiving_registry s0 a oc) as [Hm [H|(p & H1 & H2 & H3)]];
      [auto|].
    split; [exact Hm|]. right. right. left. exists (id a, p). auto.
  - destruct (retire_registry s0 i) as [Hm [H|H]]; eauto 6.
  - destruct (deleteArchive_registry s0 i) as [Hm H]; auto.
Qed.

End Registry.

(** As long as calls do not overlap (each runs to its end before the
    next starts), the registry of active archives never holds more entries
    than the concurrency cap, whatever sequence of creations, finished
    runs, retirements and deletions the service goes through; the cap is
    the one the service was constructed with (3 when none or 0 is given)
    and is at least 1. *)
Theorem registry_within_cap {parser : UrlParser} (w : World)
  (options : ArchiveServiceOptions) (st : Storage) (s : Service) :
  reachable w options st s ->
  size (activeArchives s) <= maxConcurrentArchives s
  /\ 1 <= maxConcurrentArchives s
  /\ maxConcurrentArchives s
     = match so_maxConcurrentArchives options with
       | Some (S k) => S k
       | _ => 3
       end.
Proof.
  induction 1 as [|s s' _ (IH1 & IH2 & IH3) Hstep].
  - unfold ArchiveService.newService. cbn [maxConcurrentArchives activeArchives].
    rewrite map_size_empty.
    destruct (so_maxConcurrentArchives options) as [[|k]|]; repeat split; lia.
  - destruct (serviceStep_registry w s s' Hstep)
      as [Hm [Ha|[[i Ha]|[(p & Hin & _ & Ha)|(i & p & Hlt & _ & _ & [Ha|Ha])]]]];
      rewrite Hm, Ha; (split; [|split; [exact IH2|exact IH3]]).
    + exact IH1.
    + rewrite map_size_delete.
      destruct (activeArchives s !! i); unfold Datatypes.id; lia.
    + rewrite map_size_insert_Some by exact Hin. exact IH1.
    + rewrite map_size_insert.
      destruct (activeArchives s !! i); unfold Datatypes.id; lia.
    + rewrite map_size_delete, map_size_insert, lookup_insert_eq.
      destruct (activeArchives s !! i); unfold Datatypes.id; lia.
Qed.

Lemma registry_within_cap_witness :
  size (activeArchives (snd created_service)) <= 3.
Proof.
  refine (proj1 (@registry_within_cap SimpleUrl.parser example_world
                   (mkServiceOptions (mkPartialOptions None (Some 10%Q) None None) None)
                   (mkStorage ∅ []) (snd created_service) _)).
  eapply reach_step; [apply reach_new|].
  apply (@step_create SimpleUrl.parser example_world).
Defined.

(** As long as calls do not overlap, at most one archive per normalized
    URL is IN_PROGRESS at any moment: in every state the service reaches
    through calls that each run to their end, two registry entries that
    are both IN_PROGRESS and carry the same URL are the same entry. *)
Theorem one_run_per_url {parser : UrlParser} (w : World)
  (options : ArchiveServiceOptions) (st : Storage) (s : Service) :
  reachable w options st s ->
  forall i j p q,
    activeArchives s !! i = Some p -> activeArchives s !! j = Some q ->
    p_status p = IN_PROGRESS -> p_status q = IN_PROGRESS ->
    p_url p = p_url q ->
    i = j.
Proof.
  induction 1 as [|s s' _ IH Hstep]; intros i j p q Hi Hj Hp Hq Hu.
  - cbn in Hi. rewrite lookup_empty in Hi. discriminate.
  - destruct (serviceStep_registry w s s' Hstep)
      as [_ [Ha|[[k Ha]|[(e & _ & Hterm & Ha)|(k & e & _ & He & Hno & Hins)]]]].
    + rewrite Ha in Hi, Hj. eauto.
    + rewrite Ha in Hi, Hj.
      apply lookup_delete_Some in Hi as [_ Hi]. apply lookup_delete_Some in Hj as [_ Hj].
      eauto.
    + rewrite Ha in Hi, Hj.
      apply lookup_insert_Some in Hi as [[<- <-]|[_ Hi]];
        [rewrite Hp in Hterm; discriminate|].
      apply lookup_insert_Some in Hj as [[<- <-]|[_ Hj]];
        [rewrite Hq in Hterm; discriminate|].
      eauto.
    + assert (Hsub : forall x y, activeArchives s' !! x = Some y ->
                (x = k /\ y = e) \/ (x <> k /\ activeArchives s !! x = Some y)).
      { intros x y Hx. destruct Hins as [Ha|Ha]; rewrite Ha in Hx.
        - apply lookup_insert_Some in Hx as [[<- <-]|[Hne Hx]]; auto.
        - apply lookup_delete_Some in Hx as [Hne Hx].
          rewrite lookup_insert_ne in Hx by exact Hne. auto. }
      destruct (Hsub i p Hi) as [[-> ->]|[Hik Hi']];
        destruct (Hsub j q Hj) as [[-> ->]|[Hjk Hj']].
      * reflexivity.
      * exfalso. apply (Hno j q Hj'); [symmetry; exact Hu|exact Hq].
      * exfalso. apply (Hno i p Hi'); [exact Hu|exact Hp].
      * eauto.
Qed.

Lemma one_run_per_url_witness :
  let s := snd (@ArchiveService.createArchive SimpleUrl.parser example_world
                  (snd created_service) "https://example.org/docs" no_options) in
  let p := mkProgress "id1" "https://example.org/docs" IN_PROGRESS 0 0 0 0 [] 0 None in
  activeArchives s !! "id1" = Some p
  /\ size (activeArchives s) = 2
  /\ "id1" = "id1".
Proof.
  intros s p.
  assert (Hp : activeArchives s !! "id1" = Some p) by (vm_compute; reflexivity).
  split; [exact Hp|]. split; [vm_compute; reflexivity|].
  refine (@one_run_per_url SimpleUrl.parser example_world
            (mkServiceOptions (mkPartialOptions None (Some 10%Q) None None) None)
            (mkStorage ∅ []) s _ "id1" "id1" p p Hp Hp eq_refl eq_refl eq_refl).
  eapply reach_step; [eapply reach_step; [apply reach_new|]|].
  - apply (@step_create SimpleUrl.parser example_world _ "https://example.com" no_options).
  - apply (@step_create SimpleUrl.parser example_world).
Defined.

(** * What a finished run leaves in the storage and in the manifest *)

Section DownloadAll.
Context {parser : UrlParser}.
Variable w : World.
Variable now : nat.
Variable archiveId : string.

(** One download on a healthy storage, for an asset whose URL parses:
    whether the content or the placeholder is saved, the asset gets the
    path the file service derives from its URL and type, a file is there,
    and at most one error, a recoverable STORAGE_ERROR, is recorded. *)
Lemma downloadAsset_local (allAssets : list Asset) (idx : nat) (asset : Asset)
  (st : Storage) (progress : ArchiveProgress) (path : string) :
  faults st = [] ->
  FileNaming.assetRelativePath (originalUrl asset) (assetType asset) = Ok path ->
  exists sz st' p',
    ArchiveService.downloadAsset w now archiveId allAssets idx asset st progress
    = (ArchiveService.set_local asset path sz, st', p')
    /\ extends archiveId st st'
    /\ stored st' archiveId path
    /\ (p_errors p' = p_errors progress
        \/ exists e, p_errors p' = p_errors progress ++ [e]
                     /\ err_type e = STORAGE_ERROR /\ recoverable e = true
                     /\ err_url e = Some (originalUrl asset)).
Proof.
  intros Hf Hp. unfold ArchiveService.downloadAsset, ArchiveService.tryDownload.
  destruct (ArchiveService.downloadAssetContent w idx (originalUrl asset))
    as [content|m].
  - rewrite (saveAsset_healthy _ _ _ _ _ _ Hf Hp).
    destruct (write_file_extends archiveId path
                (if bool_decide (assetType asset = CSS) && (0 <? String.length content)
                 then ArchiveService.rewriteCssUrls w content (originalUrl asset)
                        archiveId allAssets
                 else content) st Hf) as (He & Hs & _).
    eexists _, _, _. split; [reflexivity|]. split; [exact He|].
    split; [exact Hs|]. left. reflexivity.
  - rewrite (saveAsset_healthy _ _ _ _ _ _ Hf Hp).
    destruct (write_file_extends archiveId path (placeholder (originalUrl asset))
                st Hf) as (He & Hs & _).
    eexists _, _, _. split; [reflexivity|]. split; [exact He|].
    split; [exact Hs|]. right. eexists. split; [reflexivity|]. cbn. auto.
Qed.

Lemma downloadAssets_go_all (todo : list Asset) :
  forall (finished : list Asset) (st : Storage) (progress : ArchiveProgress)
         (out : list Asset) (st' : Storage) (p' : ArchiveProgress),
    faults st = [] ->
    Forall (fun a => isValidUrl (originalUrl a) = true) todo ->
    ArchiveService.downloadAssets_go w now archiveId finished todo st progress
    = (out, st', p') ->
    extends archiveId st st'
    /\ exists done,
         out = finished ++ done
         /\ List.map originalUrl done = List.map originalUrl todo
         /\ List.map assetType done = List.map assetType todo
         /\ List.map contentType done = List.map contentType todo
         /\ Forall (fun a =>
                      FileNaming.assetRelativePath (originalUrl a) (assetType a)
                      = Ok (localPath a)
                      /\ stored st' archiveId (localPath a)) done.
Proof.
  induction todo as [|asset rest IH];
    intros finished st progress out st' p' Hf Hvalid Hgo.
  - cbn in Hgo. injection Hgo as <- <- <-.
    split; [apply extends_refl, Hf|]. exists []. rewrite app_nil_r.
    repeat split; constructor.
  - cbn [ArchiveService.downloadAssets_go] in Hgo.
    apply Forall_cons in Hvalid as [Hv Hvalid].
    destruct (assetRelativePath_valid (originalUrl asset) (assetType asset) Hv)
      as [path Hpath].
    destruct (downloadAsset_local (finished ++ asset :: rest) (List.length finished)
                asset st progress path Hf Hpath)
      as (sz & st1 & p1 & Hstep & Hext1 & Hst1 & _).
    rewrite Hstep in Hgo.
    destruct (IH _ _ _ _ _ _ (proj1 Hext1) Hvalid Hgo)
      as (Hext & done & -> & Hu & Ht & Hc & Hall).
    split; [eapply extends_trans; eassumption|].
    exists (ArchiveService.set_local asset path sz :: done).
    split; [rewrite <- app_assoc; reflexivity|].
    cbn. rewrite Hu, Ht, Hc. repeat split.
    constructor; [|exact Hall]. cbn. split; [exact Hpath|].
    apply (proj2 (proj2 Hext)), Hst1.
Qed.

Lemma processPages_stored (ps : list ArchivedPage) :
  forall (acc : list ArchivedPage) (st : Storage) (progress : ArchiveProgress),
    faults st = [] ->
    exists st' p',
      ArchiveService.processPages w now archiveId ps acc st progress
      = (acc ++ List.map withoutHtml ps, st', p')
      /\ extends archiveId st st'
      /\ p_errors p' = p_errors progress
      /\ pagesCrawled p' = pagesCrawled progress + List.length ps
      /\ p_totalSize p' = p_totalSize progress
      /\ Forall (fun page =>
                   stored st' archiveId (NodePath.join ["pages"; page_path page]))
           ps.
Proof.
  induction ps as [|page rest IH]; intros acc st progress Hf.
  - cbn. eexists _, _. rewrite app_nil_r. split; [reflexivity|].
    split; [apply extends_refl, Hf|]. repeat split; [lia|constructor].
  - cbn [ArchiveService.processPages]. unfold ArchiveService.processPage.
    unfold FileService.saveHtml. rewrite (fs_call_healthy _ Hf).
    match goal with
    | |- context [FileService.write_file st ?i ?full ?c] =>
        pose proof (write_file_extends i full c st Hf) as (Hext & Hst & _)
    end.
    cbn [fst snd].
    edestruct (IH (acc ++ [withoutHtml page])) as (st' & p' & Hr & Hext' & He & Hc & Ht & Hall);
      [exact (proj1 Hext)|].
    unfold withoutHtml in Hr at 1. rewrite Hr.
    eexists _, _. split; [rewrite <- app_assoc; reflexivity|].
    split; [eapply extends_trans; eassumption|]. split; [exact He|].
    split; [rewrite Hc; cbn; lia|]. split; [exact Ht|].
    constructor; [|exact Hall]. apply (proj2 (proj2 Hext')), Hst.
Qed.

End DownloadAll.

Section Regroup.

Lemma regroup_pages (ps : list ArchivedPage) :
  forall flat : list Asset,
    List.map page_url (regroup ps flat) = List.map page_url ps
    /\ List.map page_path (regroup ps flat) = List.map page_path ps
    /\ List.length (regroup ps flat) = List.length ps.
Proof.
  induction ps as [|p rest IH]; intros flat; cbn; [auto|].
  destruct (IH (List.skipn (List.length (assets p)) flat)) as (-> & -> & ->). auto.
Qed.

End Regroup.

Section FinishedRun.
Context {parser : UrlParser}.
Variable w : World.

(** The manifest a run writes when the crawl succeeded and the storage
    answers its calls, for a crawl result whose assets have valid URLs. *)
Lemma finishArchiving_success (s : Service) (archive : Archive)
  (progress : ArchiveProgress) (r : option (nat * nat * string))
  (result : CrawlResult) :
  activeArchives s !! id archive = Some progress ->
  faults (storage s) = [] ->
  is_Some (dirs (storage s) !! id archive) ->
  Forall (fun a => isValidUrl (originalUrl a) = true)
    (List.concat (List.map assets (cr_pages result))) ->
  let s' := ArchiveService.finishArchiving w s archive (mkOutcome r (Ok result)) in
  exists done d p',
    activeArchives s' !! id archive = Some p'
    /\ p_status p' = ArchiveService.finalStatus (p_errors p')
    /\ (exists extra,
          p_errors p' = p_errors progress ++ cr_errors result ++ extra)
    /\ dirs (storage s') !! id archive = Some d
    /\ manifest d
       = Some (mkArchive (id archive) (url archive) (domain archive)
                 (timestamp archive) (ArchiveService.finalStatus (p_errors p'))
                 (version archive)
                 (mkMetadata (List.length (cr_pages result)) (List.length done)
                    (p_totalSize p') (cr_duration result))
                 (List.map withoutHtml (regroup (cr_pages result) done))
                 (p_errors p'))
    /\ List.map originalUrl done
       = List.map originalUrl (List.concat (List.map assets (cr_pages result)))
    /\ Forall (fun a =>
                 FileNaming.assetRelativePath (originalUrl a) (assetType a)
                 = Ok (localPath a)
                 /\ is_Some (files d !! localPath a)) done
    /\ Forall (fun page =>
                 is_Some (files d !! NodePath.join ["pages"; page_path page]))
         (cr_pages result).
Proof.
  intros Hp Hf Hdir Hvalid s'. subst s'.
  unfold ArchiveService.finishArchiving. rewrite Hp.
  cbn [outcome lastReport]. unfold ArchiveService.archivingBody.
  unfold ArchiveService.downloadAssets.
  set (p0 := mkProgress _ _ _ _ _ _ _ _ _ _).
  assert (Hp0 : p_errors p0
                = p_errors progress ++ cr_errors result).
  { subst p0. cbn. destruct r as [[[? ?] ?]|]; reflexivity. }
  destruct (ArchiveService.downloadAssets_go w (clock s) (id archive) []
              (List.concat (List.map assets (cr_pages result))) (storage s) p0)
    as [[out st1] p1] eqn:Hgo.
  destruct (downloadAssets_go_spec w (clock s) (id archive) _ _ _ _ _ _ _ Hf Hgo)
    as (_ & Hlen & (extra & Herr1) & _).
  destruct (downloadAssets_go_all w (clock s) (id archive) _ _ _ _ _ _ _ Hf Hvalid Hgo)
    as (Hext1 & done & Hout & Hurls & _ & _ & Hall).
  cbn [app] in Hout. subst out. cbn in Hlen.
  destruct (processPages_stored w (clock s) (id archive)
              (regroup (cr_pages result) done) [] st1 p1 (proj1 Hext1))
    as (st2 & p2 & Hpp & Hext2 & Herr2 & _ & _ & Hpages).
  rewrite Hpp. cbn [app].
  match goal with
  | |- context [FileService.saveArchiveMetadata st2 ?fa] =>
      destruct (saveArchiveMetadata_healthy st2 fa (proj1 Hext2))
        as (st3 & Hsave & _ & d & Hd & Hman & Hfiles);
      [cbn [id]; apply (proj1 (proj2 Hext2)), (proj1 (proj2 Hext1)), Hdir|];
      rewrite Hsave
  end.
  cbn [id] in Hd, Hfiles.
  exists done, d. eexists. cbn.
  split; [apply lookup_insert_eq|]. split; [reflexivity|]. split.
  { exists extra. cbn. rewrite Herr2, Herr1, Hp0, <- app_assoc. reflexivity. }
  split; [exact Hd|]. split.
  { rewrite Hman. cbn.
    rewrite List.length_map, (proj2 (proj2 (regroup_pages _ _))). reflexivity. }
  split; [exact Hurls|]. split.
  - eapply List.Forall_impl; [|exact Hall]. intros a [H1 H2]. split; [exact H1|].
    apply Hfiles, (proj2 (proj2 Hext2)), H2.
  - apply List.Forall_forall. intros page Hin.
    apply List.in_map with (f := page_path) in Hin.
    rewrite <- (proj1 (proj2 (regroup_pages (cr_pages result) done))) in Hin.
    apply List.in_map_iff in Hin as (page' & Hpath & Hin'). rewrite <- Hpath.
    rewrite List.Forall_forall in Hpages. apply Hfiles, Hpages, Hin'.
Qed.

End FinishedRun.

(** Everything the manifest of a finished run refers to is in the
    storage.  When the crawl succeeded, with assets of valid URLs as the
    crawler records them, and the storage answers its calls, every asset of the manifest has a non-empty [localPath] (the path the
    file service derives from its URL and type) under which a file exists,
    whether its download succeeded or not, and every page has its file
    under [pages/]; the manifest lists the pages and assets of the crawl
    result, in the same order, the pages without their markup. *)
Theorem finished_run_is_resolvable {parser : UrlParser} (w : World)
  (s : Service) (archive : Archive) (progress : ArchiveProgress)
  (r : option (nat * nat * string)) (result : CrawlResult) :
  activeArchives s !! id archive = Some progress ->
  faults (storage s) = [] ->
  is_Some (dirs (storage s) !! id archive) ->
  Forall (fun a => isValidUrl (originalUrl a) = true)
    (List.concat (List.map assets (cr_pages result))) ->
  let s' := ArchiveService.finishArchiving w s archive (mkOutcome r (Ok result)) in
  exists d a,
    dirs (storage s') !! id archive = Some d
    /\ manifest d = Some a
    /\ List.map page_url (pages a) = List.map page_url (cr_pages result)
    /\ List.map originalUrl (List.concat (List.map assets (pages a)))
       = List.map originalUrl (List.concat (List.map assets (cr_pages result)))
    /\ Forall (fun asset =>
                 localPath asset <> ""
                 /\ FileNaming.assetRelativePath (originalUrl asset) (assetType asset)
                    = Ok (localPath asset)
                 /\ is_Some (files d !! localPath asset))
         (List.concat (List.map assets (pages a)))
    /\ Forall (fun page =>
                 htmlContent page = None
                 /\ is_Some (files d !! NodePath.join ["pages"; page_path page]))
         (pages a).
Proof.
  intros Hp Hf Hdir Hvalid s'.
  destruct (finishArchiving_success w s archive progress r result Hp Hf Hdir Hvalid)
    as (done & d & p' & _ & _ & _ & Hd & Hman & Hurls & Hassets & Hpages).
  fold s' in Hd. exists d. eexists. split; [exact Hd|]. split; [exact Hman|].
  cbn [pages].
  assert (Hlen : List.length done
                 = List.length (List.concat (List.map assets (cr_pages result)))).
  { apply (f_equal (@List.length _)) in Hurls. rewrite !List.length_map in Hurls.
    exact Hurls. }
  destruct (regroup_pages (cr_pages result) done) as (Hu & Hpath & _).
  rewrite (regroup_assets _ _ Hlen).
  split.
  { rewrite List.map_map. cbn. exact Hu. }
  split; [exact Hurls|]. split.
  - eapply List.Forall_impl; [|exact Hassets]. intros a [H1 H2].
    split; [eapply assetRelativePath_nonempty; exact H1|]. auto.
  - apply List.Forall_forall. intros page Hin.
    apply List.in_map_iff in Hin as (page' & <- & Hin). split; [reflexivity|].
    cbn [withoutHtml page_path].
    apply List.in_map with (f := page_path) in Hin. rewrite Hpath in Hin.
    apply List.in_map_iff in Hin as (page0 & Hp0 & Hin0). rewrite <- Hp0.
    rewrite List.Forall_forall in Hpages. apply Hpages, Hin0.
Qed.

Lemma finished_run_is_resolvable_witness :
  let s := snd created_service in
  let s' := @ArchiveService.finishArchiving SimpleUrl.parser example_world s
              created_archive (mkOutcome None (Ok example_result)) in
  exists d a,
    dirs (storage s') !! "id0" = Some d
    /\ manifest d = Some a
    /\ List.map page_url (pages a)
       = ["https://example.com/"; "https://example.com/about"]
    /\ Forall (fun asset => is_Some (files d !! localPath asset))
         (List.concat (List.map assets (pages a))).
Proof.
  intros s s'.
  destruct (@finished_run_is_resolvable SimpleUrl.parser example_world s
              created_archive
              (mkProgress "id0" "https://example.com/" IN_PROGRESS 0 0 0 0 [] 0 None)
              None example_result
              ltac:(vm_compute; reflexivity) ltac:(vm_compute; reflexivity)
              ltac:(vm_compute; eauto)
              ltac:(unfold example_result; vm_compute cr_pages;
                    repeat (constructor; [vm_compute; reflexivity|]); constructor))
    as (d & a & Hd & Hm & Hu & _ & Ha & _).
  exists d, a. split; [exact Hd|]. split; [exact Hm|]. split; [exact Hu|].
  eapply List.Forall_impl; [|exact Ha]. intros x (_ & _ & H). exact H.
Defined.

(** The manifest of a finished run is consistent with itself and with
    the registry.  When the crawl succeeded, with assets of valid URLs
    as the crawler records them, and the storage answers its calls: the
    status is COMPLETED exactly when no error was recorded and
    PARTIAL otherwise (never FAILED); the errors are those the entry had,
    then those of the crawl, then those of the downloads; the page and
    asset counts of the metadata are the numbers of pages and assets
    listed; the identity of the archive (id, URL, version, creation time)
    is unchanged; and the registry entry shows the same status and
    errors. *)
Theorem finished_run_manifest_is_consistent {parser : UrlParser} (w : World)
  (s : Service) (archive : Archive) (progress : ArchiveProgress)
  (r : option (nat * nat * string)) (result : CrawlResult) :
  activeArchives s !! id archive = Some progress ->
  faults (storage s) = [] ->
  is_Some (dirs (storage s) !! id archive) ->
  Forall (fun a => isValidUrl (originalUrl a) = true)
    (List.concat (List.map assets (cr_pages result))) ->
  let s' := ArchiveService.finishArchiving w s archive (mkOutcome r (Ok result)) in
  exists d a p',
    dirs (storage s') !! id archive = Some d
    /\ manifest d = Some a
    /\ activeArchives s' !! id archive = Some p'
    /\ (status a = COMPLETED <-> errors a = [])
    /\ (status a = PARTIAL <-> errors a <> [])
    /\ (exists extra, errors a = p_errors progress ++ cr_errors result ++ extra)
    /\ pageCount (metadata a) = List.length (pages a)
    /\ assetCount (metadata a)
       = List.length (List.concat (List.map assets (pages a)))
    /\ crawlDuration (metadata a) = cr_duration result
    /\ (id a, url a, version a, timestamp a)
       = (id archive, url archive, version archive, timestamp archive)
    /\ p_status p' = status a /\ p_errors p' = errors a.
Proof.
  intros Hp Hf Hdir Hvalid s'.
  destruct (finishArchiving_success w s archive progress r result Hp Hf Hdir Hvalid)
    as (done & d & p' & Hp' & Hst & Herr & Hd & Hman & Hurls & _ & _).
  fold s' in Hd, Hp'. exists d. eexists. exists p'.
  split; [exact Hd|]. split; [exact Hman|]. split; [exact Hp'|].
  cbn [status errors metadata pageCount assetCount crawlDuration pages id url
       version timestamp].
  assert (Hlen : List.length done
                 = List.length (List.concat (List.map assets (cr_pages result)))).
  { apply (f_equal (@List.length _)) in Hurls. rewrite !List.length_map in Hurls.
    exact Hurls. }
  unfold ArchiveService.finalStatus in *.
  split; [destruct (p_errors p'); cbn; split; congruence|].
  split; [destruct (p_errors p'); cbn; split; congruence|].
  split; [exact Herr|]. split.
  { rewrite List.length_map, (proj2 (proj2 (regroup_pages _ _))). reflexivity. }
  split; [rewrite (regroup_assets _ _ Hlen); reflexivity|].
  split; [reflexivity|]. split; [reflexivity|]. split; [exact Hst|reflexivity].
Qed.

Lemma finished_run_manifest_is_consistent_witness :
  let s := snd created_service in
  let s' := @ArchiveService.finishArchiving SimpleUrl.parser example_world s
              created_archive (mkOutcome None (Ok example_result)) in
  exists d a,
    dirs (storage s') !! "id0" = Some d
    /\ manifest d = Some a
    /\ status a = PARTIAL
    /\ pageCount (metadata a) = 2 /\ assetCount (metadata a) = 3.
Proof.
  intros s s'.
  destruct (@finished_run_manifest_is_consistent SimpleUrl.parser example_world s
              created_archive
              (mkProgress "id0" "https://example.com/" IN_PROGRESS 0 0 0 0 [] 0 None)
              None example_result
              ltac:(vm_compute; reflexivity) ltac:(vm_compute; reflexivity)
              ltac:(vm_compute; eauto)
              ltac:(unfold example_result; vm_compute cr_pages;
                    repeat (constructor; [vm_compute; reflexivity|]); constructor))
    as (d & a & p' & Hd & Hm & _).
  exists d, a. split; [exact Hd|]. split; [exact Hm|].
  assert (H : dirs (storage s') !! "id0" = Some d) by exact Hd.
  vm_compute in H. injection H as <-.
  cbn in Hm. injection Hm as <-. repeat split.
Defined.

(** * Validation, deletion, colliding names, domains *)

(** The archive record [createArchive] returns passes [validateArchive]
    (the identifier drawn being non-empty, as a uuid is): the service
    never hands out a record its own validator would reject. *)
Theorem createArchive_result_is_valid {parser : UrlParser} (w : World)
  (s s' : Service) (urlString : string) (options : PartialCrawlerOptions)
  (a : Archive) :
  ArchiveService.createArchive w s urlString options = (Ok a, s') ->
  Js.truthy (uuid w (uuids s)) = true ->
  validateArchive a = [].
Proof.
  intros Hc Hid. unfold ArchiveService.createArchive in Hc.
  destruct (normalizeUrl urlString) as [n|]; [|discriminate].
  destruct (Js.truthy n) eqn:Htn; [|discriminate].
  destruct (extractDomain n) as [d|] eqn:Hd; [|discriminate].
  destruct (Js.truthy d) eqn:Htd; [|discriminate].
  cbn -[Nat.leb ArchiveService.getLatestVersionNumber] in Hc.
  destruct (maxConcurrentArchives s <=? size (activeArchives s)); [discriminate|].
  destruct (List.existsb _ _); [discriminate|].
  destruct (ArchiveService.getLatestVersionNumber (storage s) n) as [v st0].
  cbn -[Nat.leb] in Hc.
  unfold validation_createArchive in Hc. rewrite Hd, Htd in Hc.
  destruct (isValidUrl n) eqn:Hv; [|discriminate].
  cbn in Hc.
  destruct (FileService.initializeArchiveStorage _ _) as [[[]|m] st1];
    [|discriminate].
  destruct (FileService.saveArchiveMetadata _ _) as [[[]|m] st2];
    [|discriminate].
  injection Hc as <- _. unfold validateArchive. cbn -[Nat.ltb].
  rewrite Hid, Htn, Hv, Htd, Hd.
  rewrite bool_decide_eq_true_2 by reflexivity.
  replace (v + 1 <? 1) with false by (symmetry; apply Nat.ltb_ge; lia).
  reflexivity.
Qed.

Lemma createArchive_result_is_valid_witness :
  exists a s',
    @ArchiveService.createArchive SimpleUrl.parser example_world example_service
      "https://example.com" no_options = (Ok a, s')
    /\ @validateArchive SimpleUrl.parser a = [].
Proof.
  assert (Hc : exists a s',
             @ArchiveService.createArchive SimpleUrl.parser example_world
               example_service "https://example.com" no_options = (Ok a, s'))
    by (eexists _, _; vm_compute; reflexivity).
  destruct Hc as (a & s' & Hc). exists a, s'. split; [exact Hc|].
  exact (@createArchive_result_is_valid SimpleUrl.parser example_world
           example_service s' "https://example.com" no_options a Hc eq_refl).
Defined.

(** An asset as the crawler records it fails [validateAsset] on exactly
    one count, the missing [localPath]; once its download step has run on
    a storage that answers its calls, with whatever outcome, it passes. *)
Theorem crawled_asset_validation {parser : UrlParser}
  (now : nat) (u : string) (d : Dom) (asset : Asset) :
  In asset (assets (Crawler.pageOfDom now u d)) ->
  validateAsset asset = ["Asset localPath must be a non-empty string"]
  /\ forall (w : World) (now' : nat) (archiveId : string) (allAssets : list Asset)
            (idx : nat) (st : Storage) (progress : ArchiveProgress),
       faults st = [] ->
       validateAsset
         (fst (fst (ArchiveService.downloadAsset w now' archiveId allAssets idx
                      asset st progress)))
       = [].
Proof.
  intros Hin. destruct (pageOfDom_assets now u d) as [Hall _].
  rewrite List.Forall_forall in Hall.
  destruct (Hall asset Hin) as (Ht & Hv & Hl & _ & Hc & _).
  split.
  - unfold validateAsset. rewrite Ht, Hv, Hl, Hc. reflexivity.
  - intros w now' archiveId allAssets idx st progress Hf.
    destruct (assetRelativePath_valid (originalUrl asset) (assetType asset) Hv)
      as [path Hpath].
    destruct (downloadAsset_local w now' archiveId allAssets idx asset st progress
                path Hf Hpath) as (sz & st' & p' & -> & _).
    pose proof (assetRelativePath_nonempty _ _ _ Hpath) as Hne.
    unfold validateAsset. cbn. rewrite Ht, Hv, Hc.
    destruct path; [congruence|reflexivity].
Qed.

Lemma crawled_asset_validation_witness :
  @validateAsset SimpleUrl.parser logo_asset
  = ["Asset localPath must be a non-empty string"].
Proof.
  refine (proj1 (@crawled_asset_validation SimpleUrl.parser 0 "https://example.com/"
                   (mkDom "<html>home</html>" "Home" "" ["/logo.png"] ["/style.css"]
                      [] [] ["/about"; "/"; "https://other.com/x"])
                   logo_asset _)).
  vm_compute. left. reflexivity.
Defined.

(** Deleting an archive that is not in the registry, on a storage that
    answers its calls, succeeds whether or not the archive exists.  For
    an id that is a plain name (one entry of the storage directory, as
    the ids the service draws are) it removes the directory of that
    archive and nothing else, leaves the registry alone, and afterwards
    the archive neither exists nor can be read, while every archive under
    another plain name reads as before.  (Ids such as [..] or [x/], which
    [path.join] resolves to other directories, are outside the
    statement.) *)
Theorem deleteArchive_removes_only_target (s : Service) (archiveId : string) :
  plainName archiveId = true ->
  activeArchives s !! archiveId = None ->
  faults (storage s) = [] ->
  exists s',
    ArchiveService.deleteArchive s archiveId = (Ok tt, s')
    /\ dirs (storage s') = delete archiveId (dirs (storage s))
    /\ activeArchives s' = activeArchives s
    /\ fst (ArchiveService.archiveExists s' archiveId) = false
    /\ (exists message,
          fst (ArchiveService.getArchive s' archiveId)
          = Throw ("Archive not found: " +:+ message))
    /\ (forall other,
          plainName other = true ->
          other <> archiveId ->
          fst (ArchiveService.getArchive s' other)
          = fst (ArchiveService.getArchive s other)).
Proof.
  intros _ Ha Hf. unfold ArchiveService.deleteArchive.
  rewrite bool_decide_eq_false_2 by (rewrite Ha; apply is_Some_None).
  unfold FileService.deleteArchive. rewrite (fs_call_healthy _ Hf).
  eexists. split; [reflexivity|]. cbn. split; [reflexivity|]. split; [reflexivity|].
  split; [|split].
  - unfold ArchiveService.archiveExists, FileService.archiveExists. cbn.
    rewrite fs_call_healthy by exact Hf. cbn.
    apply bool_decide_eq_false_2. rewrite lookup_delete_eq. apply is_Some_None.
  - unfold ArchiveService.getArchive, FileService.loadArchiveMetadata. cbn.
    rewrite fs_call_healthy by exact Hf. cbn. rewrite lookup_delete_eq.
    eexists. reflexivity.
  - intros other _ Hne.
    unfold ArchiveService.getArchive, FileService.loadArchiveMetadata. cbn.
    rewrite !fs_call_healthy by exact Hf. cbn.
    rewrite lookup_delete_ne by congruence.
    destruct (dirs (storage s) !! other) as [dir|]; [|reflexivity].
    destruct (manifest dir); reflexivity.
Qed.

Lemma deleteArchive_removes_only_target_witness :
  (exists s', ArchiveService.deleteArchive archived_twice "id0" = (Ok tt, s')
              /\ dirs (storage s') !! "id0" = None
              /\ is_Some (dirs (storage s') !! "id1"))
  /\ exists s', ArchiveService.deleteArchive archived_twice "no-such-archive"
                = (Ok tt, s').
Proof.
  split.
  - destruct (deleteArchive_removes_only_target archived_twice "id0"
                eq_refl eq_refl eq_refl)
      as (s' & Hd & Hdirs & _).
    exists s'. split; [exact Hd|]. rewrite Hdirs.
    split; [apply lookup_delete_eq|].
    rewrite lookup_delete_ne by discriminate. vm_compute. eauto.
  - destruct (deleteArchive_removes_only_target archived_twice "no-such-archive"
                eq_refl eq_refl eq_refl) as (s' & Hd & _).
    exists s'. exact Hd.
Defined.

(** The stored name of an asset is made from the last segment of the
    path of its URL, its type and the hash of its query string, and from
    nothing else.  Two assets of one type whose URLs agree on those are
    given the same path, by the file service and by the rewriter; saved
    one after the other, the second overwrites the first, and only the
    content of the second is in the storage. *)
Theorem same_name_assets_overwrite {parser : UrlParser}
  (st : Storage) (archiveId u1 u2 c1 c2 : string) (o1 o2 : URL) (t : AssetType) :
  faults st = [] ->
  new_URL u1 = Some o1 -> new_URL u2 = Some o2 ->
  NodePath.basename (pathname o1) = NodePath.basename (pathname o2) ->
  Js.truthy (search o1) = Js.truthy (search o2) ->
  Rewriter.queryHash (search o1) = Rewriter.queryHash (search o2) ->
  Rewriter.generateAssetPath u1 = Rewriter.generateAssetPath u2
  /\ exists path st1 st2 dir,
       FileService.saveAsset st u1 c1 archiveId t = (Ok path, st1)
       /\ FileService.saveAsset st1 u2 c2 archiveId t = (Ok path, st2)
       /\ dirs st2 !! archiveId = Some dir
       /\ files dir !! path = Some c2.
Proof.
  intros Hf H1 H2 Hb Hs Hq. split.
  - unfold Rewriter.generateAssetPath. rewrite H1, H2. cbn [of_option exc_bind].
    rewrite Hb, Hs, Hq. reflexivity.
  - assert (Hsame : FileNaming.assetRelativePath u1 t
                    = FileNaming.assetRelativePath u2 t).
    { unfold FileNaming.assetRelativePath, FileNaming.generateAssetFileName.
      rewrite H1, H2. cbn [of_option exc_bind]. unfold Rewriter.queryHash in Hq.
      rewrite Hb, Hs, Hq. reflexivity. }
    assert (Hok : exists path, FileNaming.assetRelativePath u1 t = Ok path).
    { unfold FileNaming.assetRelativePath, FileNaming.generateAssetFileName.
      rewrite H1. cbn [of_option exc_bind].
      destruct (Js.truthy (search o1)); [cbn; eauto|].
      destruct (String.eqb _ _); cbn; eauto. }
    destruct Hok as [path Hpath].
    exists path. eexists _, _, _.
    split; [apply (saveAsset_healthy st u1 c1 archiveId path t Hf Hpath)|].
    split.
    { apply saveAsset_healthy; [exact Hf|rewrite <- Hsame; exact Hpath]. }
    unfold FileService.write_file. cbn. rewrite lookup_insert_eq.
    split; [reflexivity|]. cbn. apply lookup_insert_eq.
Qed.

Lemma same_name_assets_overwrite_witness :
  exists st2 dir,
    snd (@FileService.saveAsset SimpleUrl.parser
           (snd (@FileService.saveAsset SimpleUrl.parser (mkStorage ∅ [])
                   "https://example.com/header/logo.png" "PNG-1" "a1" IMAGE))
           "https://example.com/footer/logo.png" "PNG-2" "a1" IMAGE) = st2
    /\ dirs st2 !! "a1" = Some dir
    /\ files dir !! "assets/images/logo.png" = Some "PNG-2"
    /\ size (files dir) = 1.
Proof.
  destruct (@same_name_assets_overwrite SimpleUrl.parser (mkStorage ∅ []) "a1"
              "https://example.com/header/logo.png"
              "https://example.com/footer/logo.png" "PNG-1" "PNG-2"
              _ _ IMAGE eq_refl eq_refl eq_refl eq_refl eq_refl eq_refl)
    as (_ & path & st1 & st2 & dir & Hs1 & Hs2 & Hd & Hfile).
  exists st2, dir. rewrite Hs1. cbn [snd]. rewrite Hs2. cbn [snd].
  split; [reflexivity|]. split; [exact Hd|].
  assert (Hp : fst (@FileService.saveAsset SimpleUrl.parser (mkStorage ∅ [])
                      "https://example.com/header/logo.png" "PNG-1" "a1" IMAGE)
               = Ok path) by (rewrite Hs1; reflexivity).
  vm_compute in Hp. injection Hp as <-. split; [exact Hfile|].
  assert (Hst : snd (@FileService.saveAsset SimpleUrl.parser
                       (snd (@FileService.saveAsset SimpleUrl.parser (mkStorage ∅ [])
                               "https://example.com/header/logo.png" "PNG-1" "a1" IMAGE))
                       "https://example.com/footer/logo.png" "PNG-2" "a1" IMAGE)
                = st2) by (rewrite Hs1; cbn [snd]; rewrite Hs2; reflexivity).
  vm_compute in Hst. subst st2. vm_compute in Hd. injection Hd as <-.
  vm_compute. reflexivity.
Defined.

(** [isSameDomain] of url-utils is symmetric and transitive, and holds
    exactly for two URLs that parse and have the same, non-empty host
    name.  The rewriter's own same-domain test agrees with it whenever the
    host name is not empty, and [CrawlerService.isValidUrl] is
    [isValidUrlForDomain]. *)
Theorem isSameDomain_is_partial_equivalence {parser : UrlParser} (a b c : string) :
  isSameDomain a b = isSameDomain b a
  /\ (isSameDomain a b = true -> isSameDomain b c = true -> isSameDomain a c = true)
  /\ (isSameDomain a b = true
      <-> exists d, Js.truthy d = true
                    /\ extractDomain a = Some d /\ extractDomain b = Some d)
  /\ (isSameDomain a b = true ->
      forall rw, rw_baseUrl rw = b -> Rewriter.isSameDomain rw a = true)
  /\ Crawler.isValidUrl a b = isValidUrlForDomain a b.
Proof.
  assert (Hiff : forall x y,
            isSameDomain x y = true
            <-> exists d, Js.truthy d = true
                          /\ extractDomain x = Some d /\ extractDomain y = Some d).
  { intros x y. unfold isSameDomain.
    destruct (extractDomain x) as [dx|], (extractDomain y) as [dy|];
      try (split; [discriminate|intros (d & _ & H1 & H2); discriminate]).
    destruct (Js.truthy dx) eqn:Hx, (Js.truthy dy) eqn:Hy; cbn.
    - rewrite String.eqb_eq. split.
      + intros ->. eauto.
      + intros (d & _ & [= ->] & [= ->]). reflexivity.
    - split; [discriminate|]. intros (d & Hd & [= ->] & [= ->]). congruence.
    - split; [discriminate|]. intros (d & Hd & [= ->] & [= ->]). congruence.
    - split; [discriminate|]. intros (d & Hd & [= ->] & [= ->]). congruence. }
  split; [|split; [|split; [apply Hiff|split; [|reflexivity]]]].
  - destruct (isSameDomain a b) eqn:H1, (isSameDomain b a) eqn:H2; try reflexivity.
    + apply Hiff in H1 as (d & Hd & Ha & Hb).
      rewrite (proj2 (Hiff b a)) in H2 by eauto. discriminate.
    + apply Hiff in H2 as (d & Hd & Hb & Ha).
      rewrite (proj2 (Hiff a b)) in H1 by eauto. discriminate.
  - intros H1 H2. apply Hiff in H1 as (d & Hd & Ha & Hb).
    apply Hiff in H2 as (d' & _ & Hb' & Hc). apply Hiff. exists d.
    split; [exact Hd|]. split; [exact Ha|]. congruence.
  - intros H rw <-. apply Hiff in H as (d & _ & Ha & Hb).
    unfold Rewriter.isSameDomain, extractDomain in *.
    destruct (new_URL a) as [oa|]; [|discriminate].
    destruct (new_URL (rw_baseUrl rw)) as [ob|]; [|discriminate].
    cbn. apply String.eqb_eq. congruence.
Qed.

(** * The handler of [POST /api/archives] *)

Section MessageFacts.

Lemma list_ascii_app (a b : string) :
  list_ascii_of_string (a +:+ b) = list_ascii_of_string a ++ list_ascii_of_string b.
Proof.
  induction a as [|c a IH]; [reflexivity|].
  change (String c a +:+ b) with (String c (a +:+ b)). cbn. rewrite IH. reflexivity.
Qed.

(** A text in which the first character of [sub] does not occur does not
    include [sub]. *)
Lemma includes_absent_head (c : ascii) (sub s : string) :
  ~ In c (list_ascii_of_string s) -> Js.includes s (String c sub) = false.
Proof.
  induction s as [|d s IH]; intros Hc; [reflexivity|].
  cbn [Js.includes String.prefix].
  destruct (ascii_dec c d) as [->|Hne].
  - exfalso. apply Hc. left. reflexivity.
  - cbn. apply IH. intros Hin. apply Hc. right. exact Hin.
Qed.

Lemma digits_only (d : Decimal.uint) (c : ascii) :
  In c (list_ascii_of_string (NilEmpty.string_of_uint d)) ->
  48 <= nat_of_ascii c <= 57.
Proof.
  induction d as [|d IH|d IH|d IH|d IH|d IH|d IH|d IH|d IH|d IH|d IH];
    cbn; intros H; [destruct H|..];
    (destruct H as [<-|H]; [vm_compute; lia|apply IH, H]).
Qed.

Lemma string_of_nat_digits (n : nat) (c : ascii) :
  In c (list_ascii_of_string (string_of_nat n)) -> 48 <= nat_of_ascii c <= 57.
Proof.
  unfold string_of_nat, NilZero.string_of_uint.
  destruct (Nat.to_uint n) eqn:Hd; try (rewrite <- Hd; apply digits_only).
  cbn. intros [<-|[]]. vm_compute. lia.
Qed.

Lemma limitMessage_not_invalid_url (s : Service) :
  Js.includes (ArchiveService.limitMessage s) "Invalid URL" = false.
Proof.
  apply includes_absent_head. unfold ArchiveService.limitMessage.
  rewrite !list_ascii_app, !in_app_iff. intros [H|[H|H]].
  - vm_compute in H. repeat (destruct H as [H|H]; [discriminate H|]). destruct H.
  - apply string_of_nat_digits in H. vm_compute in H. lia.
  - vm_compute in H. repeat (destruct H as [H|H]; [discriminate H|]). destruct H.
Qed.

Lemma limitMessage_names_limit (s : Service) :
  Js.includes (ArchiveService.limitMessage s) "Maximum concurrent archives" = true.
Proof. reflexivity. Qed.

Lemma removeForbidden_clean (s : string) :
  Forall (fun c => Router.forbidden c = false)
    (list_ascii_of_string (Router.removeForbidden s)).
Proof.
  induction s as [|c s IH]; cbn [Router.removeForbidden]; [constructor|].
  destruct (Router.forbidden c) eqn:Hc; [exact IH|].
  cbn. constructor; assumption.
Qed.

End MessageFacts.

(** At the cap the API answers 429.  A [POST] whose URL passes the
    handler's checks and normalizes to a URL with a host, sent while the
    registry holds as many entries as the cap allows, is answered with
    status 429 and code TOO_MANY_CONCURRENT_ARCHIVES, and the service is
    left as it was. *)
Theorem post_at_cap_is_429 {parser : UrlParser} (w : World) (s : Service)
  (body : PostBody) (u n d : string) (crawlerOptions : PartialCrawlerOptions) :
  body_url body = Some u -> Js.truthy u = true ->
  Router.isValidUrl (Router.sanitizeUrl u) = true ->
  match body_options body with
  | Some options => Router.validateOptions options
  | None => inr no_options
  end = inr crawlerOptions ->
  normalizeUrl (Router.sanitizeUrl u) = Some n -> Js.truthy n = true ->
  extractDomain n = Some d -> Js.truthy d = true ->
  maxConcurrentArchives s <= size (activeArchives s) ->
  Router.postArchive w s body
  = (mkResponse 429 "TOO_MANY_CONCURRENT_ARCHIVES" None, s).
Proof.
  intros Hu Ht Hv Ho Hn Htn Hd Htd Hcap.
  unfold Router.postArchive. rewrite Hu, Ht, Hv. cbn [negb].
  unfold no_options in Ho. rewrite Ho.
  assert (Hc : ArchiveService.createArchive w s (Router.sanitizeUrl u) crawlerOptions
               = (Throw (ArchiveService.limitMessage s), s)).
  { unfold ArchiveService.createArchive. rewrite Hn, Htn, Hd, Htd.
    apply Nat.leb_le in Hcap. rewrite Hcap. reflexivity. }
  rewrite Hc. unfold Router.createFailed.
  rewrite limitMessage_not_invalid_url, limitMessage_names_limit. reflexivity.
Qed.

Lemma post_at_cap_is_429_witness :
  @Router.postArchive SimpleUrl.parser example_world full_service
    (mkPostBody (Some "  https://example3.com  ")
       (Some (mkRawOptions None (Some 20%Q) None None)))
  = (mkResponse 429 "TOO_MANY_CONCURRENT_ARCHIVES" None, full_service).
Proof.
  apply (@post_at_cap_is_429 SimpleUrl.parser example_world full_service _
           "  https://example3.com  " "https://example3.com/" "example3.com"
           (mkPartialOptions None (Some 20%Q) None None));
    try reflexivity; vm_compute; lia.
Defined.

Lemma num_lt_false (x y : Q) : Js.num_lt x y = false -> (y <= x)%Q.
Proof.
  unfold Js.num_lt. intros H. apply negb_false_iff in H.
  apply Qle_bool_iff, H.
Qed.

(** What the API accepts.  When [POST] is answered with 201, the body
    carried a URL, the service was called with the sanitized URL, which is
    an http(s) URL free of angle brackets and quotes, and with options
    within the documented bounds (depth 1..10, pages 1..1000, timeout
    1000..120000 ms); the response carries the archive the service
    returned. *)
Theorem post_accepts_only_checked_input {parser : UrlParser} (w : World)
  (s s' : Service) (body : PostBody) (response : Response) :
  Router.postArchive w s body = (response, s') ->
  res_status response = 201 ->
  exists u crawlerOptions a,
    body_url body = Some u
    /\ ArchiveService.createArchive w s (Router.sanitizeUrl u) crawlerOptions
       = (Ok a, s')
    /\ res_data response = Some a
    /\ isValidUrl (Router.sanitizeUrl u) = true
    /\ Forall (fun c => Router.forbidden c = false)
         (list_ascii_of_string (Router.sanitizeUrl u))
    /\ (forall k, o_maxDepth crawlerOptions = Some k -> 1 <= k <= 10)
    /\ (forall k, o_maxPages crawlerOptions = Some k -> (1 <= k <= 1000)%Q)
    /\ (forall k, o_timeout crawlerOptions = Some k -> 1000 <= k <= 120 * 1000).
Proof.
  unfold Router.postArchive. intros Hpost Hstatus.
  destruct (body_url body) as [u|]; [|injection Hpost as <- _; discriminate].
  destruct (Js.truthy u); cbn [negb] in Hpost;
    [|injection Hpost as <- _; discriminate].
  destruct (Router.isValidUrl (Router.sanitizeUrl u)) eqn:Hv; cbn [negb] in Hpost;
    [|injection Hpost as <- _; discriminate].
  assert (Hvalid : isValidUrl (Router.sanitizeUrl u) = true).
  { unfold Router.isValidUrl, isValidUrl in *.
    destruct (new_URL (Router.sanitizeUrl u)) as [o|]; [|discriminate].
    unfold mem_string in Hv. cbn in Hv. rewrite orb_false_r in Hv. exact Hv. }
  destruct (match body_options body with
            | Some options => Router.validateOptions options
            | None => inr (mkPartialOptions None None None None)
            end) as [code|crawlerOptions] eqn:Ho;
    [injection Hpost as <- _; discriminate|].
  destruct (ArchiveService.createArchive w s (Router.sanitizeUrl u) crawlerOptions)
    as [[a|m] s1] eqn:Hc.
  2:{ injection Hpost as <- _. unfold Router.createFailed in Hstatus.
      repeat (destruct (Js.includes m _)); discriminate. }
  injection Hpost as <- <-.
  exists u, crawlerOptions, a. split; [reflexivity|]. split; [exact Hc|].
  split; [reflexivity|]. split; [exact Hvalid|].
  split; [apply removeForbidden_clean|].
  destruct (body_options body) as [options|].
  - unfold Router.validateOptions in Ho.
    destruct (raw_maxDepth options) as [k1|] eqn:H1;
      destruct (raw_maxPages options) as [k2|] eqn:H2;
      destruct (raw_timeout options) as [k3|] eqn:H3;
      repeat match type of Ho with
             | (if ?b then _ else _) = _ =>
                 let E := fresh "E" in destruct b eqn:E; [discriminate|]
             end;
      injection Ho as <-; cbn [o_maxDepth o_maxPages o_timeout];
      repeat match goal with
             | E : (_ || _) = false |- _ => apply orb_false_iff in E as [? ?]
             | E : (_ <? _) = false |- _ => apply Nat.ltb_ge in E
             | E : Js.num_lt _ _ = false |- _ => apply num_lt_false in E
             end;
      (split; [|split]); intros k Hk; try discriminate; injection Hk as <-;
      first [lia | split; assumption].
  - injection Ho as <-. cbn [o_maxDepth o_maxPages o_timeout].
    (split; [|split]); intros k Hk; discriminate.
Qed.

Lemma post_accepts_only_checked_input_witness :
  exists a s',
    @Router.postArchive SimpleUrl.parser example_world example_service
      (mkPostBody (Some "https://example.com")
         (Some (mkRawOptions (Some 2) (Some 50%Q) None None)))
    = (mkResponse 201 "" (Some a), s')
    /\ @isValidUrl SimpleUrl.parser (Router.sanitizeUrl "https://example.com") = true.
Proof.
  assert (Hp : exists a s',
             @Router.postArchive SimpleUrl.parser example_world example_service
               (mkPostBody (Some "https://example.com")
                  (Some (mkRawOptions (Some 2) (Some 50%Q) None None)))
             = (mkResponse 201 "" (Some a), s'))
    by (eexists _, _; vm_compute; reflexivity).
  destruct Hp as (a & s' & Hp). exists a, s'. split; [exact Hp|].
  destruct (@post_accepts_only_checked_input SimpleUrl.parser example_world
              example_service s' _ _ Hp eq_refl)
    as (u & o & a' & Hu & _ & _ & Hv & _).
  cbn in Hu. injection Hu as <-. exact Hv.
Defined.
(** * Calls of [createArchive] that overlap *)

Section Overlap.
Context {parser : UrlParser}.
Variable w : World.

(** Run without interruption, [createArchive] is its checks, the reading
    of the latest version, and the registration, one after the other. *)
Lemma createArchive_in_parts (s : Service) (urlString : string)
  (options : PartialCrawlerOptions) :
  ArchiveService.createArchive w s urlString options
  = match ArchiveService.createArchive_checks s urlString with
    | Throw m => (Throw m, s)
    | Ok normalizedUrl =>
        let '(latestVersion, st) :=
          ArchiveService.getLatestVersionNumber (storage s) normalizedUrl in
        ArchiveService.createArchive_register w (ArchiveService.set_storage s st)
          normalizedUrl latestVersion options
    end.
Proof.
  unfold ArchiveService.createArchive, ArchiveService.createArchive_checks.
  destruct (normalizeUrl urlString) as [n|]; [|reflexivity].
  destruct (Js.truthy n); cbn [negb]; [|reflexivity].
  destruct (extractDomain n) as [d|]; [|reflexivity].
  destruct (Js.truthy d); cbn [negb]; [|reflexivity].
  destruct (maxConcurrentArchives s <=? size (activeArchives s)); [reflexivity|].
  destruct (List.existsb _ _); [reflexivity|].
  destruct (ArchiveService.getLatestVersionNumber (storage s) n) as [v st].
  reflexivity.
Qed.

(** The checks hand on the normalized URL, which has a host. *)
Lemma createArchive_checks_Ok (s : Service) (urlString n : string) :
  ArchiveService.createArchive_checks s urlString = Ok n ->
  normalizeUrl urlString = Some n
  /\ exists d, extractDomain n = Some d /\ Js.truthy d = true.
Proof.
  unfold ArchiveService.createArchive_checks.
  destruct (normalizeUrl urlString) as [n0|]; [|discriminate].
  destruct (Js.truthy n0); cbn [negb]; [|discriminate].
  destruct (extractDomain n0) as [d|] eqn:Hd; [|discriminate].
  destruct (Js.truthy d) eqn:Htd; cbn [negb]; [|discriminate].
  destruct (maxConcurrentArchives s <=? size (activeArchives s)); [discriminate|].
  destruct (List.existsb _ _); [discriminate|].
  intros H. injection H as <-. split; [reflexivity|]. exists d. auto.
Qed.

(** The registration on a storage that answers its calls: it does not
    look at the registry. *)
Lemma createArchive_register_healthy (s : Service) (n d : string) (v : nat)
  (options : PartialCrawlerOptions) :
  faults (storage s) = [] ->
  isValidUrl n = true -> extractDomain n = Some d -> Js.truthy d = true ->
  exists a s',
    ArchiveService.createArchive_register w s n v options = (Ok a, s')
    /\ id a = uuid w (uuids s) /\ url a = n /\ version a = v + 1
    /\ activeArchives s'
       = <[uuid w (uuids s) :=
             mkProgress (uuid w (uuids s)) n IN_PROGRESS 0 0 0 0 [] (clock s) None]>
           (activeArchives s)
    /\ faults (storage s') = []
    /\ uuids s' = S (uuids s)
    /\ maxConcurrentArchives s' = maxConcurrentArchives s.
Proof.
  intros Hf Hv Hd Htd.
  unfold ArchiveService.createArchive_register, validation_createArchive.
  rewrite Hv, Hd, Htd. cbn [negb].
  cbn [storage ArchiveService.set_active].
  rewrite (initializeArchiveStorage_healthy _ _ Hf).
  unfold FileService.saveArchiveMetadata.
  rewrite fs_call_healthy by exact Hf.
  cbn [dirs id set_version]. rewrite lookup_insert_eq.
  eexists _, _. split; [reflexivity|]. cbn.
  repeat (split; [reflexivity|]). split; [exact Hf|]. split; reflexivity.
Qed.

End Overlap.

(** The checks of [createArchive] and its registration are separated by
    an [await], and the registration does not repeat the checks.  So when
    two calls have both passed their checks and read the latest version
    before either has registered its entry, both register: the registry
    grows by two entries, whatever the cap, both entries are IN_PROGRESS,
    and if the two URLs normalize to the same URL the two archives are of
    the same URL and carry the same version number.  (The first call,
    taken by itself, is an uninterrupted [createArchive].) *)
Theorem overlapping_creates_both_register {parser : UrlParser} (w : World)
  (s : Service) (url1 url2 n1 n2 : string)
  (options1 options2 : PartialCrawlerOptions) :
  faults (storage s) = [] ->
  ArchiveService.createArchive_checks s url1 = Ok n1 ->
  ArchiveService.createArchive_checks s url2 = Ok n2 ->
  isValidUrl n1 = true -> isValidUrl n2 = true ->
  activeArchives s !! uuid w (uuids s) = None ->
  activeArchives s !! uuid w (S (uuids s)) = None ->
  uuid w (uuids s) <> uuid w (S (uuids s)) ->
  exists a1 s1 a2 s2 p1 p2,
    ArchiveService.createArchive_register w s n1
      (fst (ArchiveService.getLatestVersionNumber (storage s) n1)) options1
    = (Ok a1, s1)
    /\ ArchiveService.createArchive w s url1 options1 = (Ok a1, s1)
    /\ ArchiveService.createArchive_register w s1 n2
         (fst (ArchiveService.getLatestVersionNumber (storage s) n2)) options2
       = (Ok a2, s2)
    /\ size (activeArchives s2) = size (activeArchives s) + 2
    /\ maxConcurrentArchives s2 = maxConcurrentArchives s
    /\ activeArchives s2 !! id a1 = Some p1
    /\ activeArchives s2 !! id a2 = Some p2
    /\ id a1 <> id a2
    /\ p_status p1 = IN_PROGRESS /\ p_status p2 = IN_PROGRESS
    /\ p_url p1 = n1 /\ p_url p2 = n2
    /\ (n1 = n2 -> url a1 = url a2 /\ version a1 = version a2).
Proof.
  intros Hf Hc1 Hc2 Hv1 Hv2 Hfresh1 Hfresh2 Hneq.
  destruct (createArchive_checks_Ok s url1 n1 Hc1) as (Hn1 & d1 & Hd1 & Htd1).
  destruct (createArchive_checks_Ok s url2 n2 Hc2) as (Hn2 & d2 & Hd2 & Htd2).
  destruct (createArchive_register_healthy w s n1 d1
              (fst (ArchiveService.getLatestVersionNumber (storage s) n1)) options1
              Hf Hv1 Hd1 Htd1)
    as (a1 & s1 & Hr1 & Hi1 & Hu1 & Hver1 & Ha1 & Hf1 & Hid1 & Hm1).
  destruct (createArchive_register_healthy w s1 n2 d2
              (fst (ArchiveService.getLatestVersionNumber (storage s) n2)) options2
              Hf1 Hv2 Hd2 Htd2)
    as (a2 & s2 & Hr2 & Hi2 & Hu2 & Hver2 & Ha2 & Hf2 & Hid2 & Hm2).
  rewrite Hid1 in Hi2, Ha2.
  exists a1, s1, a2, s2.
  eexists _, _.
  split; [exact Hr1|]. split.
  { rewrite createArchive_in_parts, Hc1.
    pose proof (getLatestVersionNumber_healthy_storage (storage s) n1 Hf) as Hst.
    destruct (ArchiveService.getLatestVersionNumber (storage s) n1) as [v st].
    cbn in Hst, Hr1 |- *. subst st. rewrite <- Hr1.
    destruct s; reflexivity. }
  split; [exact Hr2|]. split.
  { rewrite Ha2, Ha1.
    rewrite map_size_insert_None.
    - rewrite map_size_insert_None by exact Hfresh1. lia.
    - rewrite lookup_insert_ne by exact Hneq. exact Hfresh2. }
  split; [congruence|]. split.
  { rewrite Ha2, Ha1, Hi1. rewrite lookup_insert_ne by congruence.
    apply lookup_insert_eq. }
  split.
  { rewrite Ha2, Hi2. apply lookup_insert_eq. }
  split; [congruence|].
  cbn. repeat (split; [reflexivity|]).
  intros ->. split; congruence.
Qed.

Lemma overlapping_creates_both_register_witness :
  let s := ArchiveService.newService (mkServiceOptions no_options (Some 1))
             (mkStorage ∅ []) in
  exists a1 s1 a2 s2,
    @ArchiveService.createArchive SimpleUrl.parser example_world s
      "https://example.com" no_options = (Ok a1, s1)
    /\ @ArchiveService.createArchive_register SimpleUrl.parser example_world s1
         "https://example.com/" 0 no_options = (Ok a2, s2)
    /\ size (activeArchives s2) = 2
    /\ maxConcurrentArchives s2 = 1
    /\ version a1 = version a2.
Proof.
  intros s.
  destruct (@overlapping_creates_both_register SimpleUrl.parser example_world s
              "https://example.com" "https://example.com/#again"
              "https://example.com/" "https://example.com/" no_options no_options
              eq_refl eq_refl eq_refl eq_refl eq_refl eq_refl eq_refl
              ltac:(vm_compute; discriminate))
    as (a1 & s1 & a2 & s2 & p1 & p2 & _ & Hc & Hr & Hsz & Hm & _ & _ & _ & _ & _
        & _ & _ & Hsame).
  exists a1, s1, a2, s2.
  split; [exact Hc|]. split; [exact Hr|]. split; [exact Hsz|].
  split; [exact Hm|]. apply Hsame. reflexivity.
Defined.
(** * The crawl loop between its awaits *)

Section CrawlParts.
Context {parser : UrlParser}.
Variable fetch : nat -> string -> FetchResult.
Variable now : nat.
Variable options : CrawlerOptions.

(** [crawlPageWithHttp] is the request followed by the handling of the
    response. *)
Lemma crawlPageWithHttp_in_parts (st : Crawler.State) (u : string) (t : nat) :
  Crawler.crawlPageWithHttp fetch now st u t
  = Crawler.crawlPage_response now
      (Crawler.mkState (Crawler.visitedUrls st) (Crawler.crawledPages st)
         (Crawler.c_errors st) (Crawler.urlQueue st) (Crawler.currentDomain st)
         (Crawler.requested st ++ [u]))
      u t (fetch (List.length (Crawler.requested st)) u).
Proof.
  unfold Crawler.crawlPageWithHttp, Crawler.crawlPage_response.
  destruct (fetch _ _) as [[| | |]|]; reflexivity.
Qed.

(** Run without interruption, an iteration of the loop is its beginning,
    the request, and its resumption on the state the beginning left. *)
Lemma loopStep_in_parts (st : Crawler.State) :
  Crawler.loopStep fetch now options st
  = match Crawler.loopStep_begin options st with
    | Crawler.LoopEnds => None
    | Crawler.Skips st1 => Some st1
    | Crawler.Requests st1 currentUrl =>
        Some (Crawler.loopStep_resume now options
                (Crawler.mkState (Crawler.visitedUrls st1) (Crawler.crawledPages st1)
                   (Crawler.c_errors st1) (Crawler.urlQueue st1)
                   (Crawler.currentDomain st1)
                   (Crawler.requested st1 ++ [currentUrl]))
                currentUrl
                (fetch (List.length (Crawler.requested st1)) currentUrl))
    end.
Proof.
  unfold Crawler.loopStep, Crawler.loopStep_begin, Crawler.loopStep_resume.
  destruct (Crawler.urlQueue st) as [|cur q]; [reflexivity|].
  destruct (Js.lt_length _ _); cbn [negb]; [|reflexivity].
  case_bool_decide; [reflexivity|].
  rewrite crawlPageWithHttp_in_parts. cbn [Crawler.requested].
  destruct (Crawler.crawlPage_response _ _ _ _ _) as [[page|] s1]; [|reflexivity].
  destruct (Js.lt_length _ _); reflexivity.
Qed.

(** [crawlSite] is [initialize()], the entry, and the loop. *)
Lemma crawlSite_in_parts (startUrl : string) :
  Crawler.crawlSite fetch now startUrl options
  = match Crawler.crawlSite_enter Crawler.initialize startUrl with
    | Throw m => Some (Throw m, [])
    | Ok st =>
        match Crawler.crawlLoop fetch now (Crawler.loopMeasure options st)
                options st with
        | Some st =>
            Some (Ok (mkCrawlResult (Crawler.crawledPages st) (Crawler.c_errors st)
                        (Crawler.sumSizes (Crawler.crawledPages st)) (now - now)),
                  Crawler.requested st)
        | None => None
        end
    end.
Proof.
  unfold Crawler.crawlSite, Crawler.crawlSite_enter.
  destruct (normalizeUrl startUrl) as [n|]; [|reflexivity].
  destruct (Js.truthy n); cbn [negb]; [|reflexivity].
  destruct (extractDomain n) as [d|]; [|reflexivity].
  destruct (Js.truthy d); reflexivity.
Qed.

End CrawlParts.

(** C9 does not hold of the code, on two counts.

    The fields of the crawl belong to the one crawler object that all
    runs of the archive service use, and the service admits an archive of
    the home page of a site and one of another page of the site at the
    same time.  Run A, archiving the home page, requests it and waits;
    meanwhile run B, archiving the other page, calls [initialize()],
    which empties the visited set, and goes on to its own first request.  When the response to A
    arrives, A goes on with the crawler as B left it: the link of the
    home page to itself is queued, its URL being no longer in the visited
    set, and the next iteration of A requests the home page a second
    time.

    [maxPages] need not be whole: the API accepts 1.5, and with it the
    loop, which goes on while the page count is below [maxPages], returns
    two pages. *)
Lemma crawl_limits_broken :
  let options := defaultCrawlerOptions example_service in
  let home := "https://example.com/" in
  let about := "https://example.com/about" in
  let fractional := mkPartialOptions None (Some 1.5%Q) None None in
  (exists archiveA s1 archiveB s2,
     @ArchiveService.createArchive SimpleUrl.parser example_world example_service
       home no_options = (Ok archiveA, s1)
     /\ @ArchiveService.createArchive SimpleUrl.parser example_world s1
          about no_options = (Ok archiveB, s2)
     /\ background s2 = [(archiveA, no_options); (archiveB, no_options)]
     /\ url archiveA = home /\ url archiveB = about)
  /\ (exists a0 a1 b0 b1 a3,
     @Crawler.crawlSite_enter SimpleUrl.parser Crawler.initialize home = Ok a0
     /\ Crawler.loopStep_begin options a0 = Crawler.Requests a1 home
     /\ home ∈ Crawler.visitedUrls a1
     /\ @Crawler.crawlSite_enter SimpleUrl.parser Crawler.initialize about = Ok b0
     /\ Crawler.loopStep_begin options b0 = Crawler.Requests b1 about
     /\ (home ∉ Crawler.visitedUrls b1)
     /\ Crawler.loopStep_begin options
          (@Crawler.loopStep_resume SimpleUrl.parser 0 options b1 home
             (example_site 0 home))
        = Crawler.Requests a3 home)
  /\ Router.validateOptions (mkRawOptions None (Some 1.5%Q) None None)
     = inr fractional
  /\ exists res trace,
       @Crawler.crawlSite SimpleUrl.parser example_site 0 home
         (mergeOptions defaultOptions fractional)
       = Some (Ok res, trace)
       /\ List.length (cr_pages res) = 2
       /\ ~ (inject_Z 2 <= maxPages (mergeOptions defaultOptions fractional))%Q.
Proof.
  intros options home about fractional. split; [|split; [|split]].
  - eexists _, _, _, _.
    split; [vm_compute; reflexivity|].
    split; [vm_compute; reflexivity|].
    split; [reflexivity|]. split; reflexivity.
  - eexists _, _, _, _, _.
    split; [vm_compute; reflexivity|].
    split; [vm_compute; reflexivity|].
    split; [apply (bool_decide_unpack _); vm_compute; exact I|].
    split; [vm_compute; reflexivity|].
    split; [vm_compute; reflexivity|].
    split; [apply (bool_decide_unpack _); vm_compute; exact I|].
    vm_compute. reflexivity.
  - vm_compute. reflexivity.
  - eexists _, _. split; [vm_compute; reflexivity|].
    split; [reflexivity|].
    intros H. apply Qle_bool_iff in H. vm_compute in H. discriminate.
Qed.
